(** * Relatoriofacil: report store, image pipeline and photo editor

    A shallow embedding of [src/services/db.ts], of the entity model
    ([types.ts]) and of the image and photo handling code of the main
    application file, together with the properties of the specification
    that were checked against them.  Further parts cover the accounts and
    the login form, the settings screen with backup and restore, the report
    form and its drafts, the home screen, the photo grid of
    [src/services/pdfService.ts] and the service worker ([src/sw.js]). *)

From Stdlib Require Import ZArith QArith Qround Lia Lqa.
From Stdlib Require PrimFloat FloatOps Uint63.
From stdpp Require Import base option strings list gmap fin_maps pretty.

Local Open Scope string_scope.
Local Open Scope Z_scope.
Local Open Scope list_scope.

(** ** Entity model (types.ts)

    One module per interface, so that the fields keep their names.
    Optional properties ([caption?], [status?], ...) are [option]s, a missing
    property being [None]. *)

Module ReportPhoto.
Record t : Type := mk
  { id : string;
    base64 : string;
    caption : option string;
    edited : option bool }.
End ReportPhoto.

Module ReportTemplate.
Record t : Type := mk
  { id : string;
    title : string;
    omDescription : string;
    activityExecuted : string;
    createdAt : Z }.
End ReportTemplate.

Inductive ActivityType : Type := Preventiva | Corretiva.
Inductive Status : Type := draft | completed.

Global Instance Status_eq_dec : EqDecision Status.
Proof. solve_decision. Defined.

Module ReportData.
Record t : Type := mk
  { id : string;
    templateId : string;
    date : string;
    equipment : string;
    omNumber : string;
    activityType : ActivityType;
    activityExecuted : option string;
    startTime : string;
    endTime : string;
    iamoDeviation : bool;
    iamoDeviationDetails : string;
    omFinished : bool;
    pendings : bool;
    pendingDetails : option string;
    team : string;
    workCenter : string;
    technicians : string;
    photos : list ReportPhoto.t;
    status : option Status;
    createdAt : Z;
    updatedAt : option Z }.
End ReportData.

Module User.
Record t : Type := mk
  { username : string;
    password : string;
    createdAt : Z }.
End User.

(** ** IndexedDB, as far as db.ts uses it

    Object stores hold structured clones of arbitrary objects, keyed by the
    store's key path.  Requests of a transaction run in the order they were
    placed.  A request that fails gets an [error] event, which bubbles to the
    transaction; unless a listener cancels the event ([preventDefault], which
    db.ts never calls) the transaction is then aborted: its changes are
    undone, the requests still pending get an [AbortError] error event each,
    and [complete] is never fired.  When every request has succeeded the
    transaction commits and fires [complete]. *)

Module IDB.

Inductive DOMException : Type :=
  | QuotaExceededError | UnknownError | AbortError | VersionError
  | NotFoundError | ReadOnlyError | DataError | ConstraintError.

(** What a promise is rejected with: [request.error] or [tx.error] (which is
    [null] until the transaction has been aborted), or [new Error(msg)]. *)
Inductive Reason : Type :=
  | DomErr (e : option DOMException)
  | JsError (msg : string).

Inductive Promise (A : Type) : Type :=
  | Pending
  | Fulfilled (a : A)
  | Rejected (r : Reason).
Arguments Pending {A}.
Arguments Fulfilled {A} a.
Arguments Rejected {A} r.

(** A promise settles once; later calls of [resolve] and [reject] are ignored. *)
Definition resolve {A} (a : A) (p : Promise A) : Promise A :=
  match p with Pending => Fulfilled a | _ => p end.
Definition reject {A} (r : Reason) (p : Promise A) : Promise A :=
  match p with Pending => Rejected r | _ => p end.

Definition is_rejected {A} (p : Promise A) : bool :=
  match p with Rejected _ => true | _ => false end.

(** The objects db.ts stores. *)
Inductive Stored : Type :=
  | TemplateRec (t : ReportTemplate.t)
  | ReportRec (r : ReportData.t)
  | UserRec (u : User.t).

Inductive StoreName : Type := TEMPLATE_STORE | REPORT_STORE | USER_STORE.

Global Instance StoreName_eq_dec : EqDecision StoreName.
Proof. solve_decision. Defined.

(** The database after [onupgradeneeded]: the three stores exist; a fresh
    database has them empty. *)
Record Database : Type := mkDatabase
  { templates : gmap string Stored;
    reports : gmap string Stored;
    users : gmap string Stored }.

Definition fresh : Database := mkDatabase ∅ ∅ ∅.

Definition store (s : StoreName) (db : Database) : gmap string Stored :=
  match s with
  | TEMPLATE_STORE => templates db
  | REPORT_STORE => reports db
  | USER_STORE => users db
  end.

Definition set_store (s : StoreName) (m : gmap string Stored) (db : Database)
  : Database :=
  match s with
  | TEMPLATE_STORE => mkDatabase m (reports db) (users db)
  | REPORT_STORE => mkDatabase (templates db) m (users db)
  | USER_STORE => mkDatabase (templates db) (reports db) m
  end.

(** Key paths given to [createObjectStore] in [openDB]: ['id'] for templates
    and reports, ['username'] for users.  An object without the property has
    no key. *)
Definition prop_id (v : Stored) : option string :=
  match v with
  | TemplateRec t => Some (ReportTemplate.id t)
  | ReportRec r => Some (ReportData.id r)
  | UserRec _ => None
  end.

Definition prop_username (v : Stored) : option string :=
  match v with UserRec u => Some (User.username u) | _ => None end.

Definition key_of (s : StoreName) (v : Stored) : option string :=
  match s with
  | TEMPLATE_STORE | REPORT_STORE => prop_id v
  | USER_STORE => prop_username v
  end.

Inductive Mode : Type := readonly | readwrite.

Inductive Op : Type :=
  | Put (v : Stored)
  | Get (k : string)
  | GetAll
  | Delete (k : string).

Record Request : Type := mkRequest { target : StoreName; op : Op }.

(** A request as queued: the key of a [put] has been extracted. *)
Inductive Queued : Type :=
  | QPut (s : StoreName) (k : string) (v : Stored)
  | QGet (s : StoreName) (k : string)
  | QGetAll (s : StoreName)
  | QDelete (s : StoreName) (k : string).

Definition writes (o : Op) : bool :=
  match o with Put _ | Delete _ => true | Get _ | GetAll => false end.

(** [tx.objectStore(name).op(...)]: throws [NotFoundError] outside the
    transaction's scope, [ReadOnlyError] for a write in a read-only
    transaction, [DataError] when the key path yields no key. *)
Definition issue (scope : list StoreName) (m : Mode) (r : Request)
  : DOMException + Queued :=
  if negb (bool_decide (target r ∈ scope)) then inl NotFoundError
  else if writes (op r) && (match m with readonly => true | readwrite => false end)
  then inl ReadOnlyError
  else match op r with
       | Put v => match key_of (target r) v with
                  | Some k => inr (QPut (target r) k v)
                  | None => inl DataError
                  end
       | Get k => inr (QGet (target r) k)
       | GetAll => inr (QGetAll (target r))
       | Delete k => inr (QDelete (target r) k)
       end.

Inductive Result : Type :=
  | ResKey (k : string)
  | ResValue (o : option Stored)
  | ResAll (l : list Stored)
  | ResUndefined.

(** What a request does when it is served.  [getAll] gives the records of
    the store; IndexedDB gives them by ascending key, an order that is not
    modelled here: the properties below speak of the records listed, not
    of their order. *)
Definition perform (q : Queued) (db : Database) : Database * Result :=
  match q with
  | QPut s k v => (set_store s (<[k := v]> (store s db)) db, ResKey k)
  | QGet s k => (db, ResValue (store s db !! k))
  | QGetAll s => (db, ResAll ((map_to_list (store s db)).*2))
  | QDelete s k => (set_store s (delete k (store s db)) db, ResUndefined)
  end.

(** The storage engine: whether opening fails, and which requests of a
    transaction (counted from 0 in the order placed) fail, with what. *)
Record Engine : Type := mkEngine
  { open_error : option DOMException;
    request_error : nat → option DOMException }.

Definition healthy : Engine := mkEngine None (fun _ => None).

Section Transaction.
(** [St] is the state the listeners close over: the promise under
    construction and the local variables of its executor. *)
Context {St : Type}.

Record ReqListeners : Type := mkReqListeners
  { onsuccess : Result → St → St;
    onerror : option DOMException → St → St }.

Record TxListeners : Type := mkTxListeners
  { oncomplete : St → St;
    tx_onerror : option DOMException → St → St }.

(** The error events of the requests pending at an abort; [tx.error] has
    been set by then. *)
Definition abort_pending (txl : TxListeners) (txerr : DOMException)
    (pending : list (Queued * ReqListeners)) (s : St) : St :=
  foldl (fun s p =>
           tx_onerror txl (Some txerr) (onerror (snd p) (Some AbortError) s))
    s pending.

Fixpoint run (eng : Engine) (txl : TxListeners) (snapshot : Database) (i : nat)
    (queue : list (Queued * ReqListeners)) (work : Database) (s : St)
    : Database * St :=
  match queue with
  | [] => (work, oncomplete txl s)
  | (q, l) :: queue' =>
      match request_error eng i with
      | Some e =>
          let s1 := onerror l (Some e) s in
          let s2 := tx_onerror txl None s1 in
          (snapshot, abort_pending txl e queue' s2)
      | None =>
          let '(work', res) := perform q work in
          run eng txl snapshot (S i) queue' work' (onsuccess l res s)
      end
  end.

Definition transaction (eng : Engine) (txl : TxListeners)
    (queue : list (Queued * ReqListeners)) (db : Database) (s : St)
    : Database * St :=
  run eng txl db 0 queue db s.
End Transaction.
Arguments ReqListeners St : clear implicits.
Arguments TxListeners St : clear implicits.

End IDB.

(** ** The store (services/db.ts)

    Every function is [const db = await openDB(); return new Promise(...)]:
    it maps the database to the database it leaves and the state its promise
    settles in. *)

Module Db.
Import IDB.

Definition Async (A : Type) : Type := Database → Database * Promise A.

(** [openDB]: resolves with the connection, or rejects with
    [request.error].  Its [onupgradeneeded] creates the stores that are
    missing and touches no record; [Database] is the database after that. *)
Definition openDB (eng : Engine) : Promise unit :=
  match open_error eng with
  | Some e => Rejected (DomErr (Some e))
  | None => Fulfilled ()
  end.

(** [const db = await openDB(); ...]: a failed open rejects the caller's
    promise. *)
Definition await_openDB {A} (eng : Engine) (k : Async A) : Async A :=
  fun db =>
    match openDB eng with
    | Rejected r => (db, Rejected r)
    | _ => k db
    end.

(** Transaction listeners never assigned. *)
Definition no_listeners {St} : TxListeners St :=
  {| oncomplete := fun s => s; tx_onerror := fun _ s => s |}.

(** [new Promise((resolve, reject) => { const tx = ...; const request =
    store.op(...); request.onsuccess = ...; request.onerror = ... })] with
    one request.  An exception of the executor rejects the promise. *)
Definition one_request {A} (eng : Engine) (scope : list StoreName) (m : Mode)
    (r : Request) (l : ReqListeners (Promise A)) : Async A :=
  fun db =>
    match issue scope m r with
    | inl ex => (db, Rejected (DomErr (Some ex)))
    | inr q => transaction eng no_listeners [(q, l)] db Pending
    end.

Definition prop_password (v : Stored) : option string :=
  match v with UserRec u => Some (User.password u) | _ => None end.

(** [user && user.password === password] *)
Definition password_matches (result : Result) (password : string) : bool :=
  match result with
  | ResValue (Some user) => bool_decide (prop_password user = Some password)
  | _ => false
  end.

Definition validateUser (eng : Engine) (username password : string) : Async bool :=
  fun db =>
    if bool_decide (username = "admin") && bool_decide (password = "admin")
    then (db, Fulfilled true)
    else
      await_openDB eng
        (one_request eng [USER_STORE] readonly (mkRequest USER_STORE (Get username))
           {| onsuccess := fun result => resolve (password_matches result password);
              onerror := fun e => reject (DomErr e) |}) db.

Definition saveTemplate (eng : Engine) (template : ReportTemplate.t) : Async unit :=
  await_openDB eng
    (one_request eng [TEMPLATE_STORE] readwrite
       (mkRequest TEMPLATE_STORE (Put (TemplateRec template)))
       {| onsuccess := fun _ => resolve (); onerror := fun e => reject (DomErr e) |}).

Definition result_all (result : Result) : list Stored :=
  match result with ResAll l => l | _ => [] end.

Definition result_value (result : Result) : option Stored :=
  match result with ResValue o => o | _ => None end.

Definition getTemplates (eng : Engine) : Async (list Stored) :=
  await_openDB eng
    (one_request eng [TEMPLATE_STORE] readonly (mkRequest TEMPLATE_STORE GetAll)
       {| onsuccess := fun result => resolve (result_all result);
          onerror := fun e => reject (DomErr e) |}).

Definition saveReport (eng : Engine) (report : ReportData.t) : Async unit :=
  await_openDB eng
    (one_request eng [REPORT_STORE] readwrite
       (mkRequest REPORT_STORE (Put (ReportRec report)))
       {| onsuccess := fun _ => resolve (); onerror := fun e => reject (DomErr e) |}).

(** Resolves with the record, or with [undefined] ([None]) when the key is
    absent. *)
Definition getReport (eng : Engine) (id : string) : Async (option Stored) :=
  await_openDB eng
    (one_request eng [REPORT_STORE] readonly (mkRequest REPORT_STORE (Get id))
       {| onsuccess := fun result => resolve (result_value result);
          onerror := fun e => reject (DomErr e) |}).

Definition getAllReports (eng : Engine) : Async (list Stored) :=
  await_openDB eng
    (one_request eng [REPORT_STORE] readonly (mkRequest REPORT_STORE GetAll)
       {| onsuccess := fun result => resolve (result_all result);
          onerror := fun e => reject (DomErr e) |}).

Definition deleteTemplate (eng : Engine) (id : string) : Async unit :=
  await_openDB eng
    (one_request eng [TEMPLATE_STORE] readwrite (mkRequest TEMPLATE_STORE (Delete id))
       {| onsuccess := fun _ => resolve (); onerror := fun e => reject (DomErr e) |}).

Definition deleteReport (eng : Engine) (id : string) : Async unit :=
  await_openDB eng
    (one_request eng [REPORT_STORE] readwrite (mkRequest REPORT_STORE (Delete id))
       {| onsuccess := fun _ => resolve (); onerror := fun e => reject (DomErr e) |}).

(** *** importBackup *)

(** What the listeners of [importBackup] close over. *)
Record ImportState : Type := mkImportState
  { errorOccurred : bool;
    promise : Promise unit }.

(** [req.onerror = () => { errorOccurred = true; }]; no [onsuccess]. *)
Definition import_req_listeners : ReqListeners ImportState :=
  {| onsuccess := fun _ s => s;
     onerror := fun _ s => mkImportState true (promise s) |}.

Definition import_tx_listeners : TxListeners ImportState :=
  {| oncomplete := fun s =>
       if errorOccurred s
       then mkImportState (errorOccurred s)
              (reject (JsError "Erro ao importar alguns itens.") (promise s))
       else mkImportState (errorOccurred s) (resolve () (promise s));
     tx_onerror := fun txerr s =>
       mkImportState (errorOccurred s) (reject (DomErr txerr) (promise s)) |}.

(** [items.forEach(x => { const req = store.put(x); req.onerror = ... })]:
    the requests placed, and the exception that ended the loop, if any. *)
Fixpoint forEach_put {A} (scope : list StoreName) (s : StoreName)
    (wrap : A → Stored) (items : list A)
    : list (Queued * ReqListeners ImportState) * option DOMException :=
  match items with
  | [] => ([], None)
  | x :: items' =>
      match issue scope readwrite (mkRequest s (Put (wrap x))) with
      | inl ex => ([], Some ex)
      | inr q =>
          let '(qs, ex) := forEach_put scope s wrap items' in
          ((q, import_req_listeners) :: qs, ex)
      end
  end.

Definition import_scope : list StoreName := [TEMPLATE_STORE; REPORT_STORE].

Definition importBackup (eng : Engine)
    (data_reports : list ReportData.t) (data_templates : list ReportTemplate.t)
    : Async unit :=
  await_openDB eng (fun db =>
    let '(qt, ext) :=
      forEach_put import_scope TEMPLATE_STORE TemplateRec data_templates in
    let init := mkImportState false Pending in
    let thrown ex queue :=
      (* the executor threw before assigning the transaction's listeners *)
      let '(db', s) :=
        transaction eng no_listeners queue db
          (mkImportState false (Rejected (DomErr (Some ex)))) in
      (db', promise s) in
    match ext with
    | Some ex => thrown ex qt
    | None =>
        let '(qr, exr) :=
          forEach_put import_scope REPORT_STORE ReportRec data_reports in
        match exr with
        | Some ex => thrown ex (qt ++ qr)
        | None =>
            let '(db', s) :=
              transaction eng import_tx_listeners (qt ++ qr) db init in
            (db', promise s)
        end
    end).

End Db.

(** ** The application (image pipeline, home screen, report screen) *)

Module App.
Import IDB.

(** *** Numbers

    JavaScript numbers are binary64 floating-point numbers.  Pixel sizes and
    clock readings are integers ([Z]).  The division and multiplication of
    [processImage], the only place where rounding can change a result, go
    through an interface with two implementations: binary64 itself, as
    Rocq's primitive floats, and exact rational arithmetic.  The pointer
    coordinates of [getPos], on which nothing below depends, are exact
    rationals. *)

Record Arith : Type := mkArith
  { num : Type;
    (** an integer as a number *)
    of_int : Z → num;
    (** the rational a finite number stands for *)
    value : num → Q;
    num_div : num → num → num;
    num_mul : num → num → num;
    (** [Math.floor] *)
    num_floor : num → Z }.

Definition exact : Arith := mkArith Q inject_Z (fun x => x) Qdiv Qmult Qfloor.

Definition float_value (f : PrimFloat.float) : Q :=
  match FloatOps.Prim2SF f with
  | SpecFloat.S754_finite s m e =>
      let n := if s then Z.neg m else Z.pos m in
      if 0 <=? e then inject_Z (n * 2 ^ e) else n # Z.to_pos (2 ^ (- e))
  | _ => 0
  end.

(** Integers below 2^53 convert exactly; a canvas size that is not finite
    counts as 0. *)
Definition binary64 : Arith :=
  mkArith PrimFloat.float (fun z => PrimFloat.of_uint63 (Uint63.of_Z z)) float_value
    PrimFloat.div PrimFloat.mul (fun f => Qfloor (float_value f)).

(** *** Configuration *)

Inductive PhotoQuality : Type := high | medium | low.

Definition quality_key (q : PhotoQuality) : string :=
  match q with high => "high" | medium => "medium" | low => "low" end.

Record PhotoSetting : Type := mkPhotoSetting
  { maxWidth : Z;
    quality : Q;
    label : string;
    desc : string }.

(** [PHOTO_SETTINGS[key]], among the object's own properties; [None] is
    [undefined].  (A key that every object inherits, such as
    ["constructor"], is not modelled: for it the code reads an object that
    has neither [maxWidth] nor [quality].) *)
Definition PHOTO_SETTINGS (key : string) : option PhotoSetting :=
  if bool_decide (key = "high") then
    Some (mkPhotoSetting 1600 (8 # 10) "Alta (Boa para PDF)"
            "Detalhes nítidos, arquivo moderado.")
  else if bool_decide (key = "medium") then
    Some (mkPhotoSetting 1024 (7 # 10) "Média (Recomendado)" "Rápido e leve.")
  else if bool_decide (key = "low") then
    Some (mkPhotoSetting 800 (6 # 10) "Baixa (Econômica)" "Ideal para muitas fotos.")
  else None.

(** [localStorage]: [getItem] of an absent key is [null]. *)
Definition getItem (key : string) (localStorage : gmap string string)
  : option string := localStorage !! key.

Definition setItem (key value : string) (localStorage : gmap string string)
  : gmap string string := <[key := value]> localStorage.

(** [a || b] on a nullable string: [null] and [''] are falsy. *)
Definition or_else (a : option string) (b : string) : string :=
  match a with
  | Some s => if bool_decide (s = "") then b else s
  | None => b
  end.

Definition getPhotoQuality (localStorage : gmap string string) : string :=
  or_else (getItem "photoQuality" localStorage) "medium".

(** [handleSelect] of the settings screen, the only writer of the setting. *)
Definition handleSelect (q : PhotoQuality) (localStorage : gmap string string)
  : gmap string string := setItem "photoQuality" (quality_key q) localStorage.

(** *** Canvas *)

Inductive Source : Type :=
  | HTMLVideoElement (videoWidth videoHeight : Z) (frame : string)
  | HTMLImageElement (naturalWidth naturalHeight : Z) (src : string).

Inductive Drawing : Type :=
  | FillRect (fillStyle : string) (x y w h : Z)
  | DrawImage (image : Source) (x y : Z) (size : option (Z * Z))
  | StrokeLine (strokeStyle : string) (lineWidth : Z) (lineCap : string)
      (from to : Q * Q).

(** A canvas: its size and what has been drawn on it, oldest first. *)
Record Canvas : Type := mkCanvas
  { width : Z;
    height : Z;
    drawn : list Drawing }.

Definition paint (d : Drawing) (c : Canvas) : Canvas :=
  mkCanvas (width c) (height c) (drawn c ++ [d]).

Inductive Completion (A : Type) : Type :=
  | Normal (a : A)
  | Throw (error : string).
Arguments Normal {A} a.
Arguments Throw {A} error.

(** The size [processImage] gives the canvas, for a source of
    [width] x [height] pixels, both non-zero. *)
Definition resized (ar : Arith) (maxWidth width height : Z) : Z * Z :=
  let '(w, h) :=
    if (maxWidth <? width) || (maxWidth <? height) then
      let ratio := num_div ar (of_int ar width) (of_int ar height) in
      if height <? width
      then (of_int ar maxWidth, num_div ar (of_int ar maxWidth) ratio)
      else (num_mul ar (of_int ar maxWidth) ratio, of_int ar maxWidth)
    else (of_int ar width, of_int ar height) in
  (num_floor ar w, num_floor ar h).

Section Pipeline.
(** The arithmetic of numbers. *)
Variable ar : Arith.
(** [canvas.toDataURL(type, quality)], the browser's encoder. *)
Variable toDataURL : Canvas → string → Q → string.
(** Whether [canvas.getContext('2d')] yields a context. *)
Variable context2d : bool.

Definition processImage (localStorage : gmap string string) (source : Source)
  : Completion string :=
  let qualityMode := getPhotoQuality localStorage in
  let settings := PHOTO_SETTINGS qualityMode in
  let '(width, height) :=
    match source with
    | HTMLVideoElement w h _ => (w, h)
    | HTMLImageElement w h _ => (w, h)
    end in
  if (width =? 0) || (height =? 0) then Normal ""
  else
    match settings with
    | None => Throw "TypeError"
    | Some settings =>
        let '(width, height) := resized ar (maxWidth settings) width height in
        let canvas := mkCanvas width height [] in
        if negb context2d then Normal ""
        else
          let canvas := paint (FillRect "#FFFFFF" 0 0 width height) canvas in
          let canvas := paint (DrawImage source 0 0 (Some (width, height))) canvas in
          Normal (toDataURL canvas "image/jpeg" (quality settings))
    end.

(** *** Home screen *)

Definition prop_templateId (v : Stored) : option string :=
  match v with ReportRec r => Some (ReportData.templateId r) | _ => None end.

Definition prop_title (v : Stored) : option string :=
  match v with TemplateRec t => Some (ReportTemplate.title t) | _ => None end.

Definition prop_status (v : Stored) : option Status :=
  match v with ReportRec r => ReportData.status r | _ => None end.

Definition prop_createdAt (v : Stored) : Z :=
  match v with
  | TemplateRec t => ReportTemplate.createdAt t
  | ReportRec r => ReportData.createdAt r
  | UserRec u => User.createdAt u
  end.

Definition prop_updatedAt (v : Stored) : option Z :=
  match v with ReportRec r => ReportData.updatedAt r | _ => None end.

(** [Array.prototype.sort(compare)]: a stable sort. *)
Fixpoint sort_insert {A} (compare : A → A → Z) (x : A) (l : list A) : list A :=
  match l with
  | [] => [x]
  | y :: l' =>
      if compare x y <=? 0 then x :: l else y :: sort_insert compare x l'
  end.

Definition sort {A} (compare : A → A → Z) (l : list A) : list A :=
  foldr (sort_insert compare) [] l.

(** [tmpls.find(t => t.id === id)] *)
Definition find_template (id : option string) (tmpls : list Stored)
  : option Stored :=
  List.find (fun t => bool_decide (prop_id t = id)) tmpls.

(** A draft joined with its template's title: [{ ...r, templateTitle }]. *)
Record Draft : Type := mkDraft
  { report : Stored;
    templateTitle : string }.

(** [b.updatedAt || b.createdAt] *)
Definition last_change (v : Stored) : Z :=
  match prop_updatedAt v with
  | Some u => if u =? 0 then prop_createdAt v else u
  | None => prop_createdAt v
  end.

Record HomeScreen : Type := mkHomeScreen
  { templates : list Stored;
    drafts : list Draft }.

Definition join_title (tmpls : list Stored) (r : Stored) : Draft :=
  let t := find_template (prop_templateId r) tmpls in
  mkDraft r (or_else (t ≫= prop_title) "Modelo Excluído").

(** [HomeScreen.loadData]: the state it sets, or the rejection of either
    read ([Promise.all]).  The two reads are separate transactions, each
    with its own engine behaviour. *)
Definition Home_loadData (eng_t eng_r : Engine) (db : Database)
  : Promise HomeScreen :=
  let '(_, p_t) := Db.getTemplates eng_t db in
  let '(_, p_r) := Db.getAllReports eng_r db in
  match p_t, p_r with
  | Fulfilled tmpls, Fulfilled reports =>
      let templates :=
        sort (fun a b => prop_createdAt b - prop_createdAt a) tmpls in
      let draftList :=
        sort (fun a b => last_change (report b) - last_change (report a))
          (map (join_title templates)
             (filter (fun r => prop_status r = Some draft) reports)) in
      Fulfilled (mkHomeScreen templates draftList)
  | Rejected e, _ => Rejected e
  | _, Rejected e => Rejected e
  | _, _ => Pending
  end.

(** *** Report screen *)

Record Point : Type := mkPoint { px : Q; py : Q }.

(** The photo editor's state cells. *)
Record Editor : Type := mkEditor
  { editorOpen : bool;
    currentPhoto : option ReportPhoto.t;
    editCaption : string;
    (** [canvasRef.current], mounted while the editor is shown *)
    canvas : option Canvas;
    isDrawingMode : bool;
    drawColor : string;
    isDrawing : bool;
    lastPos : option Point }.

Record Staging : Type := mkStaging
  { stagedPhotos : list ReportPhoto.t;
    isPhotoPreviewOpen : bool;
    isProcessingPhotos : bool }.

Record Ui : Type := mkUi
  { (** messages shown with [alert], oldest first *)
    alerts : list string;
    (** messages written with [console.warn] and [console.error] *)
    console : list string;
    (** the route last passed to [navigate] *)
    navigated : option string }.

Record ReportScreen : Type := mkReportScreen
  { template : option Stored;
    loading : bool;
    (** the record given to [setFormData] by [loadData] *)
    loaded : option Stored;
    (** [formData.photos]; the handlers below copy every other field of
        the form unchanged ([...prev]) *)
    photos : option (list ReportPhoto.t);
    editor : Editor;
    isCameraOpen : bool;
    (** [videoRef.current], mounted while the camera is shown *)
    video : option Source;
    staging : Staging;
    ui : Ui }.

Definition with_photos (f : option (list ReportPhoto.t) → option (list ReportPhoto.t))
    (st : ReportScreen) : ReportScreen :=
  mkReportScreen (template st) (loading st) (loaded st) (f (photos st)) (editor st)
    (isCameraOpen st) (video st) (staging st) (ui st).

Definition with_editor (f : Editor → Editor) (st : ReportScreen) : ReportScreen :=
  mkReportScreen (template st) (loading st) (loaded st) (photos st) (f (editor st))
    (isCameraOpen st) (video st) (staging st) (ui st).

Definition with_camera (open : bool) (v : option Source) (st : ReportScreen)
  : ReportScreen :=
  mkReportScreen (template st) (loading st) (loaded st) (photos st) (editor st)
    open v (staging st) (ui st).

Definition with_staging (f : Staging → Staging) (st : ReportScreen) : ReportScreen :=
  mkReportScreen (template st) (loading st) (loaded st) (photos st) (editor st)
    (isCameraOpen st) (video st) (f (staging st)) (ui st).

Definition with_ui (f : Ui → Ui) (st : ReportScreen) : ReportScreen :=
  mkReportScreen (template st) (loading st) (loaded st) (photos st) (editor st)
    (isCameraOpen st) (video st) (staging st) (f (ui st)).

Definition alert (msg : string) : ReportScreen → ReportScreen :=
  with_ui (fun u => mkUi (alerts u ++ [msg]) (console u) (navigated u)).

Definition console_log (msg : string) : ReportScreen → ReportScreen :=
  with_ui (fun u => mkUi (alerts u) (console u ++ [msg]) (navigated u)).

Definition navigate (route : string) : ReportScreen → ReportScreen :=
  with_ui (fun u => mkUi (alerts u) (console u) (Some route)).

(** The screen as its [useState] and [useRef] calls initialise it. *)
Definition initial_screen : ReportScreen :=
  mkReportScreen None true None (Some [])
    (mkEditor false None "" None false "#ef4444" false None)
    false None
    (mkStaging [] false false)
    (mkUi [] [] None).

(** [if (s)] on a string: the empty string is falsy. *)
Definition truthy (s : string) : option string :=
  if bool_decide (s = "") then None else Some s.

(** [ReportScreen.loadData] for the route parameters [reportId] and
    [templateId] ([None] when absent).  The legacy migration of photos
    stored as plain strings does not apply to records of type
    [ReportData], whose photos are objects; of the form only the loaded
    record and its photos are tracked. *)
Definition Report_loadData (eng_r eng_t : Engine)
    (reportId templateId : option string) (db : Database) (st : ReportScreen)
    : ReportScreen :=
  let reportId := reportId ≫= truthy in
  let templateId := templateId ≫= truthy in
  let finish (st : ReportScreen) :=
    mkReportScreen (template st) false (loaded st) (photos st) (editor st)
      (isCameraOpen st) (video st) (staging st) (ui st) in
  let conclude (tmpl : option Stored) (st : ReportScreen) :=
    match tmpl with
    | Some t =>
        mkReportScreen (Some t) (loading st) (loaded st) (photos st) (editor st)
          (isCameraOpen st) (video st) (staging st) (ui st)
    | None =>
        navigate "/" (alert "Dados não encontrados (Modelo ou Relatório excluído)" st)
    end in
  let with_templates (k : list Stored → ReportScreen) (st : ReportScreen) :=
    match snd (Db.getTemplates eng_t db) with
    | Fulfilled tmpls => k tmpls
    | _ => console_log "error" st
    end in
  finish
    match reportId with
    | Some reportId =>
        match snd (Db.getReport eng_r reportId db) with
        | Fulfilled (Some reportData) =>
            let st1 :=
              mkReportScreen (template st) (loading st) (Some reportData)
                (match reportData with
                 | ReportRec r => Some (ReportData.photos r)
                 | _ => None
                 end)
                (editor st) (isCameraOpen st) (video st) (staging st) (ui st) in
            with_templates
              (fun tmpls =>
                 conclude (find_template (prop_templateId reportData) tmpls) st1)
              st1
        | Fulfilled None => conclude None st
        | _ => console_log "error" st
        end
    | None =>
        match templateId with
        | Some templateId =>
            with_templates
              (fun tmpls => conclude (find_template (Some templateId) tmpls) st) st
        | None => conclude None st
        end
    end.

(** The effect that follows [openEditor]: the photo is decoded and drawn
    at its natural size on the freshly mounted canvas (300 x 150 and
    empty until then, and for good when the canvas gives no 2d context or
    the photo does not decode). *)
Variable decode : string → option (Z * Z).

Definition load_canvas (photo : ReportPhoto.t) : Canvas :=
  if negb context2d then mkCanvas 300 150 []
  else
    match decode (ReportPhoto.base64 photo) with
    | Some (w, h) =>
        mkCanvas w h
          [DrawImage (HTMLImageElement w h (ReportPhoto.base64 photo)) 0 0 None]
    | None => mkCanvas 300 150 []
    end.

Definition openEditor (photo : ReportPhoto.t) : ReportScreen → ReportScreen :=
  with_editor (fun e =>
    mkEditor true (Some photo) (or_else (ReportPhoto.caption photo) "")
      (Some (load_canvas photo)) false (drawColor e) (isDrawing e) (lastPos e)).

(** A mouse or touch event on the canvas, with the canvas's bounding
    rectangle at that moment. *)
Record PointerEvent : Type := mkPointerEvent
  { clientX : Q; clientY : Q;
    rect_left : Q; rect_top : Q; rect_width : Q; rect_height : Q }.

Definition getPos (c : Canvas) (e : PointerEvent) : Point :=
  let scaleX := (inject_Z (width c) / rect_width e)%Q in
  let scaleY := (inject_Z (height c) / rect_height e)%Q in
  mkPoint ((clientX e - rect_left e) * scaleX)%Q ((clientY e - rect_top e) * scaleY)%Q.

Definition startDrawing (e : PointerEvent) : ReportScreen → ReportScreen :=
  with_editor (fun ed =>
    match canvas ed with
    | Some c =>
        if isDrawingMode ed
        then mkEditor (editorOpen ed) (currentPhoto ed) (editCaption ed) (canvas ed)
               (isDrawingMode ed) (drawColor ed) true (Some (getPos c e))
        else ed
    | None => ed
    end).

Definition draw (e : PointerEvent) : ReportScreen → ReportScreen :=
  with_editor (fun ed =>
    match canvas ed, lastPos ed with
    | Some c, Some last =>
        if isDrawing ed && isDrawingMode ed then
          let pos := getPos c e in
          let c' :=
            if context2d
            then paint (StrokeLine (drawColor ed) 5 "round"
                          (px last, py last) (px pos, py pos)) c
            else c in
          mkEditor (editorOpen ed) (currentPhoto ed) (editCaption ed) (Some c')
            (isDrawingMode ed) (drawColor ed) (isDrawing ed) (Some pos)
        else ed
    | _, _ => ed
    end).

Definition stopDrawing : ReportScreen → ReportScreen :=
  with_editor (fun ed =>
    mkEditor (editorOpen ed) (currentPhoto ed) (editCaption ed) (canvas ed)
      (isDrawingMode ed) (drawColor ed) false None).

Definition toggleDrawingMode : ReportScreen → ReportScreen :=
  with_editor (fun ed =>
    mkEditor (editorOpen ed) (currentPhoto ed) (editCaption ed) (canvas ed)
      (negb (isDrawingMode ed)) (drawColor ed) (isDrawing ed) (lastPos ed)).

Definition setDrawColor (color : string) : ReportScreen → ReportScreen :=
  with_editor (fun ed =>
    mkEditor (editorOpen ed) (currentPhoto ed) (editCaption ed) (canvas ed)
      (isDrawingMode ed) color (isDrawing ed) (lastPos ed)).

Definition setEditCaption (text : string) : ReportScreen → ReportScreen :=
  with_editor (fun ed =>
    mkEditor (editorOpen ed) (currentPhoto ed) text (canvas ed)
      (isDrawingMode ed) (drawColor ed) (isDrawing ed) (lastPos ed)).

(** [setEditorOpen(false)]: the editor, and its canvas, are unmounted. *)
Definition closeEditor : ReportScreen → ReportScreen :=
  with_editor (fun ed =>
    mkEditor false (currentPhoto ed) (editCaption ed) None
      (isDrawingMode ed) (drawColor ed) (isDrawing ed) (lastPos ed)).

Definition committed (newBase64 caption : string) (p : ReportPhoto.t)
  : ReportPhoto.t :=
  ReportPhoto.mk (ReportPhoto.id p) newBase64 (Some caption) (Some true).

Definition saveEditorChanges (st : ReportScreen) : ReportScreen :=
  match currentPhoto (editor st), canvas (editor st) with
  | Some current, Some c =>
      let newBase64 := toDataURL c "image/jpeg" (9 # 10) in
      let st :=
        with_photos (fmap (map (fun p =>
          if bool_decide (ReportPhoto.id p = ReportPhoto.id current)
          then committed newBase64 (editCaption (editor st)) p
          else p))) st in
      with_editor (fun ed =>
        mkEditor false (currentPhoto ed) (editCaption ed) None
          false (drawColor ed) (isDrawing ed) (lastPos ed)) st
  | _, _ => st
  end.

Definition removePhoto (id : string) (st : ReportScreen) : ReportScreen :=
  closeEditor
    (with_photos (fmap (filter (fun p => ReportPhoto.id p ≠ id))) st).

(** What the user does in an open editor before saving or closing. *)
Inductive EditorAction : Type :=
  | ToggleDrawingMode
  | PickColor (color : string)
  | PointerDown (e : PointerEvent)
  | PointerMove (e : PointerEvent)
  | PointerUp
  | TypeCaption (text : string).

Definition editor_step (st : ReportScreen) (a : EditorAction) : ReportScreen :=
  match a with
  | ToggleDrawingMode => toggleDrawingMode st
  | PickColor color => setDrawColor color st
  | PointerDown e => startDrawing e st
  | PointerMove e => draw e st
  | PointerUp => stopDrawing st
  | TypeCaption text => setEditCaption text st
  end.

(** *** Photos: camera and gallery *)

(** [setIsCameraOpen(true)]: the camera view mounts with its video
    element. *)
Definition openCamera (v : Source) : ReportScreen → ReportScreen :=
  with_camera true (Some v).

(** [[...(prev.photos || []), ...more]] *)
Definition append_photos (more : list ReportPhoto.t)
    (photos : option (list ReportPhoto.t)) : option (list ReportPhoto.t) :=
  Some (default [] photos ++ more).

(** [capturePhoto], with the reading [now] of [Date.now()].  An exception
    of [processImage] leaves the handler. *)
Definition capturePhoto (localStorage : gmap string string) (now : Z)
    (st : ReportScreen) : Completion ReportScreen :=
  match video st with
  | Some video =>
      match processImage localStorage video with
      | Normal processedBase64 =>
          if bool_decide (processedBase64 = "") then Normal st
          else
            let newPhoto :=
              ReportPhoto.mk (pretty now) processedBase64 (Some "") None in
            Normal (with_camera false None
                      (with_photos (append_photos [newPhoto]) st))
      | Throw error => Throw error
      end
  | None => Normal st
  end.

(** An uploaded file, by what reading and decoding it gives. *)
Inductive FileContent : Type :=
  | Unreadable
  | NotAnImage (dataUrl : string)
  | Picture (dataUrl : string) (naturalWidth naturalHeight : Z).

Record File : Type := mkFile
  { name : string;
    content : FileContent }.

(** The browser operations of an upload, in the order they happen. *)
Inductive Step : Type :=
  | ReadAsDataURL (file : string)
  | LoadImage (file : string)
  | ProcessImage (file : string)
  | Push (file : string)
  | Warn (file : string).

(** The clock reading and the text of the random draw used for the id of
    the [i]-th file of an upload. *)
Record Entropy : Type := mkEntropy
  { now_at : nat → Z;
    random_at : nat → string }.

(** [handlePhotoUpload] is an [async] function: it runs until it awaits a
    promise, and goes on when the browser delivers the event that settles
    it.  An operation handed to the browser, whose event is yet to come: *)
Inductive InFlight : Type :=
  (** [reader.readAsDataURL(file)] was called *)
  | Reading (file : File)
  (** [img.src = dataUrl] was assigned *)
  | Decoding (file : File) (dataUrl : string).

(** The function between two events: the screen, what the iterator of the
    [for] loop has left, how many files the loop has been through, what
    the browser owes an event for, the local [processedPhotos], the
    operations so far (oldest first), and whether the function has
    returned. *)
Record Upload : Type := mkUpload
  { screen : ReportScreen;
    remaining : list File;
    iteration : nat;
    in_flight : list InFlight;
    processedPhotos : list ReportPhoto.t;
    trace : list Step;
    returned : bool }.

(** The statements after the loop, on the screen. *)
Definition show_staged (processedPhotos : list ReportPhoto.t) (st : ReportScreen)
  : ReportScreen :=
  let st :=
    match processedPhotos with
    | [] =>
        alert ("Nenhuma imagem pôde ser processada. "
               +:+ "Tente arquivos menores ou outro formato.") st
    | _ =>
        with_staging (fun s =>
          mkStaging (stagedPhotos s ++ processedPhotos) true
            (isProcessingPhotos s)) st
    end in
  with_staging (fun s =>
    mkStaging (stagedPhotos s) (isPhotoPreviewOpen s) false) st.

(** The head of [for (const file of files)]: with a file left, the promise
    for it is created, its executor calls [reader.readAsDataURL(file)], and
    the function awaits it; with none left, the loop is over and the
    function runs to its end. *)
Definition loop_head (files : list File) (u : Upload) : Upload :=
  match files with
  | [] =>
      mkUpload (show_staged (processedPhotos u) (screen u)) [] (iteration u)
        (in_flight u) (processedPhotos u) (trace u) true
  | file :: files' =>
      mkUpload (screen u) files' (iteration u) (in_flight u ++ [Reading file])
        (processedPhotos u) (trace u ++ [ReadAsDataURL (name file)]) false
  end.

(** The awaited promise settles and the function goes on: [if (base64)
    processedPhotos.push(...)], or the [catch] with its [console.warn];
    then the head of the loop again. *)
Definition resume (ent : Entropy) (file : File) (outcome : Completion string)
    (u : Upload) : Upload :=
  let i := iteration u in
  match outcome with
  | Normal base64 =>
      if bool_decide (base64 = "")
      then loop_head (remaining u)
             (mkUpload (screen u) (remaining u) (S i) (in_flight u)
                (processedPhotos u) (trace u) false)
      else loop_head (remaining u)
             (mkUpload (screen u) (remaining u) (S i) (in_flight u)
                (processedPhotos u
                 ++ [ReportPhoto.mk (pretty (now_at ent i) +:+ random_at ent i)
                       base64 (Some "") None])
                (trace u ++ [Push (name file)]) false)
  | Throw _ =>
      loop_head (remaining u)
        (mkUpload
           (console_log ("Erro ao processar imagem " +:+ name file +:+ ":") (screen u))
           (remaining u) (S i) (in_flight u) (processedPhotos u)
           (trace u ++ [Warn (name file)]) false)
  end.

(** The browser delivers the event of the [k]-th operation in flight
    ([None] when there is no such operation).  For a read: [reader.onerror]
    rejects, [reader.onload] creates the image and assigns its [src].  For
    a decoding: [img.onerror] rejects, [img.onload] calls [processImage]
    and resolves with its result, or rejects with what it throws. *)
Definition deliver (localStorage : gmap string string) (ent : Entropy)
    (k : nat) (u : Upload) : option Upload :=
  match in_flight u !! k with
  | None => None
  | Some op =>
      let others := delete k (in_flight u) in
      Some
        match op with
        | Reading file =>
            match content file with
            | Unreadable =>
                resume ent file (Throw "Falha na leitura do arquivo")
                  (mkUpload (screen u) (remaining u) (iteration u) others
                     (processedPhotos u) (trace u) false)
            | NotAnImage dataUrl | Picture dataUrl _ _ =>
                mkUpload (screen u) (remaining u) (iteration u)
                  (others ++ [Decoding file dataUrl])
                  (processedPhotos u) (trace u ++ [LoadImage (name file)]) false
            end
        | Decoding file dataUrl =>
            match content file with
            | Picture _ w h =>
                resume ent file
                  (processImage localStorage (HTMLImageElement w h dataUrl))
                  (mkUpload (screen u) (remaining u) (iteration u) others
                     (processedPhotos u) (trace u ++ [ProcessImage (name file)]) false)
            | _ =>
                resume ent file (Throw "Falha ao carregar imagem")
                  (mkUpload (screen u) (remaining u) (iteration u) others
                     (processedPhotos u) (trace u) false)
            end
        end
  end.

(** The call of [handlePhotoUpload] for the files of the input element
    ([None] when [e.target.files] is null), up to its first [await] or,
    without files, to its [return]. *)
Definition upload_start (files : option (list File)) (st : ReportScreen) : Upload :=
  match files with
  | None | Some [] => mkUpload st [] 0 [] [] [] true
  | Some files =>
      loop_head files
        (mkUpload
           (with_staging (fun s =>
              mkStaging (stagedPhotos s) (isPhotoPreviewOpen s) true) st)
           files 0 [] [] [] false)
  end.

(** Events delivered one after the other, the [k]-th in flight each
    time. *)
Fixpoint deliveries (localStorage : gmap string string) (ent : Entropy)
    (ks : list nat) (u : Upload) : option Upload :=
  match ks with
  | [] => Some u
  | k :: ks' =>
      match deliver localStorage ent k u with
      | Some u' => deliveries localStorage ent ks' u'
      | None => None
      end
  end.

(** The browser delivering the oldest event in flight, until the function
    has returned, [fuel] times at most. *)
Fixpoint run (localStorage : gmap string string) (ent : Entropy)
    (fuel : nat) (u : Upload) : Upload :=
  match fuel with
  | O => u
  | S fuel' =>
      if returned u then u
      else match deliver localStorage ent 0 u with
           | Some u' => run localStorage ent fuel' u'
           | None => u
           end
  end.

(** [handlePhotoUpload], run to the end: a file takes two events at
    most. *)
Definition handlePhotoUpload (localStorage : gmap string string) (ent : Entropy)
    (files : option (list File)) (st : ReportScreen) : Upload :=
  run localStorage ent (2 * length (default [] files)) (upload_start files st).

Definition confirmStagedPhotos (st : ReportScreen) : ReportScreen :=
  match stagedPhotos (staging st) with
  | [] =>
      with_staging (fun s => mkStaging (stagedPhotos s) false (isProcessingPhotos s)) st
  | staged =>
      with_staging (fun s => mkStaging [] false (isProcessingPhotos s))
        (with_photos (append_photos staged) st)
  end.

Definition cancelStagedPhotos : ReportScreen → ReportScreen :=
  with_staging (fun s => mkStaging [] false (isProcessingPhotos s)).
End Pipeline.
End App.

(** ** Notions used to state the properties *)

Module Props.
Import IDB Db App.

(** The engine serves the single request of a transaction. *)
Definition working (eng : Engine) : Prop :=
  open_error eng = None ∧ request_error eng 0 = None.

(** Every record is stored under the key its store's key path gives it: an
    invariant of IndexedDB's in-line keys, which [put] maintains. *)
Definition consistent (db : Database) : Prop :=
  ∀ s k v, store s db !! k = Some v → key_of s v = Some k.

Definition queued_store (q : Queued) : StoreName :=
  match q with
  | QPut s _ _ | QGet s _ | QGetAll s | QDelete s _ => s
  end.

Definition put_template (t : ReportTemplate.t) : Queued * ReqListeners ImportState :=
  (QPut TEMPLATE_STORE (ReportTemplate.id t) (TemplateRec t), import_req_listeners).

Definition put_report (r : ReportData.t) : Queued * ReqListeners ImportState :=
  (QPut REPORT_STORE (ReportData.id r) (ReportRec r), import_req_listeners).

(** The requests [importBackup] places: the templates, then the reports. *)
Definition import_queue (data_reports : list ReportData.t)
    (data_templates : list ReportTemplate.t)
    : list (Queued * ReqListeners ImportState) :=
  map put_template data_templates ++ map put_report data_reports.

Definition import_listening (queue : list (Queued * ReqListeners ImportState)) : Prop :=
  Forall (fun p => snd p = import_req_listeners) queue.

(** The database with every item of a backup upserted. *)
Definition upserted (data_reports : list ReportData.t)
    (data_templates : list ReportTemplate.t) (db : Database) : Database :=
  mkDatabase
    (foldl (fun m t => <[ReportTemplate.id t := TemplateRec t]> m)
       (IDB.templates db) data_templates)
    (foldl (fun m r => <[ReportData.id r := ReportRec r]> m)
       (reports db) data_reports)
    (users db).

(** Half an ulp, relative: the error bound of one correctly rounded
    binary64 operation, 2^-53. *)
Definition eps : Q := 1 # 9007199254740992.

(** Magnitudes between 2^-64 and 2^64, far from overflow and underflow. *)
Definition in_range (x : Q) : Prop :=
  (1 # 18446744073709551616 <= x)%Q ∧ (x <= 18446744073709551616)%Q.

(** What the properties below need of the arithmetic, and IEEE 754 gives
    for binary64: integers of the size of a pixel count are represented
    exactly, [Math.floor] is exact, and a quotient or product of numbers in
    range is the exact one up to a relative error of [eps]. *)
Definition accurate (ar : Arith) : Prop :=
  (∀ z, 0 < z < 2 ^ 32 → (value ar (of_int ar z) == inject_Z z)%Q)
  ∧ (∀ x, num_floor ar x = Qfloor (value ar x))
  ∧ (∀ a b, in_range (value ar a) → in_range (value ar b) →
       ((1 - eps) * (value ar a / value ar b) <= value ar (num_div ar a b))%Q
       ∧ (value ar (num_div ar a b) <= (1 + eps) * (value ar a / value ar b))%Q)
  ∧ (∀ a b, in_range (value ar a) → in_range (value ar b) →
       ((1 - eps) * (value ar a * value ar b) <= value ar (num_mul ar a b))%Q
       ∧ (value ar (num_mul ar a b) <= (1 + eps) * (value ar a * value ar b))%Q).

Definition recognised (key : string) : Prop :=
  key = "high" ∨ key = "medium" ∨ key = "low".

(** C8 as the specification states it: whatever [localStorage] holds, the
    policy read is a tier, and it is medium when the setting is unset or is
    not a tier. *)
Definition reads_a_tier (localStorage : gmap string string) : Prop :=
  recognised (getPhotoQuality localStorage)
  ∧ (getItem "photoQuality" localStorage = None →
     getPhotoQuality localStorage = "medium")
  ∧ (∀ v, getItem "photoQuality" localStorage = Some v → ¬ recognised v →
          getPhotoQuality localStorage = "medium").

Definition source_width (source : Source) : Z :=
  match source with
  | HTMLVideoElement w _ _ | HTMLImageElement w _ _ => w
  end.

Definition source_height (source : Source) : Z :=
  match source with
  | HTMLVideoElement _ h _ | HTMLImageElement _ h _ => h
  end.

(** The canvas [processImage] encodes: white, then the source scaled to
    the canvas. *)
Definition rendered (source : Source) (ow oh : Z) : Canvas :=
  mkCanvas ow oh
    [FillRect "#FFFFFF" 0 0 ow oh; DrawImage source 0 0 (Some (ow, oh))].

(** [ow / oh] is within 1% of [w / h]: |ow/oh - w/h| <= (w/h)/100, with the
    denominators cleared ([h] and [w] are positive). *)
Definition aspect_within_1pct (w h ow oh : Z) : Prop :=
  100 * Z.abs (ow * h - w * oh) ≤ w * oh.

(** C2 as the specification states it, for a source of [w] x [h] and an
    output of [ow] x [oh]. *)
Definition resize_invariant (maxDimension w h ow oh : Z) : Prop :=
  if maxDimension <? Z.max w h
  then Z.abs (Z.max ow oh - maxDimension) ≤ 1 ∧ aspect_within_1pct w h ow oh
  else ow = w ∧ oh = h.

(** The caption field after some actions: the text typed last, if any. *)
Definition caption_after (initial : string) (actions : list EditorAction) : string :=
  foldl (fun text a => match a with TypeCaption t => t | _ => text end)
    initial actions.

Section Upload.
Variable ar : Arith.
Variable toDataURL : Canvas → string → Q → string.
Variable context2d : bool.
Variable localStorage : gmap string string.
Variable ent : Entropy.

(** What the upload of a file comes to, read off the file: a photo with
    the encoded picture; nothing, silently, when [processImage] gives the
    empty string; or a failure (the file cannot be read, is not an image,
    or [processImage] throws), which is caught and logged. *)
Inductive Outcome : Type :=
  | Staged (base64 : string)
  | Dropped
  | Failed.

Definition outcome (file : File) : Outcome :=
  match content file with
  | Unreadable => Failed
  | NotAnImage _ => Failed
  | Picture dataUrl w h =>
      match processImage ar toDataURL context2d localStorage
              (HTMLImageElement w h dataUrl) with
      | Normal base64 => if bool_decide (base64 = "") then Dropped else Staged base64
      | Throw _ => Failed
      end
  end.

(** C5 as the specification states it, for one file: it is read, then
    decoded, then resized and encoded, then pushed, each step only when
    the one before succeeded, a failure ending in the warning. *)
Definition operations (file : File) : list Step :=
  match content file with
  | Unreadable => [ReadAsDataURL (name file); Warn (name file)]
  | NotAnImage _ => [ReadAsDataURL (name file); LoadImage (name file); Warn (name file)]
  | Picture _ _ _ =>
      [ReadAsDataURL (name file); LoadImage (name file); ProcessImage (name file)]
      ++ match outcome file with
         | Staged _ => [Push (name file)]
         | Dropped => []
         | Failed => [Warn (name file)]
         end
  end.

(** The photo staged for the [i]-th file of the upload, if any. *)
Definition staged_photo (i : nat) (file : File) : option ReportPhoto.t :=
  match outcome file with
  | Staged base64 =>
      Some (ReportPhoto.mk (pretty (now_at ent i) +:+ random_at ent i)
              base64 (Some "") None)
  | _ => None
  end.

(** The photos an upload stages: one per file that was processed, in the
    order of the files, the [i]-th file being the first of [files]. *)
Fixpoint staged_from (i : nat) (files : list File) : list ReportPhoto.t :=
  match files with
  | [] => []
  | file :: files' =>
      match staged_photo i file with
      | Some photo => photo :: staged_from (S i) files'
      | None => staged_from (S i) files'
      end
  end.

(** The encoded picture of a file that was processed. *)
Definition staged_base64 (file : File) : option string :=
  match outcome file with Staged base64 => Some base64 | _ => None end.

(** The warning logged for a file that failed. *)
Definition warning (file : File) : option string :=
  match outcome file with
  | Failed => Some ("Erro ao processar imagem " +:+ name file +:+ ":")
  | _ => None
  end.

(** The file an operation in flight is about. *)
Definition file_of (op : InFlight) : File :=
  match op with Reading file | Decoding file _ => file end.

(** C5 as the specification states it, of a moment [u] of an upload of
    [files] that was at [base] when the loop began: one file at most is
    with the browser, and exactly one until the function returns; it is
    the file the loop is at; and the operations since [base] are those of
    the files before it, in order and complete, followed by the first ones
    of that file. *)
Definition one_at_a_time (files : list File) (base u : Upload) : Prop :=
  (length (in_flight u) ≤ 1)%nat
  ∧ (returned u = false → length (in_flight u) = 1%nat)
  ∧ (∃ t, trace u = trace base ++ t
          ∧ t `prefix_of` concat (map operations files))
  ∧ (∀ op, op ∈ in_flight u →
       (iteration base ≤ iteration u)%nat
       ∧ files !! (iteration u - iteration base)%nat = Some (file_of op)).
End Upload.

End Props.

(** ** Concrete data *)

Module Samples.
Import IDB Db App.

(** An encoder for running the code on concrete inputs: in place of the
    pixels it records the type and the size of the canvas. *)
Definition describe (c : Canvas) (type : string) (q : Q) : string :=
  "data:" +:+ type +:+ ";" +:+ pretty (width c) +:+ "x" +:+ pretty (height c).

Definition template_1 : ReportTemplate.t :=
  ReportTemplate.mk "t1" "Inspecao" "OM padrao" "Inspecionar" 1.

Definition template_2 : ReportTemplate.t :=
  ReportTemplate.mk "t2" "Lubrificacao" "OM padrao" "Lubrificar" 2.

(** An engine that fails the second write of a transaction. *)
Definition second_write_fails : Engine :=
  mkEngine None (fun i => if Nat.eqb i 1 then Some QuotaExceededError else None).

Definition user_rafael : User.t := User.mk "rafael" "serra" 1700000000000.

Definition one_user : Database :=
  mkDatabase ∅ ∅ {["rafael" := UserRec user_rafael]}.

(** A store with one template and a draft filled in from it. *)
Definition template_bomba : ReportTemplate.t :=
  ReportTemplate.mk "1699990000000" "Bomba" "Inspecao da bomba" "Inspecionar"
    1699990000000.

Definition draft_bomba : ReportData.t :=
  ReportData.mk "1700000000000" "1699990000000" "2023-11-14" "BB-01" "OM-1" Corretiva
    (Some "Inspecionar") "08:00" "17:00" false "" true false (Some "") "A" "SC108HH"
    "Rafael" [] (Some draft) 1700000000000 (Some 1700000001000).

(** The draft as first saved, before a later edit. *)
Definition draft_bomba_before : ReportData.t :=
  ReportData.mk "1700000000000" "1699990000000" "2023-11-14" "BB-01" "" Corretiva
    (Some "Inspecionar") "08:00" "17:00" false "" true false (Some "") "A" "SC108HH"
    "" [] (Some draft) 1700000000000 (Some 1700000000500).

Definition one_draft : Database :=
  mkDatabase {["1699990000000" := TemplateRec template_bomba]}
    {["1700000000000" := ReportRec draft_bomba]} ∅.

(** A form with two photos; the second is opened, a stroke is drawn, a
    caption typed. *)
Definition photo_a : ReportPhoto.t :=
  ReportPhoto.mk "1700000000000" "data:image/jpeg;base64,AAAA" (Some "") None.

Definition photo_b : ReportPhoto.t :=
  ReportPhoto.mk "17000000050000.25" "data:image/jpeg;base64,BBBB" (Some "bomba") None.

Definition two_photos : ReportScreen :=
  with_photos (fun _ => Some [photo_a; photo_b]) initial_screen.

Definition one_stroke : list EditorAction :=
  [ToggleDrawingMode;
   PointerDown (mkPointerEvent 10 10 0 0 320 240);
   PointerMove (mkPointerEvent 20 30 0 0 320 240);
   PointerUp;
   TypeCaption "vazamento"].

(** Five files, the third of which is not an image. *)
Definition five_files : list File :=
  [mkFile "a.jpg" (Picture "data:image/jpeg;base64,AAAA" 4000 3000);
   mkFile "b.jpg" (Picture "data:image/jpeg;base64,BBBB" 800 600);
   mkFile "c.jpg" (NotAnImage "data:image/jpeg;base64,????");
   mkFile "d.png" (Picture "data:image/png;base64,DDDD" 3000 4000);
   mkFile "e.jpg" (Picture "data:image/jpeg;base64,EEEE" 1024 768)].

(** All five handled within one millisecond, with different draws. *)
Definition one_millisecond : Entropy :=
  mkEntropy (fun _ => 1700000000000) (fun i => "0." +:+ pretty (Z.of_nat i + 1)).

Definition camera_frame : Source := HTMLVideoElement 1920 1080 "frame".

End Samples.

(** ** Accounts: createUser, the login screen, the session flag *)

Module Auth.
Import IDB Db App.

(** [store.add(value)]: as [put], except that a key already taken is a
    [ConstraintError]. *)
Definition add (s : StoreName) (v : Stored) (db : Database)
  : DOMException + Database :=
  match key_of s v with
  | None => inl DataError
  | Some k =>
      match store s db !! k with
      | Some _ => inl ConstraintError
      | None => inr (set_store s (<[k := v]> (store s db)) db)
      end
  end.

(** [createUser]: one read-write transaction on the users store; the [add]
    is placed by the [onsuccess] of the [get], as the second request of the
    transaction.  A failed request rejects with its error and the
    transaction aborts.  (Were the key path to give no key, [add] would
    throw inside the listener and the promise would never settle.) *)
Definition createUser (eng : Engine) (user : User.t) : Async unit :=
  await_openDB eng (fun db =>
    match issue [USER_STORE] readwrite
            (mkRequest USER_STORE (Get (User.username user))) with
    | inl ex => (db, Rejected (DomErr (Some ex)))
    | inr checkRequest =>
        match request_error eng 0 with
        | Some e => (db, Rejected (DomErr (Some e)))
        | None =>
            match result_value (snd (perform checkRequest db)) with
            | Some _ => (db, Rejected (JsError "Usuário já existe"))
            | None =>
                match key_of USER_STORE (UserRec user) with
                | None => (db, Pending)
                | Some _ =>
                    match request_error eng 1 with
                    | Some e => (db, Rejected (DomErr (Some e)))
                    | None =>
                        match add USER_STORE (UserRec user) db with
                        | inl e => (db, Rejected (DomErr (Some e)))
                        | inr db' => (db', Fulfilled ())
                        end
                    end
                end
            end
        end
    end).

(** The login screen's state cells. *)
Record LoginScreen : Type := mkLoginScreen
  { isRegistering : bool;
    username : string;
    password : string;
    confirmPassword : string;
    error : string;
    successMsg : string;
    loading : bool }.

Section Login.
(** [s.trim()] *)
Variable trim : string → string.
(** [s.length], the number of UTF-16 code units of [s] *)
Variable code_units : string → nat.
(** [e.message] of a DOMException *)
Variable message : DOMException → string.

(** The [catch] and [finally] of [handleSubmit]: [setError(err.message ||
    "Ocorreu um erro")], [setLoading(false)].  (The store never rejects
    these calls with [null], whose [message] could not be read.) *)
Definition failed (err : Reason) (st : LoginScreen) : LoginScreen :=
  let text :=
    match err with
    | JsError msg => or_else (Some msg) "Ocorreu um erro"
    | DomErr (Some e) => or_else (Some (message e)) "Ocorreu um erro"
    | DomErr None => ""
    end in
  mkLoginScreen (isRegistering st) (username st) (password st) (confirmPassword st)
    text "" false.

(** [handleSubmit], with the reading [now] of the clock: the database and
    the screen it leaves, and whether it called [onLogin(true)]. *)
Definition handleSubmit (eng : Engine) (now : Z) (st : LoginScreen)
    (db : Database) : Database * LoginScreen * bool :=
  if bool_decide (username st = "") || bool_decide (password st = "")
  then (db, failed (JsError "Preencha todos os campos") st, false)
  else if isRegistering st then
    if negb (bool_decide (password st = confirmPassword st))
    then (db, failed (JsError "As senhas não coincidem") st, false)
    else if Nat.ltb (code_units (password st)) 4
    then (db, failed (JsError "A senha deve ter pelo menos 4 caracteres") st, false)
    else
      match createUser eng (User.mk (trim (username st)) (password st) now) db with
      | (db', Fulfilled _) =>
          (db',
           mkLoginScreen false (username st) "" "" ""
             "Conta criada com sucesso! Faça login." false,
           false)
      | (db', Rejected err) => (db', failed err st, false)
      | (db', Pending) =>
          (db',
           mkLoginScreen (isRegistering st) (username st) (password st)
             (confirmPassword st) "" "" true,
           false)
      end
  else
    match validateUser eng (trim (username st)) (password st) db with
    | (db', Fulfilled true) =>
        (db',
         mkLoginScreen (isRegistering st) (username st) (password st)
           (confirmPassword st) "" "" false,
         true)
    | (db', Fulfilled false) =>
        (db', failed (JsError "Usuário ou senha incorretos") st, false)
    | (db', Rejected err) => (db', failed err st, false)
    | (db', Pending) =>
        (db',
         mkLoginScreen (isRegistering st) (username st) (password st)
           (confirmPassword st) "" "" true,
         false)
    end.
End Login.

Definition toggleMode (st : LoginScreen) : LoginScreen :=
  mkLoginScreen (negb (isRegistering st)) "" "" "" "" "" (loading st).

(** [localStorage.removeItem] *)
Definition removeItem (key : string) (localStorage : gmap string string)
  : gmap string string := delete key localStorage.

(** What the [App] component reads when it mounts:
    [localStorage.getItem('serra_sul_auth') === 'true']. *)
Definition isAuthenticated_on_mount (localStorage : gmap string string) : bool :=
  bool_decide (getItem "serra_sul_auth" localStorage = Some "true").

(** [handleLogin] and [handleLogout] (with the answer to its [confirm]):
    the storage and the [isAuthenticated] cell they leave. *)
Definition handleLogin (status : bool)
    (localStorage : gmap string string) (isAuthenticated : bool)
    : gmap string string * bool :=
  if status then (setItem "serra_sul_auth" "true" localStorage, true)
  else (localStorage, isAuthenticated).

Definition handleLogout (confirmed : bool)
    (localStorage : gmap string string) (isAuthenticated : bool)
    : gmap string string * bool :=
  if confirmed then (removeItem "serra_sul_auth" localStorage, false)
  else (localStorage, isAuthenticated).

End Auth.

(** ** More concrete data *)

Module Samples2.
Import IDB Db App Auth.

(** [trim] for strings of spaces and letters: leading and trailing spaces
    are dropped. *)
Fixpoint drop_spaces (s : string) : string :=
  match s with
  | String c s' => if Ascii.eqb c (Ascii.ascii_of_nat 32) then drop_spaces s' else s
  | EmptyString => s
  end.

Definition trim_spaces (s : string) : string :=
  String.rev (drop_spaces (String.rev (drop_spaces s))).

Definition dom_message (e : DOMException) : string := "DOMException".

Definition register_maria : LoginScreen :=
  mkLoginScreen true " maria " "s3nha" "s3nha" "" "" false.

Definition login_admin : LoginScreen :=
  mkLoginScreen false "admin" "admin" "" "" "" false.

End Samples2.

(** ** Settings screen: preferences, backup and restore *)

Module Settings.
Import IDB Db App.

(** The object [handleExportBackup] serialises into the backup file. *)
Record BackupData : Type := mkBackupData
  { version : Z;
    timestamp : string;
    reports : list Stored;
    templates : list Stored }.

Definition newline : string := String (Ascii.ascii_of_nat 10) EmptyString.

(** [handleExportBackup], with the text [timestamp] of
    [new Date().toISOString()]: the database, the backup downloaded and the
    alert shown, if any.  The users store is not read. *)
Definition handleExportBackup (eng_r eng_t : Engine) (timestamp : string)
    (db : Database) : Database * option BackupData * option string :=
  match getAllReports eng_r db with
  | (db1, Fulfilled reports) =>
      match getTemplates eng_t db1 with
      | (db2, Fulfilled templates) =>
          (db2,
           Some (mkBackupData 1 timestamp reports templates),
           Some ("Backup realizado com sucesso! " +:+ newline
                 +:+ pretty (length reports) +:+ " Relatórios " +:+ newline
                 +:+ pretty (length templates) +:+ " Modelos"))
      | (db2, Rejected _) => (db2, None, Some "Erro ao gerar backup.")
      | (db2, Pending) => (db2, None, None)
      end
  | (db1, Rejected _) => (db1, None, Some "Erro ao gerar backup.")
  | (db1, Pending) => (db1, None, None)
  end.

(** What [JSON.parse] gives for the text of a backup file, as far as
    [handleImportBackup] looks at it: the properties [reports] and
    [templates], [None] when missing, [null] or otherwise falsy.  A property
    that is present holds an array of records (an empty array is truthy). *)
Record BackupFile : Type := mkBackupFile
  { json_reports : option (list ReportData.t);
    json_templates : option (list ReportTemplate.t) }.

(** The file picked in the input element. *)
Inductive Selected : Type :=
  | NoFile
  | Unreadable                          (** [reader.onload] never fires *)
  | Text (json : option BackupFile).    (** [None]: [JSON.parse] throws, or
                                            gives [null] *)

(** [handleImportBackup], with the answer to its [confirm]: the database
    and the alert shown, if any. *)
Definition handleImportBackup (eng : Engine) (file : Selected) (confirmed : bool)
    (db : Database) : Database * option string :=
  match file with
  | NoFile => (db, None)
  | Unreadable => (db, None)
  | Text json =>
      if negb confirmed then (db, None)
      else
        match json with
        | Some (mkBackupFile (Some reports) (Some templates)) =>
            match importBackup eng reports templates db with
            | (db', Fulfilled _) => (db', Some "Backup restaurado com sucesso!")
            | (db', Rejected _) =>
                (db', Some "Erro ao restaurar backup. Verifique se o arquivo é válido.")
            | (db', Pending) => (db', None)
            end
        | _ => (db, Some "Erro ao restaurar backup. Verifique se o arquivo é válido.")
        end
  end.

(** The state cells of the screen, the storage, and whether the document
    element has the class [dark]. *)
Record SettingsScreen : Type := mkSettingsScreen
  { quality : string;
    theme : string;
    hideEmptyFields : bool;
    localStorage : gmap string string;
    dark : bool }.

(** The initial values of the cells. *)
Definition mount (localStorage : gmap string string) (dark : bool) : SettingsScreen :=
  mkSettingsScreen (getPhotoQuality localStorage)
    (or_else (getItem "theme" localStorage) "light")
    (bool_decide (getItem "hideEmptyFields" localStorage = Some "true"))
    localStorage dark.

Definition toggleTheme (st : SettingsScreen) : SettingsScreen :=
  let newTheme := if bool_decide (theme st = "light") then "dark" else "light" in
  mkSettingsScreen (quality st) newTheme (hideEmptyFields st)
    (setItem "theme" newTheme (localStorage st))
    (bool_decide (newTheme = "dark")).

(** [String(b)] *)
Definition String_of_bool (b : bool) : string := if b then "true" else "false".

Definition toggleHideEmpty (st : SettingsScreen) : SettingsScreen :=
  let newValue := negb (hideEmptyFields st) in
  mkSettingsScreen (quality st) (theme st) newValue
    (setItem "hideEmptyFields" (String_of_bool newValue) (localStorage st))
    (dark st).

(** What [generatePDF] reads: [localStorage.getItem('hideEmptyFields') ===
    'true']. *)
Definition pdf_hideEmptyFields (localStorage : gmap string string) : bool :=
  bool_decide (getItem "hideEmptyFields" localStorage = Some "true").

End Settings.

(** ** The report form: drafts *)

Module Form.
Import IDB Db App.

(** [formData], a [Partial<ReportData>]: the properties the initial state
    sets are always there, the others may be missing. *)
Record FormData : Type := mkFormData
  { id : option string;
    templateId : option string;
    date : string;
    equipment : string;
    omNumber : string;
    activityType : ActivityType;
    activityExecuted : option string;
    startTime : string;
    endTime : string;
    iamoDeviation : bool;
    iamoDeviationDetails : string;
    omFinished : bool;
    pendings : bool;
    pendingDetails : option string;
    team : string;
    workCenter : string;
    technicians : string;
    photos : list ReportPhoto.t;
    status : option Status;
    createdAt : option Z;
    updatedAt : option Z }.

(** The initial state, with [today] the date part of
    [new Date().toISOString()]. *)
Definition initial (today : string) : FormData :=
  mkFormData None None today "" "" Corretiva (Some "") "08:00" "17:00"
    false "" true false (Some "") "A" "SC108HH" "" [] None None None.

(** [setFormData(reportData)] *)
Definition of_report (r : ReportData.t) : FormData :=
  mkFormData (Some (ReportData.id r)) (Some (ReportData.templateId r))
    (ReportData.date r) (ReportData.equipment r) (ReportData.omNumber r)
    (ReportData.activityType r) (ReportData.activityExecuted r)
    (ReportData.startTime r) (ReportData.endTime r)
    (ReportData.iamoDeviation r) (ReportData.iamoDeviationDetails r)
    (ReportData.omFinished r) (ReportData.pendings r) (ReportData.pendingDetails r)
    (ReportData.team r) (ReportData.workCenter r) (ReportData.technicians r)
    (ReportData.photos r) (ReportData.status r)
    (Some (ReportData.createdAt r)) (ReportData.updatedAt r).

(** [setFormData(prev => ({ ...prev, activityExecuted: tmpl.activityExecuted }))],
    what [loadData] does for a new report of the template [tmpl]. *)
Definition from_template (tmpl : ReportTemplate.t) (prev : FormData) : FormData :=
  mkFormData (id prev) (templateId prev) (date prev) (equipment prev) (omNumber prev)
    (activityType prev) (Some (ReportTemplate.activityExecuted tmpl))
    (startTime prev) (endTime prev)
    (iamoDeviation prev) (iamoDeviationDetails prev) (omFinished prev) (pendings prev)
    (pendingDetails prev) (team prev) (workCenter prev) (technicians prev) (photos prev)
    (status prev) (createdAt prev) (updatedAt prev).

Definition with_id (i : string) (f : FormData) : FormData :=
  mkFormData (Some i) (templateId f) (date f) (equipment f) (omNumber f)
    (activityType f) (activityExecuted f) (startTime f) (endTime f)
    (iamoDeviation f) (iamoDeviationDetails f) (omFinished f) (pendings f)
    (pendingDetails f) (team f) (workCenter f) (technicians f) (photos f)
    (status f) (createdAt f) (updatedAt f).

Definition with_activity (type : ActivityType) (text : option string)
    (f : FormData) : FormData :=
  mkFormData (id f) (templateId f) (date f) (equipment f) (omNumber f)
    type text (startTime f) (endTime f)
    (iamoDeviation f) (iamoDeviationDetails f) (omFinished f) (pendings f)
    (pendingDetails f) (team f) (workCenter f) (technicians f) (photos f)
    (status f) (createdAt f) (updatedAt f).

(** The [onClick] of the two activity type buttons. *)
Definition selectActivityType (template : ReportTemplate.t) (type : ActivityType)
    (prev : FormData) : FormData :=
  with_activity type
    (match type with
     | Preventiva => Some (ReportTemplate.activityExecuted template)
     | Corretiva => activityExecuted prev
     end)
    prev.

(** [n || d] on numbers: zero is falsy. *)
Definition number_or_else (n : option Z) (d : Z) : Z :=
  match n with
  | Some n => if n =? 0 then d else n
  | None => d
  end.

(** The record [handleSaveDraft] builds; [t_id], [t_created] and
    [t_updated] are the three readings of [Date.now()], the first two taken
    only when the form has no id, no creation time. *)
Definition draft_of (t_id t_created t_updated : Z) (template : ReportTemplate.t)
    (formData : FormData) : ReportData.t :=
  ReportData.mk (or_else (id formData) (pretty t_id)) (ReportTemplate.id template)
    (date formData) (equipment formData) (omNumber formData)
    (activityType formData) (activityExecuted formData)
    (startTime formData) (endTime formData)
    (iamoDeviation formData) (iamoDeviationDetails formData)
    (omFinished formData) (pendings formData) (pendingDetails formData)
    (team formData) (workCenter formData) (technicians formData)
    (photos formData) (Some draft)
    (number_or_else (createdAt formData) t_created) (Some t_updated).

(** [handleSaveDraft] for the template of the screen (a record of the
    templates store, or [null]): the database, the form and the alert
    shown, if any. *)
Definition handleSaveDraft (eng : Engine) (t_id t_created t_updated : Z)
    (template : option ReportTemplate.t) (formData : FormData) (db : Database)
    : Database * FormData * option string :=
  match template with
  | None => (db, formData, None)
  | Some template =>
      let draft := draft_of t_id t_created t_updated template formData in
      match saveReport eng draft db with
      | (db', Fulfilled _) =>
          (db', with_id (ReportData.id draft) formData,
           Some "Rascunho salvo com sucesso!")
      | (db', Rejected _) => (db', formData, Some "Erro ao salvar rascunho.")
      | (db', Pending) => (db', formData, None)
      end
  end.

(** [removeStagedPhoto]: [prev.filter((_, i) => i !== index)] *)
Definition removeStagedPhoto (index : nat) (st : ReportScreen) : ReportScreen :=
  with_staging
    (fun s =>
       mkStaging
         (omap (fun '(i, p) => if bool_decide (i ≠ index) then Some p else None)
            (imap pair (stagedPhotos s)))
         (isPhotoPreviewOpen s) (isProcessingPhotos s))
    st.

End Form.

(** ** Home screen: deleting and searching; the template form *)

Module Home.
Import IDB Db App.

(** [handleDeleteTemplate] and [handleDeleteDraft], with the answer to
    their [confirm]: the database and the state of the screen.  [loadData]
    is called once the deletion has resolved; when either fails, the
    rejection is unhandled and the state stays. *)
Definition handleDeleteTemplate (eng_d eng_t eng_r : Engine) (confirmed : bool)
    (id : string) (db : Database) (st : HomeScreen) : Database * HomeScreen :=
  if confirmed then
    match deleteTemplate eng_d id db with
    | (db', Fulfilled _) =>
        match Home_loadData eng_t eng_r db' with
        | Fulfilled st' => (db', st')
        | _ => (db', st)
        end
    | (db', _) => (db', st)
    end
  else (db, st).

Definition handleDeleteDraft (eng_d eng_t eng_r : Engine) (confirmed : bool)
    (id : string) (db : Database) (st : HomeScreen) : Database * HomeScreen :=
  if confirmed then
    match deleteReport eng_d id db with
    | (db', Fulfilled _) =>
        match Home_loadData eng_t eng_r db' with
        | Fulfilled st' => (db', st')
        | _ => (db', st)
        end
    | (db', _) => (db', st)
    end
  else (db, st).

(** [s.includes(searchString)] *)
Fixpoint includes (searchString s : string) : bool :=
  String.prefix searchString s
  || match s with
     | String _ s' => includes searchString s'
     | EmptyString => false
     end.

Definition prop_omNumber (v : Stored) : option string :=
  match v with ReportRec r => Some (ReportData.omNumber r) | _ => None end.

Definition prop_equipment (v : Stored) : option string :=
  match v with ReportRec r => Some (ReportData.equipment r) | _ => None end.

Definition prop_technicians (v : Stored) : option string :=
  match v with ReportRec r => Some (ReportData.technicians r) | _ => None end.

Definition prop_omDescription (v : Stored) : option string :=
  match v with TemplateRec t => Some (ReportTemplate.omDescription t) | _ => None end.

Section Search.
(** [s.toLowerCase()] *)
Variable toLowerCase : string → string.

(** [field && field.toLowerCase().includes(searchLower)] *)
Definition field_matches (searchLower : string) (field : option string) : bool :=
  match field ≫= truthy with
  | Some s => includes searchLower (toLowerCase s)
  | None => false
  end.

Definition filteredDrafts (searchTerm : string) (drafts : list Draft) : list Draft :=
  let searchLower := toLowerCase searchTerm in
  filter
    (fun d =>
       field_matches searchLower (prop_omNumber (report d))
       || field_matches searchLower (prop_equipment (report d))
       || field_matches searchLower (prop_technicians (report d))
       || field_matches searchLower (Some (templateTitle d)) = true)
    drafts.

(** The predicate of [filteredTemplates]; [None] when it reads [toLowerCase]
    of a missing property, a [TypeError]. *)
Definition template_matches (searchLower : string) (tmpl : Stored) : option bool :=
  match prop_title tmpl with
  | None => None
  | Some title =>
      if includes searchLower (toLowerCase title) then Some true
      else
        match prop_omDescription tmpl with
        | None => None
        | Some omDescription => Some (includes searchLower (toLowerCase omDescription))
        end
  end.

(** [templates.filter(...)]; [None] when the predicate throws. *)
Fixpoint filteredTemplates (searchTerm : string) (templates : list Stored)
  : option (list Stored) :=
  match templates with
  | [] => Some []
  | tmpl :: templates' =>
      match template_matches (toLowerCase searchTerm) tmpl with
      | None => None
      | Some keep =>
          match filteredTemplates searchTerm templates' with
          | None => None
          | Some rest => Some (if keep then tmpl :: rest else rest)
          end
      end
  end.
End Search.

(** The cells of [CreateTemplateScreen]. *)
Record CreateTemplateScreen : Type := mkCreateTemplateScreen
  { title : string;
    omDesc : string;
    activity : string }.

(** [CreateTemplateScreen.handleSave], with the two readings of
    [Date.now()]: the database, the alert shown and the route navigated
    to, if any.  A rejection of [saveTemplate] is unhandled. *)
Definition handleSave (eng : Engine) (t_id t_created : Z)
    (st : CreateTemplateScreen) (db : Database)
    : Database * option string * option string :=
  if bool_decide (title st = "") || bool_decide (omDesc st = "")
     || bool_decide (activity st = "")
  then (db, Some "Preencha todos os campos", None)
  else
    let newTemplate :=
      ReportTemplate.mk (pretty t_id) (title st) (omDesc st) (activity st) t_created in
    match saveTemplate eng newTemplate db with
    | (db', Fulfilled _) => (db', None, Some "/")
    | (db', _) => (db', None, None)
    end.

End Home.

(** ** Notions used to state the properties of these screens *)

Module Props2.
Import IDB Db App.

(** Every record of the templates store is a template, every record of the
    reports store a report: what the application's own writes maintain. *)
Definition well_typed (db : Database) : Prop :=
  (∀ k v, IDB.templates db !! k = Some v → ∃ t, v = TemplateRec t)
  ∧ (∀ k v, reports db !! k = Some v → ∃ r, v = ReportRec r).

(** The file holds what was backed up: [JSON.parse] of the text
    [JSON.stringify] gave for the backup. *)
Definition reads_back (d : Settings.BackupData) (f : Settings.BackupFile) : Prop :=
  ∃ rs ts,
    Settings.json_reports f = Some rs
    ∧ Settings.json_templates f = Some ts
    ∧ ReportRec <$> rs = Settings.reports d
    ∧ TemplateRec <$> ts = Settings.templates d.

End Props2.

(** ** The PDF (services/pdfService.ts): texts and the photo grid *)

Module Pdf.
Import IDB Db App.

(** [report.activityExecuted || template.activityExecuted || ''] *)
Definition activityText (report : ReportData.t) (template : ReportTemplate.t) : string :=
  or_else (ReportData.activityExecuted report)
    (or_else (Some (ReportTemplate.activityExecuted template)) "").

Definition comma : Ascii.ascii := Ascii.ascii_of_nat 44.

(** The text before the first comma, all of it when there is none. *)
Fixpoint until_comma (s : string) : string :=
  match s with
  | EmptyString => EmptyString
  | String c s' => if Ascii.eqb c comma then EmptyString else String c (until_comma s')
  end.

(** The text after the first comma. *)
Fixpoint after_comma (s : string) : option string :=
  match s with
  | EmptyString => None
  | String c s' => if Ascii.eqb c comma then Some s' else after_comma s'
  end.

(** [s.split(',')[1]], [undefined] when [s] has no comma. *)
Definition split_comma_1 (s : string) : option string :=
  until_comma <$> after_comma s.

(** What the photo loop puts on the pages. *)
Inductive Drawn : Type :=
  (** [addImage(data, 'JPEG', x, y, 80, 60)] *)
  | Image (page : nat) (data : string) (x y : Z)
  (** the grey rectangle at [x], [y] and the text "Imagem Indisponível" *)
  | Placeholder (page : nat) (x y : Z)
  (** the caption, at [x], [y] *)
  | Caption (page : nat) (text : string) (x y : Z).

(** The page being written, and the variables [y] and [xPos].  In the photo
    section [y] is a whole number: the heights added before it are 9, 7,
    and multiples of 7, 5 and 10. *)
Record Cursor : Type := mkCursor
  { page : nat;
    y : Z;
    xPos : Z }.

Definition margin : Z := 15.
Definition imgWidth : Z := 80.
Definition imgHeight : Z := 60.

(** What [doc.splitTextToSize] returns: an array of lines, or (the code
    provides for it) a string. *)
Inductive TextLines : Type :=
  | Lines (lines : list string)
  | OneString (text : string).

(** [lines.join(sep)] *)
Fixpoint join (sep : string) (lines : list string) : string :=
  match lines with
  | [] => ""
  | [line] => line
  | line :: lines' => line +:+ sep +:+ join sep lines'
  end.

(** [Array.isArray(textLines) ? textLines.join('\n') : textLines] *)
Definition finalCaption (textLines : TextLines) : string :=
  match textLines with
  | Lines lines => join Settings.newline lines
  | OneString text => text
  end.

Section Photos.
(** [s.length] *)
Variable code_units : string → nat.
(** whether [addImage] takes the data; it throws when it does not *)
Variable addImage_ok : string → bool.
(** [doc.splitTextToSize(text, size)], with the font of the caption *)
Variable splitTextToSize : string → Z → TextLines.
(** the numbers [doc.internal.pageSize.getHeight() - margin] and
    [doc.internal.pageSize.getHeight() - 60] *)
Variable bottom : Q.
Variable low : Q.

(** [a > b] for a whole number [a] *)
Definition exceeds (a : Z) (b : Q) : bool := negb (Qle_bool (inject_Z a) b).

(** The body of the [forEach] over the photos.  Of the calls inside its
    [try], [addImage] may throw; [doc.splitTextToSize] and [doc.text] are
    given a string, which they take. *)
Definition place_photo (index : nat) (photo : ReportPhoto.t) (c : Cursor)
  : Cursor * list Drawn :=
  let captionHeight :=
    match ReportPhoto.caption photo ≫= truthy with Some _ => 10 | None => 0 end in
  let itemTotalHeight := imgHeight + captionHeight + 5 in
  let c :=
    if Nat.even index && exceeds (y c + itemTotalHeight) bottom
    then mkCursor (S (page c)) margin margin
    else c in
  let base64Data := ReportPhoto.base64 photo in
  let placeholder := [Placeholder (page c) (xPos c) (y c)] in
  let drawn :=
    if negb (bool_decide (base64Data = "")) && Nat.ltb 100 (code_units base64Data)
    then
      let data := default base64Data (split_comma_1 base64Data) in
      if addImage_ok data then
        Image (page c) data (xPos c) (y c)
        :: match ReportPhoto.caption photo ≫= truthy with
           | Some caption =>
               [Caption (page c) (finalCaption (splitTextToSize caption imgWidth))
                  (xPos c) (y c + imgHeight + 5)]
           | None => []
           end
      else placeholder
    else placeholder in
  (if Nat.even index
   then mkCursor (page c) (y c) (xPos c + (imgWidth + 10))
   else mkCursor (page c) (y c + (imgHeight + 20)) margin,
   drawn).

(** The cursor after the page break check of [place_photo]. *)
Definition broken (index : nat) (photo : ReportPhoto.t) (c : Cursor) : Cursor :=
  if Nat.even index
     && exceeds
          (y c + (imgHeight
                  + match ReportPhoto.caption photo ≫= truthy with
                    | Some _ => 10
                    | None => 0
                    end + 5)) bottom
  then mkCursor (S (page c)) margin margin
  else c.

Fixpoint photo_grid (index : nat) (photos : list ReportPhoto.t) (c : Cursor)
  : Cursor * list Drawn :=
  match photos with
  | [] => (c, [])
  | photo :: photos' =>
      let '(c1, d1) := place_photo index photo c in
      let '(c2, d2) := photo_grid (S index) photos' c1 in
      (c2, d1 ++ d2)
  end.

(** The photo section, entered on page [page0] with [y = y0]: the heading
    is written at [margin], [y] (after a page break when [y] is low on the
    page) and the photos follow.  Nothing for a report without photos. *)
Definition photo_section (photos : list ReportPhoto.t) (page0 : nat) (y0 : Z)
  : Cursor * list Drawn :=
  match photos with
  | [] => (mkCursor page0 y0 margin, [])
  | _ =>
      let c := if exceeds y0 low then mkCursor (S page0) margin margin
               else mkCursor page0 y0 margin in
      photo_grid 0 photos (mkCursor (page c) (y c + 10) margin)
  end.
End Photos.

(** Where the pictures (images and placeholders) are, in the order drawn. *)
Definition pictures (ds : list Drawn) : list (nat * Z * Z) :=
  omap (fun d =>
          match d with
          | Image p _ x y | Placeholder p x y => Some (p, x, y)
          | Caption _ _ _ _ => None
          end) ds.

(** Two pictures overlap: they are on the same page and their rectangles
    of [imgWidth] by [imgHeight] meet in more than an edge. *)
Definition overlap (a b : nat * Z * Z) : Prop :=
  let '(pa, xa, ya) := a in
  let '(pb, xb, yb) := b in
  pa = pb
  ∧ xa < xb + imgWidth ∧ xb < xa + imgWidth
  ∧ ya < yb + imgHeight ∧ yb < ya + imgHeight.

(** A picture is on a later page than the point [pg], [y0], or on that page
    at [y0] or below. *)
Definition at_or_after (pg : nat) (y0 : Z) (a : nat * Z * Z) : Prop :=
  let '(pa, _, ya) := a in (pg < pa)%nat ∨ (pa = pg ∧ y0 ≤ ya).

(** Every element is related to every later one. *)
Fixpoint pairwise {A} (R : A → A → Prop) (l : list A) : Prop :=
  match l with
  | [] => True
  | a :: rest => Forall (R a) rest ∧ pairwise R rest
  end.

(** What holds of the pictures of a run of the photo loop started at
    [index] with the cursor [c]: they are apart from each other, in the
    column of their index, and not above the cursor; in the right column
    the first one is at the cursor and the others a row below at least. *)
Definition laid_out (index : nat) (c : Cursor) (pics : list (nat * Z * Z)) : Prop :=
  pairwise (fun a b => ¬ overlap a b ∧ ¬ overlap b a) pics
  ∧ (∀ k pg x y0, pics !! k = Some (pg, x, y0) →
       x = (if Nat.even (index + k) then margin else margin + (imgWidth + 10)))
  ∧ (if Nat.even index
     then Forall (at_or_after (page c) (y c)) pics
     else match pics with
          | [] => True
          | a :: rest =>
              a = (page c, xPos c, y c)
              ∧ Forall (at_or_after (page c) (y c + (imgHeight + 20))) rest
          end).

Section Content.
Variable code_units : string → nat.
Variable addImage_ok : string → bool.
Variable splitTextToSize : string → Z → TextLines.

(** The picture a photo is to get at [x], [y1] of page [pg]: the image of
    its data (what stands after the first comma, when there is one) when
    the data has more than 100 code units and [addImage] takes it, the
    placeholder otherwise. *)
Definition picture_for (photo : ReportPhoto.t) (pg : nat) (x y1 : Z) : Drawn :=
  let base64Data := ReportPhoto.base64 photo in
  let data := default base64Data (split_comma_1 base64Data) in
  if negb (bool_decide (base64Data = "")) && Nat.ltb 100 (code_units base64Data)
     && addImage_ok data
  then Image pg data x y1
  else Placeholder pg x y1.

(** What is expected of a thing [d] drawn for one of [photos], among the
    things [ds] drawn. *)
Definition drawn_well (photos : list ReportPhoto.t) (ds : list Drawn) (d : Drawn) : Prop :=
  match d with
  | Image pg data x y1 =>
      addImage_ok data = true
      ∧ after_comma data = None
      ∧ ∃ p, p ∈ photos
             ∧ (100 < code_units (ReportPhoto.base64 p))%nat
             ∧ data = default (ReportPhoto.base64 p)
                        (split_comma_1 (ReportPhoto.base64 p))
  | Caption pg text x y1 =>
      ∃ p caption,
        p ∈ photos
        ∧ ReportPhoto.caption p = Some caption
        ∧ caption ≠ ""
        ∧ text = finalCaption (splitTextToSize caption imgWidth)
        ∧ Image pg (default (ReportPhoto.base64 p)
                      (split_comma_1 (ReportPhoto.base64 p))) x (y1 - 65) ∈ ds
  | Placeholder _ _ _ => True
  end.
End Content.

End Pdf.

(** ** The service worker (sw.js) *)

Module ServiceWorker.
Import Home.

Definition CACHE_NAME : string := "serra-sul-v4".

Definition ASSETS_TO_CACHE : list string :=
  [ "./";
    "./index.html";
    "./manifest.json";
    "https://cdn.tailwindcss.com";
    "https://esm.sh/react-router-dom@^7.10.1";
    "https://esm.sh/react-dom@^19.2.3/";
    "https://esm.sh/lucide-react@^0.561.0";
    "https://esm.sh/jspdf@^3.0.4";
    "https://esm.sh/react@^19.2.3";
    "https://cdn-icons-png.flaticon.com/512/906/906334.png" ].

Section Caches.
(** What a cache holds is not looked at. *)
Variable Cache : Type.

(** [caches]: the caches of the origin, by name. *)
Definition CacheStorage : Type := gmap string Cache.

(** The [activate] listener: [caches.keys()], then [caches.delete] of every
    name but [CACHE_NAME]. *)
Definition activate (caches : CacheStorage) : CacheStorage :=
  foldl
    (fun caches cacheName =>
       if bool_decide (cacheName ≠ CACHE_NAME) then delete cacheName caches
       else caches)
    caches (map_to_list caches).*1.
End Caches.

(** The guard of the [fetch] listener: whether it answers the request
    itself ([respondWith]) instead of leaving it to the browser. *)
Definition intercepts (origin url : string) : bool :=
  negb (negb (String.prefix origin url) && negb (includes "cdn" url)
        && negb (includes "esm.sh" url)).

(** The URL of an asset of [ASSETS_TO_CACHE] for a worker served from the
    directory [dir] of [origin] ([dir] begins and ends with a slash): the
    ones written with [./] are relative to it, the others absolute. *)
Definition resolve (origin dir asset : string) : string :=
  match asset with
  | String a (String b rest) =>
      if Ascii.eqb a (Ascii.ascii_of_nat 46) && Ascii.eqb b (Ascii.ascii_of_nat 47)
      then origin +:+ dir +:+ rest
      else asset
  | _ => asset
  end.

End ServiceWorker.

(** ** Concrete data for these screens *)

Module Samples3.
Import IDB Db App Samples.

(** [toLowerCase] on ASCII text. *)
Definition lower_char (c : Ascii.ascii) : Ascii.ascii :=
  let n := Ascii.nat_of_ascii c in
  if (Nat.leb 65 n && Nat.leb n 90)%bool then Ascii.ascii_of_nat (n + 32) else c.

Fixpoint toLowerCase_ascii (s : string) : string :=
  match s with
  | String c s' => String (lower_char c) (toLowerCase_ascii s')
  | EmptyString => EmptyString
  end.

(** The form of a new report of a template, and that form saved once. *)
Definition new_form : Form.FormData :=
  Form.from_template template_bomba (Form.initial "2023-11-14").

Definition saved_form : Form.FormData :=
  snd (fst (Form.handleSaveDraft healthy 1700000000000 1700000000001 1700000000002
              (Some template_bomba) new_form fresh)).

Definition template_form : Home.CreateTemplateScreen :=
  Home.mkCreateTemplateScreen "Bomba" "Inspecao da bomba" "Inspecionar".

(** A screen with two photos in the form. *)
Definition two_photo_screen : ReportScreen :=
  mkReportScreen None false None (Some [photo_a; photo_b])
    (mkEditor false None "" None false "#ef4444" false None)
    false None (mkStaging [] false false) (mkUi [] [] None).

End Samples3.

(** * Properties *)

(** ** The store *)

Module DbFacts.
Import IDB Db Props Samples.

Lemma healthy_working : working healthy.
Proof. split; reflexivity. Qed.

Lemma one_request_working {A} eng scope m r (l : ReqListeners (Promise A)) q db :
  request_error eng 0 = None →
  issue scope m r = inr q →
  one_request eng scope m r l db =
    (fst (perform q db), onsuccess l (snd (perform q db)) Pending).
Proof.
  intros Hreq Hissue. unfold one_request, transaction. rewrite Hissue. simpl.
  rewrite Hreq. destruct (perform q db) as [work res]. reflexivity.
Qed.

Lemma saveReport_working eng r db :
  working eng →
  saveReport eng r db =
    (set_store REPORT_STORE (<[ReportData.id r := ReportRec r]> (reports db)) db,
     Fulfilled ()).
Proof.
  intros [Hopen Hreq]. unfold saveReport, await_openDB, openDB. rewrite Hopen.
  erewrite one_request_working; [ | exact Hreq | reflexivity]; reflexivity.
Qed.

Lemma getReport_working eng id db :
  working eng →
  getReport eng id db = (db, Fulfilled (reports db !! id)).
Proof.
  intros [Hopen Hreq]. unfold getReport, await_openDB, openDB. rewrite Hopen.
  erewrite one_request_working; [ | exact Hreq | reflexivity]; reflexivity.
Qed.

Lemma getTemplates_working eng db :
  working eng →
  getTemplates eng db = (db, Fulfilled ((map_to_list (templates db)).*2)).
Proof.
  intros [Hopen Hreq]. unfold getTemplates, await_openDB, openDB. rewrite Hopen.
  erewrite one_request_working; [ | exact Hreq | reflexivity]; reflexivity.
Qed.

Lemma getAllReports_working eng db :
  working eng →
  getAllReports eng db = (db, Fulfilled ((map_to_list (reports db)).*2)).
Proof.
  intros [Hopen Hreq]. unfold getAllReports, await_openDB, openDB. rewrite Hopen.
  erewrite one_request_working; [ | exact Hreq | reflexivity]; reflexivity.
Qed.

Lemma deleteTemplate_working eng id db :
  working eng →
  deleteTemplate eng id db =
    (set_store TEMPLATE_STORE (delete id (templates db)) db, Fulfilled ()).
Proof.
  intros [Hopen Hreq]. unfold deleteTemplate, await_openDB, openDB. rewrite Hopen.
  erewrite one_request_working; [ | exact Hreq | reflexivity]; reflexivity.
Qed.

Lemma password_matches_iff db username password :
  password_matches (ResValue (users db !! username)) password = true
  ↔ ∃ v, users db !! username = Some v ∧ prop_password v = Some password.
Proof.
  unfold password_matches. destruct (users db !! username) as [v|].
  - rewrite bool_decide_eq_true. split.
    + intros H. exists v. split; [reflexivity | exact H].
    + intros (v' & Hv & H). congruence.
  - split; [discriminate | intros (v & Hv & _); discriminate].
Qed.

(** ** C6 *)

(** C6. [validateUser "admin" "admin"] resolves with [true] whatever the
    engine and the database, a fresh one included, without touching the
    store.  For every other pair, when the engine serves the lookup, it
    resolves (it never rejects): with [true] exactly when the users store
    holds a record under [username] whose password is [password], hence with
    [false] when no such user is stored or the password differs. *)
Theorem validateUser_backdoor_and_lookup eng db username password :
  validateUser eng "admin" "admin" db = (db, Fulfilled true)
  ∧ validateUser eng "admin" "admin" fresh = (fresh, Fulfilled true)
  ∧ (¬ (username = "admin" ∧ password = "admin") →
     working eng →
     ∃ b, validateUser eng username password db = (db, Fulfilled b)
          ∧ (b = true ↔ ∃ v, users db !! username = Some v
                             ∧ prop_password v = Some password)
          ∧ (users db !! username = None → b = false)
          ∧ (∀ v, users db !! username = Some v →
                  prop_password v ≠ Some password → b = false)).
Proof.
  split; [reflexivity | split; [reflexivity |]].
  intros Hnot [Hopen Hreq].
  exists (password_matches (ResValue (users db !! username)) password).
  split.
  - unfold validateUser.
    destruct (bool_decide (username = "admin") && bool_decide (password = "admin"))
      eqn:Hadmin.
    + apply andb_true_iff in Hadmin as [Hu Hp].
      apply bool_decide_eq_true in Hu, Hp. tauto.
    + unfold await_openDB, openDB. rewrite Hopen.
      erewrite one_request_working; [ | exact Hreq | reflexivity]; reflexivity.
  - split; [apply password_matches_iff |]. split.
    + intros Hnone. rewrite Hnone. reflexivity.
    + intros v Hv Hpw. rewrite Hv. simpl. apply bool_decide_eq_false. exact Hpw.
Qed.

Lemma validateUser_backdoor_and_lookup_witness :
  validateUser healthy "admin" "admin" fresh = (fresh, Fulfilled true)
  ∧ validateUser healthy "rafael" "errada" one_user = (one_user, Fulfilled false)
  ∧ validateUser healthy "maria" "serra" one_user = (one_user, Fulfilled false).
Proof.
  split; [| split].
  - exact (proj1 (proj2 (validateUser_backdoor_and_lookup healthy fresh "" ""))).
  - destruct (proj2 (proj2 (validateUser_backdoor_and_lookup
                              healthy one_user "rafael" "errada")))
      as (b & Hb & _ & _ & Hmismatch).
    + intros [H _]. discriminate H.
    + exact healthy_working.
    + rewrite Hb, (Hmismatch (UserRec user_rafael)); [reflexivity | reflexivity |].
      discriminate.
  - destruct (proj2 (proj2 (validateUser_backdoor_and_lookup
                              healthy one_user "maria" "serra")))
      as (b & Hb & _ & Hmissing & _).
    + intros [H _]. discriminate H.
    + exact healthy_working.
    + rewrite Hb, Hmissing; reflexivity.
Defined.

(** ** C4 *)

(** C4. With an engine that serves the request, [saveReport r] resolves and
    [getReport] of [r]'s id then resolves with [r] itself, every field
    included ([updatedAt] as the caller set it before saving).  Saving is an
    upsert keyed by id: saving [r] again changes nothing, and after saving
    [r0] and then [r] under the same id the store is as if only [r] had been
    saved, so the last write wins. *)
Theorem saveReport_getReport_roundtrip eng_s eng_g r r0 db :
  working eng_s → working eng_g →
  let db' := fst (saveReport eng_s r db) in
  snd (saveReport eng_s r db) = Fulfilled ()
  ∧ getReport eng_g (ReportData.id r) db' = (db', Fulfilled (Some (ReportRec r)))
  ∧ saveReport eng_s r db' = (db', Fulfilled ())
  ∧ (ReportData.id r0 = ReportData.id r →
     fst (saveReport eng_s r (fst (saveReport eng_s r0 db))) = db'
     ∧ getReport eng_g (ReportData.id r0)
         (fst (saveReport eng_s r (fst (saveReport eng_s r0 db))))
       = (db', Fulfilled (Some (ReportRec r))))
  ∧ (∀ id, id ≠ ReportData.id r → reports db' !! id = reports db !! id)
  ∧ templates db' = templates db ∧ users db' = users db.
Proof.
  intros Hs Hg db'. subst db'.
  rewrite !(saveReport_working eng_s) by exact Hs. simpl.
  rewrite !(getReport_working eng_g) by exact Hg. simpl.
  rewrite lookup_insert_eq, insert_insert_eq.
  split; [reflexivity |]. split; [reflexivity |]. split; [reflexivity |].
  split; [| split; [| split; reflexivity]].
  - intros Hid. rewrite Hid, insert_insert_eq, lookup_insert_eq.
    split; reflexivity.
  - intros id Hid. rewrite lookup_insert_ne by congruence. reflexivity.
Qed.

Lemma saveReport_getReport_roundtrip_witness :
  snd (saveReport healthy draft_bomba fresh) = Fulfilled ()
  ∧ getReport healthy "1700000000000" (fst (saveReport healthy draft_bomba fresh))
    = (fst (saveReport healthy draft_bomba fresh),
       Fulfilled (Some (ReportRec draft_bomba)))
  ∧ getReport healthy "1700000000000"
      (fst (saveReport healthy draft_bomba
              (fst (saveReport healthy draft_bomba_before fresh))))
    = (fst (saveReport healthy draft_bomba fresh),
       Fulfilled (Some (ReportRec draft_bomba))).
Proof.
  pose proof (saveReport_getReport_roundtrip healthy healthy draft_bomba
                draft_bomba_before fresh healthy_working healthy_working)
    as (Hsaved & Hread & _ & Hlast & _).
  split; [exact Hsaved | split; [exact Hread |]].
  exact (proj2 (Hlast eq_refl)).
Defined.

End DbFacts.

(** ** importBackup *)

Module ImportFacts.
Import IDB Db Props Samples.

Lemma forEach_put_templates l :
  forEach_put import_scope TEMPLATE_STORE TemplateRec l = (map put_template l, None).
Proof.
  induction l as [|t l IH]; [reflexivity |].
  simpl. simpl in IH. rewrite IH. reflexivity.
Qed.

Lemma forEach_put_reports l :
  forEach_put import_scope REPORT_STORE ReportRec l = (map put_report l, None).
Proof.
  induction l as [|r l IH]; [reflexivity |].
  simpl. simpl in IH. rewrite IH. reflexivity.
Qed.

(** With the database open, the executor never throws on typed data: the
    transaction runs the whole queue with its listeners attached. *)
Lemma importBackup_transaction eng data_reports data_templates db :
  open_error eng = None →
  importBackup eng data_reports data_templates db =
    (fst (transaction eng import_tx_listeners
            (import_queue data_reports data_templates) db
            (mkImportState false Pending)),
     promise (snd (transaction eng import_tx_listeners
                     (import_queue data_reports data_templates) db
                     (mkImportState false Pending)))).
Proof.
  intros Hopen. unfold importBackup, await_openDB, openDB. rewrite Hopen.
  rewrite forEach_put_templates, forEach_put_reports.
  fold (import_queue data_reports data_templates).
  destruct (transaction _ _ _ _ _). reflexivity.
Qed.

Lemma perform_other_store q db s :
  queued_store q ≠ s → store s (fst (perform q db)) = store s db.
Proof.
  destruct q as [s' k v|s' k|s'|s' k]; simpl; intros Hne;
    try reflexivity; destruct s', s; simpl; congruence.
Qed.

(** A transaction leaves alone every store none of its requests targets,
    whether it commits or aborts. *)
Lemma run_other_store {St} eng (txl : TxListeners St) snapshot s queue :
  Forall (fun p => queued_store (fst p) ≠ s) queue →
  ∀ i work st,
    store s work = store s snapshot →
    store s (fst (run eng txl snapshot i queue work st)) = store s snapshot.
Proof.
  induction 1 as [|[q l] queue Hq _ IH]; intros i work st Hwork; simpl.
  - exact Hwork.
  - destruct (request_error eng i); [reflexivity |].
    destruct (perform q work) as [work' res] eqn:Hp.
    apply IH. change work' with (fst (work', res)). rewrite <- Hp.
    rewrite perform_other_store by exact Hq. exact Hwork.
Qed.

Lemma import_queue_spares_users data_reports data_templates :
  Forall (fun p => queued_store (fst p) ≠ USER_STORE)
    (import_queue data_reports data_templates).
Proof.
  unfold import_queue. apply Forall_app. split; apply Forall_forall.
  - intros p Hp. apply list_elem_of_fmap in Hp as (t & -> & _). discriminate.
  - intros p Hp. apply list_elem_of_fmap in Hp as (r & -> & _). discriminate.
Qed.

(** ** C10 *)

(** C10. Whatever the engine does (a failed open, failed writes), whatever
    the backup holds and whatever the database held, [importBackup] leaves
    the users store exactly as it was: its transaction is opened on the
    templates and reports stores and every request it places targets one of
    those two. *)
Theorem importBackup_users_unchanged eng data_reports data_templates db :
  users (fst (importBackup eng data_reports data_templates db)) = users db
  ∧ Forall (fun p => queued_store (fst p) ∈ import_scope)
      (import_queue data_reports data_templates)
  ∧ USER_STORE ∉ import_scope.
Proof.
  split; [| split].
  - destruct (open_error eng) as [e|] eqn:Hopen.
    + unfold importBackup, await_openDB, openDB. rewrite Hopen. reflexivity.
    + rewrite importBackup_transaction by exact Hopen. simpl.
      unfold transaction.
      apply (run_other_store eng import_tx_listeners db USER_STORE);
        [apply import_queue_spares_users | reflexivity].
  - unfold import_queue, import_scope. apply Forall_app. split; apply Forall_forall.
    + intros p Hp. apply list_elem_of_fmap in Hp as (t & -> & _). simpl.
      apply list_elem_of_here.
    + intros p Hp. apply list_elem_of_fmap in Hp as (r & -> & _). simpl.
      apply list_elem_of_further, list_elem_of_here.
  - unfold import_scope. rewrite !not_elem_of_cons.
    repeat split; try discriminate. apply not_elem_of_nil.
Qed.

(** *** Commit and abort *)

Lemma import_queue_listening data_reports data_templates :
  import_listening (import_queue data_reports data_templates).
Proof.
  unfold import_listening, import_queue. apply Forall_app.
  split; apply Forall_forall; intros p Hp;
    apply list_elem_of_fmap in Hp as (x & -> & _); reflexivity.
Qed.

Lemma reject_settled {A} r (p : Promise A) : p ≠ Pending → reject r p = p.
Proof. destruct p; [congruence | reflexivity | reflexivity]. Qed.

(** The error events of an abort reach a promise already settled. *)
Lemma abort_pending_settled txerr pending :
  import_listening pending →
  ∀ s, promise s ≠ Pending →
       promise (abort_pending import_tx_listeners txerr pending s) = promise s.
Proof.
  unfold abort_pending.
  induction 1 as [|[q l] pending Hl _ IH]; intros s Hs; [reflexivity |].
  simpl in Hl. subst l. simpl. rewrite IH; simpl.
  - apply reject_settled. exact Hs.
  - rewrite reject_settled by exact Hs. exact Hs.
Qed.

(** No request fails: the transaction commits every write and [complete]
    resolves the promise. *)
Lemma run_import_commits eng snapshot queue :
  import_listening queue →
  ∀ i work s,
    (∀ j, (j < length queue)%nat → request_error eng (i + j) = None) →
    run eng import_tx_listeners snapshot i queue work s =
      (foldl (fun d p => fst (perform (fst p) d)) work queue,
       oncomplete import_tx_listeners s).
Proof.
  induction 1 as [|[q l] queue Hl _ IH]; intros i work s Hok; [reflexivity |].
  simpl in Hl. subst l. simpl.
  rewrite <- (Nat.add_0_r i) at 1. rewrite (Hok 0%nat) by (simpl; lia).
  destruct (perform q work) as [work' res] eqn:Hp. simpl.
  rewrite IH.
  - reflexivity.
  - intros j Hj. replace (S i + j)%nat with (i + S j)%nat by lia.
    apply Hok. simpl. lia.
Qed.

(** Some request fails: the transaction aborts, the database is the one
    the transaction started from, and the promise has been rejected with
    [tx.error], still [null], by the transaction's [onerror]. *)
Lemma run_import_aborts eng snapshot queue :
  import_listening queue →
  ∀ i work s k,
    (k < length queue)%nat →
    request_error eng (i + k) ≠ None →
    promise s = Pending →
    fst (run eng import_tx_listeners snapshot i queue work s) = snapshot
    ∧ promise (snd (run eng import_tx_listeners snapshot i queue work s))
      = Rejected (DomErr None).
Proof.
  induction 1 as [|[q l] queue Hl Hrest IH]; intros i work s k Hk Hfail Hs;
    [simpl in Hk; lia |].
  simpl in Hl. subst l. simpl.
  destruct (request_error eng i) as [e|] eqn:Hi.
  - simpl. split; [reflexivity |].
    rewrite abort_pending_settled; simpl; rewrite ?Hs; try exact Hrest;
      [reflexivity | discriminate].
  - destruct (perform q work) as [work' res]. simpl.
    destruct k as [|k]; [rewrite Nat.add_0_r in Hfail; congruence |].
    apply (IH (S i) work' s k); [simpl in Hk; lia | | exact Hs].
    replace (S i + k)%nat with (i + S k)%nat by lia. exact Hfail.
Qed.

Lemma perform_import_queue data_reports data_templates db :
  foldl (fun d p => fst (perform (fst p) d)) db
    (import_queue data_reports data_templates)
  = upserted data_reports data_templates db.
Proof.
  unfold import_queue, upserted. rewrite foldl_app.
  revert db. induction data_templates as [|t ts IHt]; intros db; simpl.
  - induction data_reports as [|r rs IHr] in db |- *; simpl.
    + destruct db. reflexivity.
    + rewrite IHr. reflexivity.
  - rewrite IHt. reflexivity.
Qed.

(** When nothing fails, [importBackup] resolves with every item upserted. *)
Lemma importBackup_resolves eng data_reports data_templates db :
  open_error eng = None →
  (∀ j, (j < length data_templates + length data_reports)%nat →
        request_error eng j = None) →
  importBackup eng data_reports data_templates db
  = (upserted data_reports data_templates db, Fulfilled ()).
Proof.
  intros Hopen Hok. rewrite importBackup_transaction by exact Hopen.
  unfold transaction. rewrite run_import_commits.
  - simpl. rewrite perform_import_queue. reflexivity.
  - apply import_queue_listening.
  - intros j Hj. apply Hok. unfold import_queue in Hj.
    rewrite length_app, !length_map in Hj. exact Hj.
Qed.

(** When any write fails, [importBackup] rejects and the database is left
    as it was: the writes that had succeeded are undone with the rest. *)
Lemma importBackup_rolls_back eng data_reports data_templates db k :
  open_error eng = None →
  (k < length data_templates + length data_reports)%nat →
  request_error eng k ≠ None →
  importBackup eng data_reports data_templates db = (db, Rejected (DomErr None)).
Proof.
  intros Hopen Hk Hfail. rewrite importBackup_transaction by exact Hopen.
  unfold transaction.
  destruct (run_import_aborts eng db (import_queue data_reports data_templates)
              (import_queue_listening _ _) 0%nat db (mkImportState false Pending) k)
    as [Hdb Hp]; try done.
  - unfold import_queue. rewrite length_app, !length_map. exact Hk.
  - rewrite Hdb, Hp. reflexivity.
Qed.

(** ** C1 *)

(** C1. A backup of two templates whose second write fails: the promise is
    rejected, by the transaction's [onerror] with [tx.error] and not by
    [oncomplete] with the "alguns itens" error, and the first template,
    whose write had succeeded, is not in the store afterwards: the
    transaction was aborted and the database is still the fresh one.  With
    an engine that fails nothing the same backup resolves and stores
    both. *)
Theorem importBackup_failed_write_undoes_siblings :
  importBackup second_write_fails [] [template_1; template_2] fresh
  = (fresh, Rejected (DomErr None))
  ∧ templates (fst (importBackup second_write_fails [] [template_1; template_2] fresh))
      !! "t1" = None
  ∧ snd (importBackup healthy [] [template_1; template_2] fresh) = Fulfilled ()
  ∧ templates (fst (importBackup healthy [] [template_1; template_2] fresh))
      !! "t1" = Some (TemplateRec template_1).
Proof.
  split; [| split; [| split]].
  - apply (importBackup_rolls_back _ _ _ _ 1%nat);
      [reflexivity | simpl; lia | discriminate].
  - rewrite (importBackup_rolls_back _ _ _ _ 1%nat);
      [reflexivity | reflexivity | simpl; lia | discriminate].
  - rewrite importBackup_resolves; [reflexivity | reflexivity | reflexivity].
  - rewrite importBackup_resolves; [| reflexivity | reflexivity].
    reflexivity.
Qed.

End ImportFacts.

(** ** The image pipeline *)

Module PipelineFacts.
Import IDB App Props Samples.

Lemma quality_key_recognised q : recognised (quality_key q).
Proof. destruct q; unfold recognised; simpl; auto. Qed.

Lemma PHOTO_SETTINGS_recognised key s :
  PHOTO_SETTINGS key = Some s →
  recognised key
  ∧ (maxWidth s = 1600 ∨ maxWidth s = 1024 ∨ maxWidth s = 800)
  ∧ (0 < quality s)%Q ∧ (quality s <= 1)%Q.
Proof.
  unfold PHOTO_SETTINGS, recognised.
  repeat case_bool_decide; intros [= <-]; simpl;
    (split; [auto | split; [auto | split; reflexivity || discriminate]]).
Qed.

Lemma PHOTO_SETTINGS_tier q : is_Some (PHOTO_SETTINGS (quality_key q)).
Proof. destruct q; eexists; reflexivity. Qed.

(** *** C8 *)

(** C8, as stated, fails: with the setting holding ["ultra"] the policy read
    is ["ultra"], not medium; [PHOTO_SETTINGS] has no entry for it and
    [processImage] throws on a 640 x 480 picture. *)
Lemma unrecognised_setting_is_read_as_is :
  getPhotoQuality {["photoQuality" := "ultra"]} = "ultra"
  ∧ PHOTO_SETTINGS (getPhotoQuality {["photoQuality" := "ultra"]}) = None
  ∧ processImage binary64 describe true {["photoQuality" := "ultra"]}
      (HTMLImageElement 640 480 "data:image/png;base64,AAAA") = Throw "TypeError"
  ∧ ¬ reads_a_tier {["photoQuality" := "ultra"]}.
Proof.
  split; [reflexivity | split; [reflexivity | split; [reflexivity |]]].
  intros (Hrec & _). vm_compute in Hrec.
  destruct Hrec as [H | [H | H]]; discriminate.
Qed.

(** C8, amended. The policy read is medium when the setting is unset or
    empty, and is the stored value when that is one of high, medium and low;
    these are the only values the settings screen writes, and whatever it
    wrote last is what is read.  In each of these states [PHOTO_SETTINGS]
    has an entry for the policy read, with a positive maximal dimension and
    a compression quality in (0, 1]. *)
Theorem getPhotoQuality_default_and_tiers (localStorage : gmap string string) :
  (getItem "photoQuality" localStorage = None
   ∨ getItem "photoQuality" localStorage = Some "" →
   getPhotoQuality localStorage = "medium")
  ∧ (∀ q, getItem "photoQuality" localStorage = Some (quality_key q) →
          getPhotoQuality localStorage = quality_key q)
  ∧ (∀ q, getPhotoQuality (handleSelect q localStorage) = quality_key q)
  ∧ (getItem "photoQuality" localStorage = None
     ∨ getItem "photoQuality" localStorage = Some ""
     ∨ (∃ q, getItem "photoQuality" localStorage = Some (quality_key q)) →
     recognised (getPhotoQuality localStorage)
     ∧ ∃ s, PHOTO_SETTINGS (getPhotoQuality localStorage) = Some s
            ∧ 0 < maxWidth s ∧ (0 < quality s)%Q ∧ (quality s <= 1)%Q).
Proof.
  assert (Hdefault : getItem "photoQuality" localStorage = None
            ∨ getItem "photoQuality" localStorage = Some "" →
            getPhotoQuality localStorage = "medium").
  { unfold getPhotoQuality. intros [-> | ->]; reflexivity. }
  assert (Htier : ∀ q, getItem "photoQuality" localStorage = Some (quality_key q) →
            getPhotoQuality localStorage = quality_key q).
  { unfold getPhotoQuality. intros q ->. destruct q; reflexivity. }
  split; [exact Hdefault | split; [exact Htier | split]].
  - intros q. unfold getPhotoQuality, handleSelect, setItem, getItem.
    rewrite lookup_insert_eq. destruct q; reflexivity.
  - intros H.
    assert (Hq : ∃ q, getPhotoQuality localStorage = quality_key q).
    { destruct H as [H | [H | [q H]]].
      - exists medium. apply Hdefault. left. exact H.
      - exists medium. apply Hdefault. right. exact H.
      - exists q. apply Htier. exact H. }
    destruct Hq as [q ->]. split; [apply quality_key_recognised |].
    destruct q; eexists; (split; [reflexivity |]); simpl;
      (split; [lia | split; reflexivity || discriminate]).
Qed.

(** The amended C8 at work: unset, and after choosing "low". *)
Lemma getPhotoQuality_default_and_tiers_witness :
  getPhotoQuality ∅ = "medium"
  ∧ getPhotoQuality (handleSelect low ∅) = "low"
  ∧ recognised (getPhotoQuality ∅).
Proof.
  split; [| split].
  - apply (proj1 (getPhotoQuality_default_and_tiers ∅)). left. reflexivity.
  - apply (proj1 (proj2 (proj2 (getPhotoQuality_default_and_tiers ∅))) low).
  - apply (proj2 (proj2 (proj2 (getPhotoQuality_default_and_tiers ∅)))).
    left. reflexivity.
Defined.

(** *** Arithmetic *)

Lemma exact_accurate : accurate exact.
Proof.
  split; [| split; [| split]]; simpl.
  - intros z _. reflexivity.
  - reflexivity.
  - intros a b [Ha _] [Hb _]. unfold eps.
    assert (0 < a / b)%Q.
    { apply Qlt_shift_div_l; unfold in_range in *; lra. }
    split; lra.
  - intros a b [Ha _] [Hb _]. unfold eps.
    assert (0 < a * b)%Q by (apply Qmult_lt_0_compat; lra).
    split; lra.
Qed.

(** Two roundings in a row stay within three times [eps].  First in
    units of [t], which is [M] up to one rounding while [u] is [t] up to
    another. *)
Lemma scale_bounds (t u M h : Q) :
  (0 < M)%Q → (0 < h)%Q → (0 < t)%Q →
  ((1 - eps) * t <= M)%Q → (M <= (1 + eps) * t)%Q →
  ((1 - eps) * t <= u)%Q → (u <= (1 + eps) * t)%Q →
  ((1 - 3 * eps) * (M * h) <= u * h)%Q ∧ (u * h <= (1 + 3 * eps) * (M * h))%Q.
Proof.
  intros HM Hh Ht Ht1 Ht2 Hu1 Hu2. unfold eps in *.
  assert (H1 : ((1 - 3 * (1 # 9007199254740992)) * M <= u)%Q) by lra.
  assert (H2 : (u <= (1 + 3 * (1 # 9007199254740992)) * M)%Q) by lra.
  split.
  - setoid_replace ((1 - 3 * (1 # 9007199254740992)) * (M * h))%Q
      with (((1 - 3 * (1 # 9007199254740992)) * M) * h)%Q
      using relation Qeq by ring.
    apply Qmult_le_compat_r; lra.
  - setoid_replace ((1 + 3 * (1 # 9007199254740992)) * (M * h))%Q
      with (((1 + 3 * (1 # 9007199254740992)) * M) * h)%Q
      using relation Qeq by ring.
    apply Qmult_le_compat_r; lra.
Qed.

Lemma div_div_bounds (M w h r y : Q) :
  (0 < M)%Q → (0 < w)%Q → (0 < h)%Q →
  ((1 - eps) * (w / h) <= r)%Q → (r <= (1 + eps) * (w / h))%Q →
  ((1 - eps) * (M / r) <= y)%Q → (y <= (1 + eps) * (M / r))%Q →
  ((1 - 3 * eps) * (M * h) <= y * w)%Q ∧ (y * w <= (1 + 3 * eps) * (M * h))%Q.
Proof.
  intros HM Hw Hh Hr1 Hr2 Hy1 Hy2.
  set (x0 := (w / h)%Q) in *.
  assert (Hx0 : (x0 * h == w)%Q) by (unfold x0; field; lra).
  assert (Hx0pos : (0 < x0)%Q) by (apply Qlt_shift_div_l; lra).
  assert (Heps : (0 < 1 - eps)%Q) by (unfold eps; lra).
  assert (Hrpos : (0 < r)%Q).
  { apply Qlt_le_trans with ((1 - eps) * x0)%Q; [| exact Hr1].
    apply Qmult_lt_0_compat; assumption. }
  set (q := (M / r)%Q) in *.
  assert (Hq : (q * r == M)%Q) by (unfold q; field; lra).
  assert (Hqpos : (0 < q)%Q) by (apply Qlt_shift_div_l; lra).
  (* t = q * x0 is M up to one rounding, u = y * x0 is t up to one more *)
  assert (Ht : (0 < q * x0)%Q) by (apply Qmult_lt_0_compat; assumption).
  assert (Ht1 : ((1 - eps) * (q * x0) <= M)%Q).
  { rewrite <- Hq. setoid_replace ((1 - eps) * (q * x0))%Q
      with (q * ((1 - eps) * x0))%Q
      using relation Qeq by ring.
    apply Qmult_le_l; assumption. }
  assert (Ht2 : (M <= (1 + eps) * (q * x0))%Q).
  { rewrite <- Hq. setoid_replace ((1 + eps) * (q * x0))%Q
      with (q * ((1 + eps) * x0))%Q
      using relation Qeq by ring.
    apply Qmult_le_l; assumption. }
  assert (Hu1 : ((1 - eps) * (q * x0) <= y * x0)%Q).
  { setoid_replace ((1 - eps) * (q * x0))%Q
      with (((1 - eps) * q) * x0)%Q
      using relation Qeq by ring.
    apply Qmult_le_compat_r; lra. }
  assert (Hu2 : (y * x0 <= (1 + eps) * (q * x0))%Q).
  { setoid_replace ((1 + eps) * (q * x0))%Q
      with (((1 + eps) * q) * x0)%Q
      using relation Qeq by ring.
    apply Qmult_le_compat_r; lra. }
  destruct (scale_bounds (q * x0) (y * x0) M h HM Hh Ht Ht1 Ht2 Hu1 Hu2) as [Hlo Hhi].
  setoid_replace (y * w)%Q
      with (y * x0 * h)%Q
      using relation Qeq by (rewrite <- Hx0; ring).
  split; assumption.
Qed.

Lemma mul_div_bounds (M w h r y : Q) :
  (0 < M)%Q → (0 < w)%Q → (0 < h)%Q →
  ((1 - eps) * (w / h) <= r)%Q → (r <= (1 + eps) * (w / h))%Q →
  ((1 - eps) * (M * r) <= y)%Q → (y <= (1 + eps) * (M * r))%Q →
  ((1 - 3 * eps) * (M * w) <= y * h)%Q ∧ (y * h <= (1 + 3 * eps) * (M * w))%Q.
Proof.
  intros HM Hw Hh Hr1 Hr2 Hy1 Hy2.
  set (x0 := (w / h)%Q) in *.
  assert (Hx0 : (x0 * h == w)%Q) by (unfold x0; field; lra).
  assert (Hx0pos : (0 < x0)%Q) by (apply Qlt_shift_div_l; lra).
  assert (Heps : (0 < 1 - eps)%Q) by (unfold eps; lra).
  assert (Hrpos : (0 < r)%Q).
  { apply Qlt_le_trans with ((1 - eps) * x0)%Q; [| exact Hr1].
    apply Qmult_lt_0_compat; assumption. }
  (* in units of M * x0: M * r is within one rounding, y within one more *)
  assert (Ht : (0 < M * r)%Q) by (apply Qmult_lt_0_compat; assumption).
  assert (Ha : (0 < M * x0)%Q) by (apply Qmult_lt_0_compat; assumption).
  assert (Hm1 : ((1 - eps) * (M * x0) <= M * r)%Q).
  { setoid_replace ((1 - eps) * (M * x0))%Q
      with (M * ((1 - eps) * x0))%Q
      using relation Qeq by ring.
    apply Qmult_le_l; assumption. }
  assert (Hm2 : (M * r <= (1 + eps) * (M * x0))%Q).
  { setoid_replace ((1 + eps) * (M * x0))%Q
      with (M * ((1 + eps) * x0))%Q
      using relation Qeq by ring.
    apply Qmult_le_l; assumption. }
  assert (H1 : ((1 - 3 * eps) * (M * x0) <= y)%Q) by (unfold eps in *; lra).
  assert (H2 : (y <= (1 + 3 * eps) * (M * x0))%Q) by (unfold eps in *; lra).
  setoid_replace (M * w)%Q
      with (M * x0 * h)%Q
      using relation Qeq by (rewrite <- Hx0; ring).
  split.
  - setoid_replace ((1 - 3 * eps) * (M * x0 * h))%Q
      with (((1 - 3 * eps) * (M * x0)) * h)%Q
      using relation Qeq by ring.
    apply Qmult_le_compat_r; lra.
  - setoid_replace ((1 + 3 * eps) * (M * x0 * h))%Q
      with (((1 + 3 * eps) * (M * x0)) * h)%Q
      using relation Qeq by ring.
    apply Qmult_le_compat_r; lra.
Qed.

Lemma floor_near_quotient (n d : Z) (y : Q) :
  0 < d → 0 ≤ n → 3 * n < 2 ^ 53 →
  ((1 - 3 * eps) * inject_Z n <= y * inject_Z d)%Q →
  (y * inject_Z d <= (1 + 3 * eps) * inject_Z n)%Q →
  n `div` d - 1 ≤ Qfloor y ≤ n `div` d
  ∧ (Qfloor y = n `div` d - 1 → n `mod` d = 0).
Proof.
  intros Hd Hn Hsmall Hlo Hhi.
  assert (Hdq : (0 < inject_Z d)%Q) by (unfold Qlt; simpl; lia).
  pose proof (Qfloor_le y) as Hk1. pose proof (Qlt_floor y) as Hk2.
  set (k := Qfloor y) in *.
  assert (Hup : (inject_Z (k * d)
                 <= (9007199254740995 # 9007199254740992) * inject_Z n)%Q).
  { rewrite inject_Z_mult.
    apply Qle_trans with (y * inject_Z d)%Q; [apply Qmult_le_compat_r; lra |].
    exact Hhi. }
  assert (Hdown : ((9007199254740989 # 9007199254740992) * inject_Z n
                   < inject_Z ((k + 1) * d))%Q).
  { rewrite inject_Z_mult.
    apply Qle_lt_trans with (y * inject_Z d)%Q; [exact Hlo |].
    apply Qmult_lt_compat_r; assumption. }
  unfold Qle in Hup. unfold Qlt in Hdown. simpl in Hup, Hdown.
  change (2 ^ 53) with 9007199254740992 in Hsmall.
  assert (Hkd : k * d ≤ n) by lia.
  assert (Hkd' : n ≤ (k + 1) * d) by lia.
  assert (Hle : k ≤ n `div` d) by (apply Z.div_le_lower_bound; lia).
  assert (Hge : n `div` d ≤ k + 1) by (apply Z.div_le_upper_bound; lia).
  split; [lia |].
  intros Hk. pose proof (Z.div_mod n d ltac:(lia)) as Hdm.
  pose proof (Z.mod_pos_bound n d Hd) as Hmod. nia.
Qed.

Lemma int_quotient_range w h :
  0 < w < 2 ^ 32 → 0 < h < 2 ^ 32 →
  (1 # 4294967296 <= inject_Z w / inject_Z h)%Q
  ∧ (inject_Z w / inject_Z h <= 4294967296)%Q.
Proof.
  intros Hw Hh. destruct h as [|p|p]; try lia.
  rewrite <- Qmake_Qdiv. unfold Qle. simpl.
  change (2 ^ 32) with 4294967296 in *. split; lia.
Qed.

Lemma int_in_range z : 0 < z < 2 ^ 32 → in_range (inject_Z z).
Proof.
  intros Hz. unfold in_range, Qle. simpl.
  change (2 ^ 32) with 4294967296 in *. split; lia.
Qed.

Section Accurate.
Variable ar : Arith.
Hypothesis Har : accurate ar.

Lemma floor_of_int z : 0 < z < 2 ^ 32 → num_floor ar (of_int ar z) = z.
Proof.
  intros Hz. destruct Har as (Hint & Hfloor & _).
  rewrite Hfloor, (Qfloor_comp _ _ (Hint z Hz)). apply Qfloor_Z.
Qed.

Lemma of_int_in_range z : 0 < z < 2 ^ 32 → in_range (value ar (of_int ar z)).
Proof.
  intros Hz. destruct Har as (Hint & _).
  destruct (int_in_range z Hz) as [H1 H2].
  unfold in_range. rewrite (Hint z Hz). split; assumption.
Qed.

(** The ratio computed for a [w] x [h] source. *)
Lemma ratio_bounds w h :
  0 < w < 2 ^ 32 → 0 < h < 2 ^ 32 →
  let r := value ar (num_div ar (of_int ar w) (of_int ar h)) in
  ((1 - eps) * (inject_Z w / inject_Z h) <= r)%Q
  ∧ (r <= (1 + eps) * (inject_Z w / inject_Z h))%Q
  ∧ in_range r.
Proof.
  intros Hw Hh r. subst r.
  destruct Har as (Hint & _ & Hdiv & _).
  destruct (Hdiv (of_int ar w) (of_int ar h)
              (of_int_in_range w Hw) (of_int_in_range h Hh)) as [H1 H2].
  rewrite (Hint w Hw), (Hint h Hh) in H1, H2.
  destruct (int_quotient_range w h Hw Hh) as [Hq1 Hq2].
  split; [exact H1 | split; [exact H2 |]].
  unfold in_range, eps in *. split; lra.
Qed.

Lemma resized_bounds m w h :
  0 < m < 2 ^ 11 → 0 < w < 2 ^ 32 → 0 < h < 2 ^ 32 →
  let ow := fst (resized ar m w h) in
  let oh := snd (resized ar m w h) in
  if (m <? w) || (m <? h) then
    if h <? w then
      ow = m ∧ (m * h) `div` w - 1 ≤ oh ≤ (m * h) `div` w
      ∧ (oh = (m * h) `div` w - 1 → (m * h) `mod` w = 0)
    else
      oh = m ∧ (m * w) `div` h - 1 ≤ ow ≤ (m * w) `div` h
      ∧ (ow = (m * w) `div` h - 1 → (m * w) `mod` h = 0)
  else ow = w ∧ oh = h.
Proof.
  intros Hm Hw Hh ow oh. subst ow oh. unfold resized.
  assert (Hm' : 0 < m < 2 ^ 32) by (change (2 ^ 11) with 2048 in Hm;
                                    change (2 ^ 32) with 4294967296; lia).
  assert (Hmq : (0 < inject_Z m)%Q) by (unfold Qlt; simpl; lia).
  assert (Hwq : (0 < inject_Z w)%Q) by (unfold Qlt; simpl; lia).
  assert (Hhq : (0 < inject_Z h)%Q) by (unfold Qlt; simpl; lia).
  destruct ((m <? w) || (m <? h)); [| simpl; rewrite !floor_of_int by assumption; auto].
  destruct (ratio_bounds w h Hw Hh) as (Hr1 & Hr2 & Hrange).
  set (ratio := num_div ar (of_int ar w) (of_int ar h)) in *.
  destruct Har as (Hint & Hfloor & Hdiv & Hmul).
  destruct (h <? w); simpl; rewrite floor_of_int by assumption;
    (split; [reflexivity |]); rewrite Hfloor.
  - destruct (Hdiv (of_int ar m) ratio (of_int_in_range m Hm') Hrange) as [Hy1 Hy2].
    rewrite (Hint m Hm') in Hy1, Hy2.
    destruct (div_div_bounds _ _ _ _ _ Hmq Hwq Hhq Hr1 Hr2 Hy1 Hy2) as [Hlo Hhi].
    rewrite <- inject_Z_mult in Hlo, Hhi.
    change (2 ^ 11) with 2048 in Hm. change (2 ^ 32) with 4294967296 in Hh.
    apply floor_near_quotient; [lia | nia | | assumption | assumption].
    change (2 ^ 53) with 9007199254740992. nia.
  - destruct (Hmul (of_int ar m) ratio (of_int_in_range m Hm') Hrange) as [Hy1 Hy2].
    rewrite (Hint m Hm') in Hy1, Hy2.
    destruct (mul_div_bounds _ _ _ _ _ Hmq Hwq Hhq Hr1 Hr2 Hy1 Hy2) as [Hlo Hhi].
    rewrite <- inject_Z_mult in Hlo, Hhi.
    change (2 ^ 11) with 2048 in Hm. change (2 ^ 32) with 4294967296 in Hw.
    apply floor_near_quotient; [lia | nia | | assumption | assumption].
    change (2 ^ 53) with 9007199254740992. nia.
Qed.
End Accurate.

(** With exact arithmetic the shorter side is the proportional size rounded
    down. *)
Lemma resized_exact m w h :
  0 < w → 0 < h →
  resized exact m w h =
    if (m <? w) || (m <? h)
    then if h <? w then (m, (m * h) `div` w) else ((m * w) `div` h, m)
    else (w, h).
Proof.
  intros Hw Hh. unfold resized. simpl.
  assert (¬ inject_Z w == 0)%Q by (unfold Qeq; simpl; lia).
  assert (¬ inject_Z h == 0)%Q by (unfold Qeq; simpl; lia).
  destruct ((m <? w) || (m <? h)); [destruct (h <? w) |].
  - rewrite Qfloor_Z, Zdiv_Qdiv. f_equal. apply Qfloor_comp.
    rewrite inject_Z_mult. field. split; assumption.
  - rewrite Qfloor_Z, Zdiv_Qdiv. f_equal. apply Qfloor_comp.
    rewrite inject_Z_mult. field. assumption.
  - rewrite !Qfloor_Z. reflexivity.
Qed.

(** In binary64 it can be one less: 1600 * (261 / 1800) is 232 exactly,
    the rounded quotient makes the product fall just below it. *)
Example resized_binary64_one_less :
  resized binary64 1600 261 1800 = (231, 1600)
  ∧ resized exact 1600 261 1800 = (232, 1600).
Proof. split; vm_compute; reflexivity. Qed.

(** *** C2 *)

(** C2, as stated, fails: under the medium policy a 4000 x 100 picture
    comes out 1024 x 25, in binary64 as in exact arithmetic: a ratio of
    40.96 against 40, which is 2.4% off. *)
Lemma thin_picture_loses_aspect_ratio :
  processImage binary64 describe true ∅
    (HTMLImageElement 4000 100 "data:image/png;base64,AAAA")
  = Normal "data:image/jpeg;1024x25"
  ∧ resized binary64 1024 4000 100 = (1024, 25)
  ∧ resized exact 1024 4000 100 = (1024, 25)
  ∧ ¬ resize_invariant 1024 4000 100 1024 25.
Proof.
  split; [vm_compute; reflexivity |].
  split; [vm_compute; reflexivity |].
  split; [vm_compute; reflexivity |].
  unfold resize_invariant, aspect_within_1pct. simpl. lia.
Qed.

(** C2, amended. For a source of [w] x [h] pixels, both positive (and
    below 2^32, as the DOM has them), under a policy [s] that
    [PHOTO_SETTINGS] has, and with arithmetic as accurate as binary64,
    [processImage] encodes a canvas of [ow] x [oh] pixels at the policy's
    quality, where: if the longer side exceeds the policy's [maxWidth], the
    longer side of the output is exactly [maxWidth], the shorter one is the
    proportional size rounded down to an integer (or, when that size is an
    integer and the rounding of the quotient falls below it, one less), and
    the aspect ratio is within 1% whenever that shorter side of the output
    is at least 100 pixels; otherwise the output has the size of the
    source.  The accuracy asked of the arithmetic is proved of the exact
    one ([exact_accurate]); of [binary64] it is what IEEE 754 gives in the
    range of pixel counts, and it is not proved here: what is shown of
    [binary64] itself are the evaluations [resized_binary64_one_less] and
    [processImage_binary64]. *)
Theorem processImage_resize (ar : Arith) (toDataURL : Canvas → string → Q → string)
    (localStorage : gmap string string) (s : PhotoSetting) (source : Source) :
  accurate ar →
  0 < source_width source < 2 ^ 32 → 0 < source_height source < 2 ^ 32 →
  PHOTO_SETTINGS (getPhotoQuality localStorage) = Some s →
  let w := source_width source in
  let h := source_height source in
  let proportional := (maxWidth s * Z.min w h) `div` Z.max w h in
  ∃ ow oh,
    processImage ar toDataURL true localStorage source
    = Normal (toDataURL (rendered source ow oh) "image/jpeg" (quality s))
    ∧ (maxWidth s < Z.max w h →
       Z.max ow oh = maxWidth s
       ∧ proportional - 1 ≤ Z.min ow oh ≤ proportional
       ∧ (100 ≤ Z.min ow oh → aspect_within_1pct w h ow oh))
    ∧ (Z.max w h ≤ maxWidth s → ow = w ∧ oh = h).
Proof.
  intros Har Hw Hh Hs w h proportional.
  assert (Hm : 0 < maxWidth s < 2 ^ 11).
  { destruct (PHOTO_SETTINGS_recognised _ _ Hs) as (_ & Hm & _).
    change (2 ^ 11) with 2048. lia. }
  exists (fst (resized ar (maxWidth s) w h)), (snd (resized ar (maxWidth s) w h)).
  split.
  - unfold processImage. rewrite Hs.
    replace (match source with
             | HTMLVideoElement w0 h0 _ | HTMLImageElement w0 h0 _ => (w0, h0)
             end) with (w, h) by (destruct source; reflexivity).
    replace ((w =? 0) || (h =? 0)) with false
      by (symmetry; apply orb_false_iff; split; apply Z.eqb_neq; lia).
    destruct (resized ar (maxWidth s) w h) as [ow oh]. reflexivity.
  - pose proof (resized_bounds ar Har (maxWidth s) w h Hm Hw Hh) as Hb.
    simpl in Hb. subst proportional. set (m := maxWidth s) in *.
    set (ow := fst (resized ar m w h)) in *.
    set (oh := snd (resized ar m w h)) in *.
    split.
    + intros Hbig.
      replace ((m <? w) || (m <? h)) with true in Hb
        by (symmetry; apply orb_true_iff; rewrite !Z.ltb_lt; lia).
      destruct (h <? w) eqn:Hland.
      * apply Z.ltb_lt in Hland. destruct Hb as (Hw' & Hh' & Hless).
        assert (Hq : 0 ≤ (m * h) `div` w ≤ m).
        { split; [apply Z.div_pos; nia |]. apply Z.div_le_upper_bound; nia. }
        rewrite (Z.max_l w h), (Z.min_r w h) by lia.
        rewrite Z.max_l, Z.min_r by lia.
        split; [exact Hw' | split; [exact Hh' |]].
        intros Hbig'. unfold aspect_within_1pct. rewrite Hw'.
        pose proof (Z.mod_pos_bound (m * h) w ltac:(lia)) as Hmod.
        pose proof (Z.div_mod (m * h) w ltac:(lia)) as Hdm.
        destruct (decide (oh = (m * h) `div` w - 1)) as [Hone | Hsame].
        -- specialize (Hless Hone). rewrite Z.abs_eq by nia. nia.
        -- assert (oh = (m * h) `div` w) by lia. rewrite Z.abs_eq by nia. nia.
      * apply Z.ltb_ge in Hland. destruct Hb as (Hh' & Hw' & Hless).
        assert (Hq : 0 ≤ (m * w) `div` h ≤ m).
        { split; [apply Z.div_pos; nia |]. apply Z.div_le_upper_bound; nia. }
        rewrite (Z.max_r w h), (Z.min_l w h) by lia.
        rewrite Z.max_r, Z.min_l by lia.
        split; [exact Hh' | split; [exact Hw' |]].
        intros Hbig'. unfold aspect_within_1pct. rewrite Hh'.
        pose proof (Z.mod_pos_bound (m * w) h ltac:(lia)) as Hmod.
        pose proof (Z.div_mod (m * w) h ltac:(lia)) as Hdm.
        destruct (decide (ow = (m * w) `div` h - 1)) as [Hone | Hsame].
        -- specialize (Hless Hone). rewrite Z.abs_neq by nia. nia.
        -- assert (ow = (m * w) `div` h) by lia. rewrite Z.abs_neq by nia. nia.
    + intros Hsmall.
      replace ((m <? w) || (m <? h)) with false in Hb
        by (symmetry; apply orb_false_iff; rewrite !Z.ltb_ge; lia).
      exact Hb.
Qed.

(** The amended C2 on a 4000 x 3000 picture under the default policy, in
    exact arithmetic. *)
Lemma processImage_resize_witness :
  ∃ ow oh,
    processImage exact describe true ∅
      (HTMLImageElement 4000 3000 "data:image/png;base64,AAAA")
    = Normal (describe
                (rendered (HTMLImageElement 4000 3000 "data:image/png;base64,AAAA") ow oh)
                "image/jpeg" (7 # 10))
    ∧ (1024 < Z.max 4000 3000 →
       Z.max ow oh = 1024
       ∧ (1024 * Z.min 4000 3000) `div` Z.max 4000 3000 - 1 ≤ Z.min ow oh
         ≤ (1024 * Z.min 4000 3000) `div` Z.max 4000 3000
       ∧ (100 ≤ Z.min ow oh → aspect_within_1pct 4000 3000 ow oh))
    ∧ (Z.max 4000 3000 ≤ 1024 → ow = 4000 ∧ oh = 3000).
Proof.
  apply (processImage_resize exact describe ∅
           (mkPhotoSetting 1024 (7 # 10) "Média (Recomendado)" "Rápido e leve.")
           (HTMLImageElement 4000 3000 "data:image/png;base64,AAAA")
           exact_accurate);
    [simpl; lia | simpl; lia | reflexivity].
Defined.

(** The same picture in binary64: 1024 x 768. *)
Example processImage_binary64 :
  processImage binary64 describe true ∅
    (HTMLImageElement 4000 3000 "data:image/png;base64,AAAA")
  = Normal "data:image/jpeg;1024x768".
Proof. vm_compute. reflexivity. Qed.

End PipelineFacts.

(** ** The photo editor *)

Module EditorFacts.
Import IDB App Props Samples.

Section Editor.
Variable toDataURL : Canvas → string → Q → string.
Variable context2d : bool.
Variable decode : string → option (Z * Z).

(** What editing keeps: the form's photos, the photo being edited, a
    mounted canvas. *)
Lemma editor_step_keeps st a :
  photos (editor_step context2d st a) = photos st
  ∧ currentPhoto (editor (editor_step context2d st a)) = currentPhoto (editor st)
  ∧ (is_Some (canvas (editor st)) →
     is_Some (canvas (editor (editor_step context2d st a))))
  ∧ editCaption (editor (editor_step context2d st a))
    = caption_after (editCaption (editor st)) [a].
Proof.
  destruct st as [tm ld lo ph ed cam vid stg u].
  destruct ed as [eo cp ec cv dm dc dr lp].
  destruct a; simpl; try (repeat split; auto; fail).
  - destruct cv as [c|]; [destruct dm |]; simpl; repeat split; auto.
  - destruct cv as [c|]; [destruct lp as [last|] |]; simpl;
      [destruct (dr && dm); simpl | |]; repeat split; eauto.
Qed.

Lemma editing_keeps actions : ∀ st,
  photos (foldl (editor_step context2d) st actions) = photos st
  ∧ currentPhoto (editor (foldl (editor_step context2d) st actions))
    = currentPhoto (editor st)
  ∧ (is_Some (canvas (editor st)) →
     is_Some (canvas (editor (foldl (editor_step context2d) st actions))))
  ∧ editCaption (editor (foldl (editor_step context2d) st actions))
    = caption_after (editCaption (editor st)) actions.
Proof.
  induction actions as [|a actions IH]; intros st; [simpl; auto |].
  simpl. destruct (IH (editor_step context2d st a)) as (Hp & Hc & Hv & He).
  destruct (editor_step_keeps st a) as (Hp1 & Hc1 & Hv1 & He1).
  rewrite Hp, Hc, He, Hp1, Hc1, He1.
  split; [reflexivity | split; [reflexivity | split; [| reflexivity]]].
  intros Hsome. apply Hv, Hv1, Hsome.
Qed.

(** *** C3 *)

(** C3. A photo of the form is opened in the editor and edited by any
    sequence of actions.  Saving then replaces, in the form's photos, the
    photo at its position by one with the same id whose [base64] is the
    canvas encoded as ["image/jpeg"] at quality 0.9 (a constant: no
    setting is read), whose [caption] is the text of the caption field
    (the text typed last, or the photo's caption if none was typed) and
    whose [edited] is [true]; the editor closes.  Closing instead leaves
    the form's photos exactly as they were. *)
Theorem saveEditorChanges_commits_closeEditor_discards
    (st : ReportScreen) (ps : list ReportPhoto.t) (i : nat)
    (photo : ReportPhoto.t) (actions : list EditorAction) :
  photos st = Some ps →
  ps !! i = Some photo →
  let edited :=
    foldl (editor_step context2d) (openEditor context2d decode photo st) actions in
  let text := caption_after (or_else (ReportPhoto.caption photo) "") actions in
  ∃ c,
    canvas (editor edited) = Some c
    ∧ photos (saveEditorChanges toDataURL edited)
      = Some (map (fun p =>
                     if bool_decide (ReportPhoto.id p = ReportPhoto.id photo)
                     then committed (toDataURL c "image/jpeg" (9 # 10)) text p
                     else p) ps)
    ∧ photos (saveEditorChanges toDataURL edited) ≫= (.!! i)
      = Some (ReportPhoto.mk (ReportPhoto.id photo)
                (toDataURL c "image/jpeg" (9 # 10)) (Some text) (Some true))
    ∧ editorOpen (editor (saveEditorChanges toDataURL edited)) = false
    ∧ photos (closeEditor edited) = Some ps
    ∧ photos (closeEditor edited) ≫= (.!! i) = Some photo
    ∧ editorOpen (editor (closeEditor edited)) = false.
Proof.
  intros Hps Hi edited text.
  destruct (editing_keeps actions (openEditor context2d decode photo st))
    as (Hp & Hc & Hv & He).
  fold edited in Hp, Hc, Hv, He.
  destruct Hv as [c Hcanvas]; [simpl; eauto |].
  simpl in Hp, Hc, He. fold text in He.
  exists c. split; [exact Hcanvas |].
  assert (Hsaved : photos (saveEditorChanges toDataURL edited)
            = Some (map (fun p =>
                     if bool_decide (ReportPhoto.id p = ReportPhoto.id photo)
                     then committed (toDataURL c "image/jpeg" (9 # 10)) text p
                     else p) ps)).
  { unfold saveEditorChanges. rewrite Hc, Hcanvas. simpl.
    rewrite Hp, Hps, He. reflexivity. }
  split; [exact Hsaved |]. split; [| split; [| split; [| split]]].
  - rewrite Hsaved. simpl. rewrite list_lookup_fmap, Hi. simpl.
    rewrite bool_decide_eq_true_2 by reflexivity. reflexivity.
  - unfold saveEditorChanges. rewrite Hc, Hcanvas. reflexivity.
  - simpl. rewrite Hp. exact Hps.
  - simpl. rewrite Hp, Hps. exact Hi.
  - reflexivity.
Qed.
End Editor.

Lemma saveEditorChanges_commits_closeEditor_discards_witness :
  let edited :=
    foldl (editor_step true)
      (openEditor true (fun _ => Some (640, 480)) photo_b two_photos)
      one_stroke in
  ∃ c,
    canvas (editor edited) = Some c
    ∧ photos (saveEditorChanges describe edited)
      = Some (map (fun p =>
                     if bool_decide (ReportPhoto.id p = ReportPhoto.id photo_b)
                     then committed (describe c "image/jpeg" (9 # 10))
                            (caption_after (or_else (ReportPhoto.caption photo_b) "")
                               one_stroke) p
                     else p) [photo_a; photo_b])
    ∧ photos (saveEditorChanges describe edited) ≫= (.!! 1%nat)
      = Some (ReportPhoto.mk (ReportPhoto.id photo_b)
                (describe c "image/jpeg" (9 # 10))
                (Some (caption_after (or_else (ReportPhoto.caption photo_b) "")
                         one_stroke))
                (Some true))
    ∧ editorOpen (editor (saveEditorChanges describe edited)) = false
    ∧ photos (closeEditor edited) = Some [photo_a; photo_b]
    ∧ photos (closeEditor edited) ≫= (.!! 1%nat) = Some photo_b
    ∧ editorOpen (editor (closeEditor edited)) = false.
Proof.
  apply (saveEditorChanges_commits_closeEditor_discards describe true
           (fun _ => Some (640, 480)) two_photos [photo_a; photo_b] 1 photo_b one_stroke);
    reflexivity.
Defined.

(** The same session, evaluated: the saved photo and the stroke on the
    canvas, from (20, 20) to (40, 60) in canvas pixels (the fractions are
    not reduced): the canvas is shown at half its size. *)
Example one_stroke_saved :
  let edited :=
    foldl (editor_step true)
      (openEditor true (fun _ => Some (640, 480)) photo_b two_photos)
      one_stroke in
  photos (saveEditorChanges describe edited)
  = Some [photo_a;
          ReportPhoto.mk "17000000050000.25" "data:image/jpeg;640x480"
            (Some "vazamento") (Some true)]
  ∧ (drawn <$> canvas (editor edited))
    = Some [DrawImage (HTMLImageElement 640 480 "data:image/jpeg;base64,BBBB") 0 0 None;
            StrokeLine "#ef4444" 5 "round" (6400 # 320, 4800 # 240)
              (12800 # 320, 14400 # 240)].
Proof. split; vm_compute; reflexivity. Qed.

End EditorFacts.

(** ** Photos entering the report *)

Module PhotoFacts.
Import IDB App Props Samples.

Section Upload.
Variable ar : Arith.
Variable toDataURL : Canvas → string → Q → string.
Variable context2d : bool.
Variable localStorage : gmap string string.
Variable ent : Entropy.

Lemma deliver_lt k u u' :
  deliver ar toDataURL context2d localStorage ent k u = Some u' →
  (k < length (in_flight u))%nat.
Proof.
  unfold deliver. destruct (in_flight u !! k) as [op|] eqn:Hop; [| discriminate].
  intros _. exact (lookup_lt_Some _ _ _ Hop).
Qed.

Lemma run_returned fuel u :
  returned u = true → run ar toDataURL context2d localStorage ent fuel u = u.
Proof. intros Hu. destruct fuel; simpl; [| rewrite Hu]; reflexivity. Qed.

(** Once the function has returned, more fuel changes nothing. *)
Lemma run_more n m : ∀ u,
  returned (run ar toDataURL context2d localStorage ent n u) = true →
  run ar toDataURL context2d localStorage ent (n + m) u
  = run ar toDataURL context2d localStorage ent n u.
Proof.
  induction n as [|n IH]; intros u Hret.
  - simpl in Hret |- *. apply run_returned, Hret.
  - simpl in Hret |- *. destruct (returned u) eqn:Hu; [reflexivity |].
    destruct (deliver ar toDataURL context2d localStorage ent 0 u) as [u'|];
      [apply IH, Hret | congruence].
Qed.

(** Where the run ends is a moment the browser brings about. *)
Lemma run_reachable fuel : ∀ u,
  ∃ ks, deliveries ar toDataURL context2d localStorage ent ks u
        = Some (run ar toDataURL context2d localStorage ent fuel u).
Proof.
  induction fuel as [|fuel IH]; intros u; [exists []; reflexivity |].
  simpl. destruct (returned u); [exists []; reflexivity |].
  destruct (deliver ar toDataURL context2d localStorage ent 0 u) as [u'|] eqn:Hd;
    [| exists []; reflexivity].
  destruct (IH u') as [ks Hks]. exists (0%nat :: ks). simpl. rewrite Hd. exact Hks.
Qed.

Lemma staged_from_cons i file files :
  staged_from ar toDataURL context2d localStorage ent i (file :: files)
  = option_list (staged_photo ar toDataURL context2d localStorage ent i file)
    ++ staged_from ar toDataURL context2d localStorage ent (S i) files.
Proof.
  simpl. destruct (staged_photo ar toDataURL context2d localStorage ent i file);
    reflexivity.
Qed.

Lemma warnings_cons file files :
  omap (warning ar toDataURL context2d localStorage) (file :: files)
  = option_list (warning ar toDataURL context2d localStorage file)
    ++ omap (warning ar toDataURL context2d localStorage) files.
Proof.
  simpl. destruct (warning ar toDataURL context2d localStorage file); reflexivity.
Qed.

(** One file, from the head of the loop to the head of the loop: one
    event when the file cannot be read, two otherwise, and what the
    function then has in hand. *)
Lemma file_handled file rest acc :
  in_flight acc = [] →
  let u0 := loop_head (file :: rest) acc in
  ∃ acc1,
    in_flight acc1 = []
    ∧ iteration acc1 = S (iteration acc)
    ∧ trace acc1 = trace acc ++ operations ar toDataURL context2d localStorage file
    ∧ processedPhotos acc1
      = processedPhotos acc
        ++ option_list (staged_photo ar toDataURL context2d localStorage ent
                          (iteration acc) file)
    ∧ screen acc1
      = foldl (fun st w => console_log w st) (screen acc)
          (option_list (warning ar toDataURL context2d localStorage file))
    ∧ (deliver ar toDataURL context2d localStorage ent 0 u0
       = Some (loop_head rest acc1)
       ∨ ∃ mid dataUrl,
           deliver ar toDataURL context2d localStorage ent 0 u0 = Some mid
           ∧ in_flight mid = [Decoding file dataUrl]
           ∧ returned mid = false
           ∧ iteration mid = iteration acc
           ∧ trace mid = trace acc ++ [ReadAsDataURL (name file); LoadImage (name file)]
           ∧ [ReadAsDataURL (name file); LoadImage (name file)]
             `prefix_of` operations ar toDataURL context2d localStorage file
           ∧ deliver ar toDataURL context2d localStorage ent 0 mid
             = Some (loop_head rest acc1)).
Proof.
  destruct acc as [st rem i fl ps tr ret]. simpl. intros ->.
  unfold deliver, operations, staged_photo, warning, outcome. simpl.
  destruct (content file) as [| dataUrl | dataUrl w h] eqn:Hc; simpl.
  - eexists (mkUpload _ rest (S i) [] ps _ false).
    split_and!; try reflexivity; simpl;
      rewrite <- ?app_assoc, ?app_nil_r; try reflexivity.
    left. reflexivity.
  - eexists (mkUpload _ rest (S i) [] ps _ false).
    split_and!; try reflexivity; simpl;
      rewrite <- ?app_assoc, ?app_nil_r; try reflexivity.
    right. eexists _, dataUrl.
    split_and!; try reflexivity; simpl;
      rewrite <- ?app_assoc, ?app_nil_r; try reflexivity.
    + exists [Warn (name file)]. reflexivity.
    + rewrite Hc. simpl. rewrite <- ?app_assoc. reflexivity.
  - destruct (processImage ar toDataURL context2d localStorage
                (HTMLImageElement w h dataUrl)) as [base64 | err] eqn:Hp;
      [destruct (bool_decide (base64 = "")) eqn:Hb |]; simpl.
    + eexists (mkUpload _ rest (S i) [] ps _ false).
      split_and!; try reflexivity; simpl;
        rewrite <- ?app_assoc, ?app_nil_r; try reflexivity.
      right. eexists _, dataUrl.
      split_and!; try reflexivity; simpl;
        rewrite <- ?app_assoc, ?app_nil_r; try reflexivity.
      * exists [ProcessImage (name file)]. reflexivity.
      * rewrite Hc, Hp. simpl. rewrite Hb. rewrite <- ?app_assoc. reflexivity.
    + eexists (mkUpload _ rest (S i) [] _ _ false).
      split_and!; try reflexivity; simpl;
        rewrite <- ?app_assoc, ?app_nil_r; try reflexivity.
      right. eexists _, dataUrl.
      split_and!; try reflexivity; simpl;
        rewrite <- ?app_assoc, ?app_nil_r; try reflexivity.
      * exists [ProcessImage (name file); Push (name file)]. reflexivity.
      * rewrite Hc, Hp. simpl. rewrite Hb. rewrite <- ?app_assoc. reflexivity.
    + eexists (mkUpload _ rest (S i) [] ps _ false).
      split_and!; try reflexivity; simpl;
        rewrite <- ?app_assoc, ?app_nil_r; try reflexivity.
      right. eexists _, dataUrl.
      split_and!; try reflexivity; simpl;
        rewrite <- ?app_assoc, ?app_nil_r; try reflexivity.
      * exists [ProcessImage (name file); Warn (name file)]. reflexivity.
      * rewrite Hc, Hp. simpl. rewrite <- ?app_assoc. reflexivity.
Qed.

Lemma run_step n u u' :
  returned u = false →
  deliver ar toDataURL context2d localStorage ent 0 u = Some u' →
  run ar toDataURL context2d localStorage ent (S n) u
  = run ar toDataURL context2d localStorage ent n u'.
Proof. intros Hu Hd. simpl. rewrite Hu, Hd. reflexivity. Qed.

Lemma operations_start file :
  [ReadAsDataURL (name file)]
  `prefix_of` operations ar toDataURL context2d localStorage file.
Proof.
  unfold operations. destruct (content file); eexists; reflexivity.
Qed.

(** A moment of the rest of the upload is a moment of the upload. *)
Lemma one_at_a_time_later file rest acc acc1 u :
  iteration acc1 = S (iteration acc) →
  trace acc1 = trace acc ++ operations ar toDataURL context2d localStorage file →
  one_at_a_time ar toDataURL context2d localStorage rest acc1 u →
  one_at_a_time ar toDataURL context2d localStorage (file :: rest) acc u.
Proof.
  intros Hi Ht (Hle & Hone & (t & Htr & Hpre) & Hop).
  split; [exact Hle |]. split; [exact Hone |]. split.
  - exists (operations ar toDataURL context2d localStorage file ++ t).
    split; [rewrite Htr, Ht, <- app_assoc; reflexivity |].
    simpl. apply prefix_app, Hpre.
  - intros op Hin. destruct (Hop op Hin) as [Hge Hlook]. rewrite Hi in Hge, Hlook.
    split; [lia |].
    replace (iteration u - iteration acc)%nat
      with (S (iteration u - S (iteration acc))) by lia.
    exact Hlook.
Qed.

(** The loop from its head, with [rest] to go: every moment the browser
    can bring about, and the end. *)
Lemma loop_runs rest : ∀ acc,
  in_flight acc = [] →
  let u0 := loop_head rest acc in
  let fin := run ar toDataURL context2d localStorage ent (2 * length rest) u0 in
  (∀ ks u,
     deliveries ar toDataURL context2d localStorage ent ks u0 = Some u →
     one_at_a_time ar toDataURL context2d localStorage rest acc u
     ∧ (returned u = true → u = fin))
  ∧ returned fin = true
  ∧ in_flight fin = []
  ∧ trace fin
    = trace acc ++ concat (map (operations ar toDataURL context2d localStorage) rest)
  ∧ screen fin
    = show_staged
        (processedPhotos acc
         ++ staged_from ar toDataURL context2d localStorage ent (iteration acc) rest)
        (foldl (fun st w => console_log w st) (screen acc)
           (omap (warning ar toDataURL context2d localStorage) rest)).
Proof.
  induction rest as [|file rest IH]; intros acc Hfl u0 fin.
  - subst u0 fin. simpl. rewrite Hfl. split; [| rewrite !app_nil_r; auto].
    intros [|k ks] u Hks; simpl in Hks.
    + injection Hks as <-. split; [| reflexivity].
      split; [simpl; lia |]. split; [discriminate |].
      split; [exists []; rewrite app_nil_r; split; [reflexivity | exists []; reflexivity] |].
      intros op Hop. simpl in Hop. apply elem_of_nil in Hop. destruct Hop.
    + unfold deliver in Hks. simpl in Hks. discriminate.
  - destruct (file_handled file rest acc Hfl)
      as (acc1 & Hfl1 & Hi1 & Ht1 & Hp1 & Hs1 & Hpath).
    destruct (IH acc1 Hfl1) as (IHA & IHret & IHfl & IHtr & IHscr).
    cbv zeta in Hpath. fold u0 in Hpath.
    assert (Hu0 : in_flight u0 = [Reading file] ∧ returned u0 = false
                  ∧ iteration u0 = iteration acc
                  ∧ trace u0 = trace acc ++ [ReadAsDataURL (name file)]).
    { subst u0. simpl. rewrite Hfl. auto. }
    destruct Hu0 as (Hu0fl & Hu0ret & Hu0i & Hu0t).
    assert (Hfin : fin = run ar toDataURL context2d localStorage ent (2 * length rest)
                           (loop_head rest acc1)).
    { subst fin. replace (2 * length (file :: rest))%nat
        with (S (S (2 * length rest))) by (simpl; lia).
      destruct Hpath as [Hdir | (mid & d & Hmid & _ & Hmret & _ & _ & _ & Hnext)].
      - rewrite (run_step _ _ _ Hu0ret Hdir).
        replace (S (2 * length rest)) with (2 * length rest + 1)%nat by lia.
        apply run_more, IHret.
      - rewrite (run_step _ _ _ Hu0ret Hmid), (run_step _ _ _ Hmret Hnext).
        reflexivity. }
    assert (Hlater : ∀ ks u,
              deliveries ar toDataURL context2d localStorage ent ks
                (loop_head rest acc1) = Some u →
              one_at_a_time ar toDataURL context2d localStorage (file :: rest) acc u
              ∧ (returned u = true → u = fin)).
    { intros ks u Hks. destruct (IHA ks u Hks) as [Hone Hend].
      split; [exact (one_at_a_time_later file rest acc acc1 u Hi1 Ht1 Hone) |].
      rewrite Hfin. exact Hend. }
    assert (Hfirst : one_at_a_time ar toDataURL context2d localStorage
                       (file :: rest) acc u0).
    { split; [rewrite Hu0fl; simpl; lia |].
      split; [intros _; rewrite Hu0fl; reflexivity |]. split.
      - exists [ReadAsDataURL (name file)]. split; [exact Hu0t |].
        simpl. apply prefix_app_r, operations_start.
      - intros op Hop. rewrite Hu0fl in Hop. apply list_elem_of_singleton in Hop as ->.
        rewrite Hu0i, Nat.sub_diag. split; [lia | reflexivity]. }
    split.
    + intros [|k ks] u Hks; simpl in Hks.
      { injection Hks as <-. split; [exact Hfirst | congruence]. }
      destruct (deliver ar toDataURL context2d localStorage ent k u0) as [u1|] eqn:Hd;
        [| discriminate].
      pose proof (deliver_lt _ _ _ Hd) as Hk. rewrite Hu0fl in Hk. simpl in Hk.
      assert (k = 0%nat) by lia. subst k.
      destruct Hpath as [Hdir | (mid & d & Hmid & Hmfl & Hmret & Hmi & Hmt & Hmpre & Hnext)].
      * rewrite Hdir in Hd. injection Hd as <-. exact (Hlater ks u Hks).
      * rewrite Hmid in Hd. injection Hd as <-.
        destruct ks as [|k ks]; simpl in Hks.
        { injection Hks as <-. split; [| congruence].
          split; [rewrite Hmfl; simpl; lia |].
          split; [intros _; rewrite Hmfl; reflexivity |]. split.
          - eexists. split; [exact Hmt |]. simpl. apply prefix_app_r, Hmpre.
          - intros op Hop. rewrite Hmfl in Hop.
            apply list_elem_of_singleton in Hop as ->.
            rewrite Hmi, Nat.sub_diag. split; [lia | reflexivity]. }
        destruct (deliver ar toDataURL context2d localStorage ent k mid) as [u2|] eqn:Hd2;
          [| discriminate].
        pose proof (deliver_lt _ _ _ Hd2) as Hk2. rewrite Hmfl in Hk2. simpl in Hk2.
        assert (k = 0%nat) by lia. subst k.
        rewrite Hnext in Hd2. injection Hd2 as <-. exact (Hlater ks u Hks).
    + rewrite Hfin. split; [exact IHret |]. split; [exact IHfl |].
      split.
      * rewrite IHtr, Ht1. simpl. rewrite <- app_assoc. reflexivity.
      * rewrite IHscr, Hp1, Hs1, Hi1, staged_from_cons, warnings_cons.
        rewrite foldl_app, <- app_assoc. reflexivity.
Qed.

(** *** C5 *)

(** C5. An upload of at least one file handles the files one after the
    other.  At every moment the browser can bring about, in whatever order
    it delivers its events, one file at most is with it (being read or
    decoded), exactly one until the handler returns, and it is the file
    the loop is at; the operations so far are those of the files before
    it, complete and in the order of the files, followed by the first ones
    of that file.  The handler returns, with nothing left in flight,
    whichever the files: a file that cannot be read, does not decode or
    makes [processImage] throw is skipped with a warning, and the files
    after it are handled all the same; where it ends is one of those
    moments, the only one at which the handler has returned.  The photos then staged are the
    ones staged before followed by one photo per file processed, in the
    order of the files, each with the picture [processImage] made of its
    file; the warnings are those of the failed files, in order; the alert
    is shown only when no file was processed; the form's photos are
    untouched. *)
Theorem handlePhotoUpload_sequential_skips_failures
    (files : list File) (st : ReportScreen) :
  files ≠ [] →
  let start := upload_start (Some files) st in
  let final :=
    handlePhotoUpload ar toDataURL context2d localStorage ent (Some files) st in
  let new := staged_from ar toDataURL context2d localStorage ent 0 files in
  (∀ ks u,
     deliveries ar toDataURL context2d localStorage ent ks start = Some u →
     (length (in_flight u) ≤ 1)%nat
     ∧ (returned u = false → length (in_flight u) = 1%nat)
     ∧ (∀ op, op ∈ in_flight u → files !! iteration u = Some (file_of op))
     ∧ trace u
       `prefix_of` concat (map (operations ar toDataURL context2d localStorage) files)
     ∧ (returned u = true → u = final))
  ∧ (∃ ks, deliveries ar toDataURL context2d localStorage ent ks start = Some final)
  ∧ returned final = true
  ∧ in_flight final = []
  ∧ trace final = concat (map (operations ar toDataURL context2d localStorage) files)
  ∧ stagedPhotos (staging (screen final)) = stagedPhotos (staging st) ++ new
  ∧ ReportPhoto.base64 <$> new
    = omap (staged_base64 ar toDataURL context2d localStorage) files
  ∧ console (ui (screen final))
    = console (ui st) ++ omap (warning ar toDataURL context2d localStorage) files
  ∧ alerts (ui (screen final))
    = alerts (ui st)
      ++ match new with
         | [] => ["Nenhuma imagem pôde ser processada. "
                  +:+ "Tente arquivos menores ou outro formato."]
         | _ => []
         end
  ∧ photos (screen final) = photos st
  ∧ isProcessingPhotos (staging (screen final)) = false.
Proof.
  intros Hfiles start final new.
  destruct files as [|file files]; [congruence |]. clear Hfiles.
  set (acc := mkUpload
                (with_staging (fun s =>
                   mkStaging (stagedPhotos s) (isPhotoPreviewOpen s) true) st)
                (file :: files) 0 [] [] [] false).
  destruct (loop_runs (file :: files) acc eq_refl)
    as (Hall & Hret & Hfl & Htr & Hscr).
  change (loop_head (file :: files) acc) with start in Hall, Hret, Hfl, Htr, Hscr.
  change (run ar toDataURL context2d localStorage ent (2 * length (file :: files)) start)
    with final in Hall, Hret, Hfl, Htr, Hscr.
  change (staged_from ar toDataURL context2d localStorage ent (iteration acc)
            (file :: files)) with new in Hscr.
  simpl processedPhotos in Hscr. simpl trace in Htr. rewrite app_nil_l in Hscr.
  split; [| split; [apply run_reachable |
              split; [exact Hret | split; [exact Hfl | split; [exact Htr |]]]]].
  - intros ks u Hks.
    destruct (Hall ks u Hks) as [(Hle & Hone & (t & Ht & Hpre) & Hop) Hend].
    split; [exact Hle |]. split; [exact Hone |]. split; [| split; [| exact Hend]].
    + intros op Hin. destruct (Hop op Hin) as [_ Hlook].
      simpl iteration in Hlook. rewrite Nat.sub_0_r in Hlook. exact Hlook.
    + simpl trace in Ht. rewrite app_nil_l in Ht. rewrite Ht. exact Hpre.
  - rewrite Hscr. clear.
    assert (Hlogs : ∀ ws st',
              photos (foldl (fun st w => console_log w st) st' ws) = photos st'
              ∧ staging (foldl (fun st w => console_log w st) st' ws) = staging st'
              ∧ alerts (ui (foldl (fun st w => console_log w st) st' ws))
                = alerts (ui st')
              ∧ console (ui (foldl (fun st w => console_log w st) st' ws))
                = console (ui st') ++ ws).
    { induction ws as [|w ws IH]; intros st'; simpl.
      - rewrite app_nil_r. auto.
      - destruct (IH (console_log w st')) as (-> & -> & -> & ->). simpl.
        rewrite <- app_assoc. auto. }
    destruct (Hlogs (omap (warning ar toDataURL context2d localStorage) (file :: files))
                (screen acc)) as (Hp & Hs & Ha & Hc).
    revert Hp Hs Ha Hc.
    generalize (foldl (fun st w => console_log w st) (screen acc)
                  (omap (warning ar toDataURL context2d localStorage) (file :: files))).
    intros logged Hp Hs Ha Hc.
    split; [| split; [| split; [| split; [| split]]]].
    + unfold show_staged. destruct new; simpl; rewrite Hs; simpl;
        [rewrite app_nil_r |]; reflexivity.
    + subst new. generalize 0%nat. generalize (file :: files). clear.
      induction l as [|f l IH]; intros i; [reflexivity |].
      simpl. unfold staged_photo, staged_base64.
      destruct (outcome ar toDataURL context2d localStorage f); simpl;
        rewrite ?IH; reflexivity.
    + unfold show_staged. destruct new; simpl; rewrite Hc; reflexivity.
    + unfold show_staged. destruct new; simpl; rewrite Ha; simpl;
        [| rewrite app_nil_r]; reflexivity.
    + unfold show_staged. destruct new; simpl; rewrite Hp; reflexivity.
    + unfold show_staged. destruct new; reflexivity.
Qed.
End Upload.

(** Five files, the third of which is not an image: four photos staged, in
    the order of the files without the third, and the operations file by
    file. *)
Lemma handlePhotoUpload_sequential_skips_failures_witness :
  let start := upload_start (Some five_files) initial_screen in
  let final :=
    handlePhotoUpload binary64 describe true ∅ one_millisecond (Some five_files)
      initial_screen in
  let operations :=
    [ReadAsDataURL "a.jpg"; LoadImage "a.jpg"; ProcessImage "a.jpg"; Push "a.jpg";
     ReadAsDataURL "b.jpg"; LoadImage "b.jpg"; ProcessImage "b.jpg"; Push "b.jpg";
     ReadAsDataURL "c.jpg"; LoadImage "c.jpg"; Warn "c.jpg";
     ReadAsDataURL "d.png"; LoadImage "d.png"; ProcessImage "d.png"; Push "d.png";
     ReadAsDataURL "e.jpg"; LoadImage "e.jpg"; ProcessImage "e.jpg"; Push "e.jpg"] in
  (∀ ks u,
     deliveries binary64 describe true ∅ one_millisecond ks start = Some u →
     (length (in_flight u) ≤ 1)%nat
     ∧ (returned u = false → length (in_flight u) = 1%nat)
     ∧ (∀ op, op ∈ in_flight u → five_files !! iteration u = Some (file_of op))
     ∧ trace u `prefix_of` operations
     ∧ (returned u = true → u = final))
  ∧ (∃ ks, deliveries binary64 describe true ∅ one_millisecond ks start = Some final)
  ∧ returned final = true
  ∧ in_flight final = []
  ∧ trace final = operations
  ∧ ReportPhoto.base64 <$> stagedPhotos (staging (screen final))
    = ["data:image/jpeg;1024x768"; "data:image/jpeg;800x600";
       "data:image/jpeg;768x1024"; "data:image/jpeg;1024x768"]
  ∧ ReportPhoto.id <$> stagedPhotos (staging (screen final))
    = ["17000000000000.1"; "17000000000000.2";
       "17000000000000.4"; "17000000000000.5"]
  ∧ console (ui (screen final)) = ["Erro ao processar imagem c.jpg:"]
  ∧ alerts (ui (screen final)) = []
  ∧ photos (screen final) = photos initial_screen
  ∧ isProcessingPhotos (staging (screen final)) = false.
Proof.
  intros start final operations.
  destruct (handlePhotoUpload_sequential_skips_failures binary64 describe true ∅
              one_millisecond five_files initial_screen ltac:(discriminate))
    as (Hall & Hreach & Hret & Hfl & Htr & Hst & Hb & Hc & Ha & Hp & Hpr).
  fold start final in Hall, Hreach, Hret, Hfl, Htr, Hst, Hc, Ha, Hp, Hpr.
  assert (Hops : concat (map (Props.operations binary64 describe true ∅) five_files)
                 = operations) by (vm_compute; reflexivity).
  rewrite Hops in Hall, Htr.
  split; [exact Hall |]. split; [exact Hreach |].
  split; [exact Hret |]. split; [exact Hfl |].
  split; [exact Htr |].
  split; [rewrite Hst; vm_compute; reflexivity |].
  split; [rewrite Hst; vm_compute; reflexivity |].
  split; [rewrite Hc; vm_compute; reflexivity |].
  split; [rewrite Ha; vm_compute; reflexivity |].
  split; [exact Hp | exact Hpr].
Defined.

(** *** C9 *)

(** The id an upload gives a photo has a random part: within one
    millisecond, two different draws give two different ids. *)
Lemma upload_ids_differ (now : Z) (r1 r2 : string) :
  r1 ≠ r2 → pretty now +:+ r1 ≠ pretty now +:+ r2.
Proof. intros Hne Heq. apply Hne. exact (String.app_inj _ _ _ Heq). Qed.

(** The id [capturePhoto] gives a photo is the clock reading alone. *)
Lemma capturePhoto_id ar toDataURL context2d localStorage now st st' :
  capturePhoto ar toDataURL context2d localStorage now st = Normal st' →
  st' = st
  ∨ ∃ base64,
      photos st' = Some (default [] (photos st)
                         ++ [ReportPhoto.mk (pretty now) base64 (Some "") None]).
Proof.
  unfold capturePhoto. destruct (video st) as [v|]; [| intros [= <-]; auto].
  destruct (processImage ar toDataURL context2d localStorage v) as [b|]; [| discriminate].
  destruct (bool_decide (b = "")); intros [= <-]; [auto |].
  right. exists b. reflexivity.
Qed.

(** C9. Two photos taken with the camera while the clock reads the same
    millisecond (the camera is opened again in between) both get that
    reading as their id, so the report holds two photos with one id: the
    capture path puts no random part in the id, unlike the upload path. *)
Theorem capturePhoto_same_millisecond_same_id :
  ∃ st1 st2,
    capturePhoto binary64 describe true ∅ 1700000000000
      (openCamera camera_frame initial_screen) = Normal st1
    ∧ capturePhoto binary64 describe true ∅ 1700000000000
        (openCamera camera_frame st1) = Normal st2
    ∧ ReportPhoto.id <$> default [] (photos st2) = ["1700000000000"; "1700000000000"]
    ∧ ¬ NoDup (ReportPhoto.id <$> default [] (photos st2)).
Proof.
  eexists. eexists.
  split; [vm_compute; reflexivity |].
  split; [vm_compute; reflexivity |].
  split; [vm_compute; reflexivity |].
  intros Hnodup. vm_compute in Hnodup.
  apply NoDup_cons_1_1 in Hnodup. apply Hnodup, list_elem_of_here.
Qed.

End PhotoFacts.

(** ** Reports whose template is gone *)

Module TemplateFacts.
Import IDB Db App Props Samples DbFacts.

Lemma fresh_consistent : consistent fresh.
Proof. intros s k v. destruct s; simpl; rewrite lookup_empty; discriminate. Qed.

(** A request that was accepted keeps the stores consistent. *)
Lemma perform_consistent scope m r q db :
  issue scope m r = inr q →
  consistent db → consistent (fst (perform q db)).
Proof.
  unfold issue. destruct (negb _); [discriminate |].
  destruct (writes (op r) && _); [discriminate |].
  destruct (op r) as [v|k| |k] eqn:Hop.
  - destruct (key_of (target r) v) as [k|] eqn:Hkey; [| discriminate].
    intros [= <-] Hdb s k' v'. simpl.
    destruct (decide (s = target r)) as [-> | Hne].
    + replace (store (target r) (set_store (target r)
                 (<[k:=v]> (store (target r) db)) db))
        with (<[k:=v]> (store (target r) db)) by (destruct (target r); reflexivity).
      destruct (decide (k = k')) as [<- | Hk].
      * rewrite lookup_insert_eq. intros [= <-]. exact Hkey.
      * rewrite lookup_insert_ne by exact Hk. apply Hdb.
    + replace (store s (set_store (target r) (<[k:=v]> (store (target r) db)) db))
        with (store s db) by (destruct s, (target r); simpl; congruence).
      apply Hdb.
  - intros [= <-] Hdb. exact Hdb.
  - intros [= <-] Hdb. exact Hdb.
  - intros [= <-] Hdb s k' v'. simpl.
    destruct (decide (s = target r)) as [-> | Hne].
    + replace (store (target r) (set_store (target r)
                 (delete k (store (target r) db)) db))
        with (delete k (store (target r) db)) by (destruct (target r); reflexivity).
      destruct (decide (k = k')) as [<- | Hk].
      * rewrite lookup_delete_eq. discriminate.
      * rewrite lookup_delete_ne by exact Hk. apply Hdb.
    + replace (store s (set_store (target r) (delete k (store (target r) db)) db))
        with (store s db) by (destruct s, (target r); simpl; congruence).
      apply Hdb.
Qed.

Lemma sort_insert_elem {A} (compare : A → A → Z) x y l :
  x ∈ sort_insert compare y l ↔ x = y ∨ x ∈ l.
Proof.
  induction l as [|z l IH]; simpl.
  - rewrite list_elem_of_singleton, elem_of_nil. tauto.
  - destruct (compare y z <=? 0).
    + rewrite elem_of_cons. tauto.
    + rewrite !elem_of_cons, IH. tauto.
Qed.

(** Sorting keeps the elements. *)
Lemma sort_elem {A} (compare : A → A → Z) x l :
  x ∈ sort compare l ↔ x ∈ l.
Proof.
  unfold sort. induction l as [|y l IH]; simpl; [tauto |].
  rewrite sort_insert_elem, elem_of_cons, IH. tauto.
Qed.

Lemma find_template_none id tmpls :
  (∀ t, t ∈ tmpls → prop_id t ≠ id) → find_template id tmpls = None.
Proof.
  unfold find_template. induction tmpls as [|t tmpls IH]; intros Hall; [reflexivity |].
  simpl. rewrite bool_decide_eq_false_2 by (apply Hall, list_elem_of_here).
  apply IH. intros t' Ht'. apply Hall, list_elem_of_further, Ht'.
Qed.

(** Once a template is deleted, no record of the templates store has its
    id. *)
Lemma deleted_template_absent db tid t :
  consistent db →
  t ∈ (map_to_list (delete tid (IDB.templates db))).*2 →
  prop_id t ≠ Some tid.
Proof.
  intros Hdb Ht. apply list_elem_of_fmap in Ht as ([k v] & -> & Hkv).
  apply elem_of_map_to_list in Hkv. simpl.
  destruct (decide (k = tid)) as [-> | Hne].
  - rewrite lookup_delete_eq in Hkv. discriminate.
  - rewrite lookup_delete_ne in Hkv by congruence.
    apply (Hdb TEMPLATE_STORE) in Hkv. simpl in Hkv. congruence.
Qed.

(** *** C7 *)

(** C7. Let [r] be a stored report and let its template be deleted (the
    engine serving each request).  The reports and users stores are exactly
    as before, so nothing was deleted along or altered; [getReport] of [r]'s
    id resolves with [r]; looking the template up among the stored
    templates finds nothing ([undefined], no exception); the home screen
    loads, every draft it lists that refers to the deleted template carries
    the title ["Modelo Excluído"], and [r] is listed so if it is a draft;
    opening [r] in the report screen loads it, shows the notice "Dados não
    encontrados (Modelo ou Relatório excluído)" and returns to the home
    route, raising nothing. *)
Theorem deleteTemplate_leaves_reports
    (eng_d eng_g eng_t eng_r : Engine) (db : Database) (r : ReportData.t)
    (st : ReportScreen) :
  consistent db →
  working eng_d → working eng_g → working eng_t → working eng_r →
  reports db !! ReportData.id r = Some (ReportRec r) →
  ReportData.id r ≠ "" →
  let tid := ReportData.templateId r in
  let db' := fst (deleteTemplate eng_d tid db) in
  snd (deleteTemplate eng_d tid db) = Fulfilled ()
  ∧ reports db' = reports db ∧ users db' = users db
  ∧ getReport eng_g (ReportData.id r) db' = (db', Fulfilled (Some (ReportRec r)))
  ∧ (∃ tmpls, getTemplates eng_t db' = (db', Fulfilled tmpls)
              ∧ find_template (Some tid) tmpls = None)
  ∧ (∃ home, Home_loadData eng_t eng_r db' = Fulfilled home
             ∧ (∀ d, d ∈ drafts home → prop_templateId (report d) = Some tid →
                     templateTitle d = "Modelo Excluído")
             ∧ (ReportData.status r = Some draft →
                mkDraft (ReportRec r) "Modelo Excluído" ∈ drafts home))
  ∧ (let st' := Report_loadData eng_g eng_t (Some (ReportData.id r)) None db' st in
     loaded st' = Some (ReportRec r)
     ∧ photos st' = Some (ReportData.photos r)
     ∧ template st' = template st
     ∧ alerts (ui st')
       = alerts (ui st) ++ ["Dados não encontrados (Modelo ou Relatório excluído)"]
     ∧ navigated (ui st') = Some "/"
     ∧ loading st' = false).
Proof.
  intros Hdb Hd Hg Ht Hr Hstored Hid tid db'. subst db'.
  rewrite (deleteTemplate_working eng_d) by exact Hd. simpl.
  set (db' := mkDatabase (delete tid (IDB.templates db)) (reports db) (users db)).
  assert (Hnone : ∀ compare,
            find_template (Some tid)
              (sort compare (map_to_list (IDB.templates db')).*2) = None).
  { intros compare. apply find_template_none. intros t Hin.
    apply sort_elem in Hin. exact (deleted_template_absent db tid t Hdb Hin). }
  assert (Hnone' : find_template (Some tid) (map_to_list (IDB.templates db')).*2 = None).
  { apply find_template_none. intros t Hin.
    exact (deleted_template_absent db tid t Hdb Hin). }
  split; [reflexivity |]. split; [reflexivity |]. split; [reflexivity |].
  split; [rewrite (getReport_working eng_g) by exact Hg; simpl; rewrite Hstored;
          reflexivity |].
  split; [| split].
  - eexists. split; [apply (getTemplates_working eng_t); exact Ht | exact Hnone'].
  - unfold Home_loadData.
    rewrite (getTemplates_working eng_t), (getAllReports_working eng_r)
      by assumption.
    eexists. split; [reflexivity |]. simpl. split.
    + intros d Hin Htid. apply sort_elem in Hin.
      apply list_elem_of_fmap in Hin as (r' & -> & _).
      unfold join_title. simpl in Htid |- *. rewrite Htid, Hnone. reflexivity.
    + intros Hdraft. apply sort_elem.
      apply list_elem_of_fmap. exists (ReportRec r). split.
      * unfold join_title. simpl. fold tid. rewrite Hnone. reflexivity.
      * apply list_elem_of_filter. split; [exact Hdraft |].
        apply list_elem_of_fmap. exists (ReportData.id r, ReportRec r).
        split; [reflexivity |]. apply elem_of_map_to_list. exact Hstored.
  - unfold Report_loadData. simpl. unfold truthy.
    rewrite bool_decide_eq_false_2 by exact Hid.
    rewrite (getReport_working eng_g) by exact Hg. simpl. rewrite Hstored.
    rewrite (getTemplates_working eng_t) by exact Ht. simpl.
    fold tid. simpl in Hnone'. rewrite Hnone'. simpl. repeat split; reflexivity.
Qed.

Lemma one_draft_consistent : consistent one_draft.
Proof.
  intros s k v. destruct s; simpl.
  - intros [<- <-]%lookup_singleton_Some. reflexivity.
  - intros [<- <-]%lookup_singleton_Some. reflexivity.
  - rewrite lookup_empty. discriminate.
Defined.

Lemma deleteTemplate_leaves_reports_witness :
  let tid := ReportData.templateId draft_bomba in
  let db' := fst (deleteTemplate healthy tid one_draft) in
  snd (deleteTemplate healthy tid one_draft) = Fulfilled ()
  ∧ reports db' = reports one_draft ∧ users db' = users one_draft
  ∧ getReport healthy (ReportData.id draft_bomba) db'
    = (db', Fulfilled (Some (ReportRec draft_bomba)))
  ∧ (∃ tmpls, getTemplates healthy db' = (db', Fulfilled tmpls)
              ∧ find_template (Some tid) tmpls = None)
  ∧ (∃ home, Home_loadData healthy healthy db' = Fulfilled home
             ∧ (∀ d, d ∈ drafts home → prop_templateId (report d) = Some tid →
                     templateTitle d = "Modelo Excluído")
             ∧ (ReportData.status draft_bomba = Some draft →
                mkDraft (ReportRec draft_bomba) "Modelo Excluído" ∈ drafts home))
  ∧ (let st' :=
       Report_loadData healthy healthy (Some (ReportData.id draft_bomba)) None db'
         initial_screen in
     loaded st' = Some (ReportRec draft_bomba)
     ∧ photos st' = Some (ReportData.photos draft_bomba)
     ∧ template st' = template initial_screen
     ∧ alerts (ui st')
       = alerts (ui initial_screen)
         ++ ["Dados não encontrados (Modelo ou Relatório excluído)"]
     ∧ navigated (ui st') = Some "/"
     ∧ loading st' = false).
Proof.
  apply (deleteTemplate_leaves_reports healthy healthy healthy healthy one_draft
           draft_bomba initial_screen).
  - exact one_draft_consistent.
  - split; reflexivity.
  - split; reflexivity.
  - split; reflexivity.
  - split; reflexivity.
  - vm_compute. reflexivity.
  - discriminate.
Defined.

(** The same store, evaluated: before the deletion the draft is listed
    under its template's title, after it under "Modelo Excluído". *)
Example one_draft_home_screen :
  Home_loadData healthy healthy one_draft
  = Fulfilled (mkHomeScreen [TemplateRec template_bomba]
                 [mkDraft (ReportRec draft_bomba) "Bomba"])
  ∧ Home_loadData healthy healthy
      (fst (deleteTemplate healthy "1699990000000" one_draft))
    = Fulfilled (mkHomeScreen [] [mkDraft (ReportRec draft_bomba) "Modelo Excluído"]).
Proof. split; vm_compute; reflexivity. Qed.

End TemplateFacts.

(** ** Accounts *)

Module AuthFacts.
Import IDB Db App Props Samples Auth Samples2 DbFacts.

(** [validateUser] when the engine serves the lookup. *)
Lemma validateUser_working eng username password db :
  working eng →
  validateUser eng username password db =
    (db,
     Fulfilled
       (bool_decide (username = "admin") && bool_decide (password = "admin")
        || password_matches (ResValue (users db !! username)) password)).
Proof.
  intros [Hopen Hreq]. unfold validateUser.
  destruct (bool_decide (username = "admin") && bool_decide (password = "admin"));
    [reflexivity |].
  unfold await_openDB, openDB. rewrite Hopen.
  erewrite one_request_working; [ | exact Hreq | reflexivity]; reflexivity.
Qed.

(** [validateUser] never writes. *)
Lemma validateUser_reads eng username password db :
  fst (validateUser eng username password db) = db.
Proof.
  unfold validateUser.
  destruct (bool_decide (username = "admin") && bool_decide (password = "admin"));
    [reflexivity |].
  unfold await_openDB, openDB. destruct (open_error eng); [reflexivity |].
  unfold one_request, transaction. simpl.
  destruct (request_error eng 0); reflexivity.
Qed.

(** What [createUser] does, request by request. *)
Lemma createUser_cases eng user db :
  createUser eng user db =
    match open_error eng with
    | Some e => (db, Rejected (DomErr (Some e)))
    | None =>
        match request_error eng 0 with
        | Some e => (db, Rejected (DomErr (Some e)))
        | None =>
            match users db !! User.username user with
            | Some _ => (db, Rejected (JsError "Usuário já existe"))
            | None =>
                match request_error eng 1 with
                | Some e => (db, Rejected (DomErr (Some e)))
                | None =>
                    (mkDatabase (IDB.templates db) (reports db)
                       (<[User.username user := UserRec user]> (users db)),
                     Fulfilled ())
                end
            end
        end
    end.
Proof.
  unfold createUser, await_openDB, openDB.
  destruct (open_error eng); [reflexivity |]. simpl.
  destruct (request_error eng 0); [reflexivity |].
  destruct (users db !! User.username user) eqn:Hu; [reflexivity |].
  destruct (request_error eng 1); [reflexivity |].
  unfold add. simpl. rewrite Hu. reflexivity.
Qed.

(** X1. A username that is taken is never re-registered: whatever the
    engine does, [createUser] leaves the whole database as it was, the
    stored record of that user included; when the engine serves the
    lookup, the promise is rejected with "Usuário já existe". *)
Theorem createUser_keeps_existing_user eng user db v :
  users db !! User.username user = Some v →
  fst (createUser eng user db) = db
  ∧ users (fst (createUser eng user db)) !! User.username user = Some v
  ∧ (working eng →
     snd (createUser eng user db) = Rejected (JsError "Usuário já existe")).
Proof.
  intros Hv. rewrite createUser_cases, Hv.
  destruct (open_error eng) eqn:Hopen; simpl.
  - split; [reflexivity | split; [exact Hv |]]. intros [H _]. congruence.
  - destruct (request_error eng 0) eqn:Hreq; simpl.
    + split; [reflexivity | split; [exact Hv |]]. intros [_ H]. congruence.
    + split; [reflexivity | split; [exact Hv |]]. reflexivity.
Qed.

Lemma createUser_keeps_existing_user_witness :
  fst (createUser healthy (User.mk "rafael" "outra" 5) one_user) = one_user
  ∧ users (fst (createUser healthy (User.mk "rafael" "outra" 5) one_user)) !! "rafael"
    = Some (UserRec user_rafael)
  ∧ (working healthy →
     snd (createUser healthy (User.mk "rafael" "outra" 5) one_user)
     = Rejected (JsError "Usuário já existe")).
Proof.
  apply (createUser_keeps_existing_user healthy (User.mk "rafael" "outra" 5)
           one_user (UserRec user_rafael)).
  reflexivity.
Defined.

(** X2. Registration, then login.  If [createUser] resolves, the username
    was free, the database differs from the old one by that user's record
    only, and (the engine serving the lookup) [validateUser] with the
    registered name and password resolves with [true], with any other
    password, the admin/admin pair apart, with [false]. *)
Theorem createUser_then_validateUser eng_c eng_v user db :
  snd (createUser eng_c user db) = Fulfilled () →
  working eng_v →
  let db' := fst (createUser eng_c user db) in
  users db !! User.username user = None
  ∧ db' = mkDatabase (IDB.templates db) (reports db)
            (<[User.username user := UserRec user]> (users db))
  ∧ validateUser eng_v (User.username user) (User.password user) db'
    = (db', Fulfilled true)
  ∧ (∀ p, p ≠ User.password user →
          ¬ (User.username user = "admin" ∧ p = "admin") →
          validateUser eng_v (User.username user) p db' = (db', Fulfilled false)).
Proof.
  intros Hdone Hv db'. subst db'. revert Hdone. rewrite createUser_cases.
  destruct (open_error eng_c); [discriminate |].
  destruct (request_error eng_c 0); [discriminate |].
  destruct (users db !! User.username user) eqn:Hu; [discriminate |].
  destruct (request_error eng_c 1); [discriminate |].
  intros _. simpl.
  split; [reflexivity | split; [reflexivity |]].
  split.
  - rewrite validateUser_working by exact Hv. simpl.
    rewrite lookup_insert_eq. simpl.
    rewrite (bool_decide_eq_true_2 _ eq_refl), orb_true_r. reflexivity.
  - intros p Hp Hadmin. rewrite validateUser_working by exact Hv. simpl.
    rewrite lookup_insert_eq. simpl.
    rewrite (bool_decide_eq_false_2 (Some (User.password user) = Some p))
      by congruence.
    rewrite orb_false_r.
    destruct (bool_decide (User.username user = "admin")) eqn:Hn;
      destruct (bool_decide (p = "admin")) eqn:Hq; try reflexivity.
    apply bool_decide_eq_true in Hn, Hq. tauto.
Qed.

Lemma createUser_then_validateUser_witness :
  let user := User.mk "maria" "s3nha" 1700000000000 in
  let db' := fst (createUser healthy user one_user) in
  users one_user !! "maria" = None
  ∧ db' = mkDatabase (IDB.templates one_user) (reports one_user)
            (<["maria" := UserRec user]> (users one_user))
  ∧ validateUser healthy "maria" "s3nha" db' = (db', Fulfilled true)
  ∧ (∀ p, p ≠ "s3nha" → ¬ ("maria" = "admin" ∧ p = "admin") →
          validateUser healthy "maria" p db' = (db', Fulfilled false)).
Proof.
  apply (createUser_then_validateUser healthy healthy
           (User.mk "maria" "s3nha" 1700000000000) one_user).
  - reflexivity.
  - split; reflexivity.
Defined.

Section LoginFacts.
Variable trim : string → string.
Variable code_units : string → nat.
Variable message : DOMException → string.

(** X3. The login form writes to the database only when it registers: if
    [handleSubmit] leaves a database other than the one it found, the form
    was in registration mode, both fields were filled, the two passwords
    were equal and of four code units at least, the trimmed username was
    free, and the new database is the old one with the record
    [{username.trim(), password, Date.now()}] under that name.  The form
    then goes back to login mode with both password cells cleared and
    [onLogin] is not called. *)
Theorem handleSubmit_writes_only_checked_registration eng now st db :
  let out := handleSubmit trim code_units message eng now st db in
  fst (fst out) ≠ db →
  isRegistering st = true
  ∧ username st ≠ "" ∧ password st ≠ ""
  ∧ password st = confirmPassword st
  ∧ (4 ≤ code_units (password st))%nat
  ∧ users db !! trim (username st) = None
  ∧ fst (fst out)
    = mkDatabase (IDB.templates db) (reports db)
        (<[trim (username st) :=
             UserRec (User.mk (trim (username st)) (password st) now)]> (users db))
  ∧ snd (fst out)
    = mkLoginScreen false (username st) "" "" ""
        "Conta criada com sucesso! Faça login." false
  ∧ snd out = false.
Proof.
  intros out. subst out. unfold handleSubmit.
  destruct (bool_decide (username st = "")) eqn:Hu; simpl; [congruence |].
  destruct (bool_decide (password st = "")) eqn:Hp; simpl; [congruence |].
  apply bool_decide_eq_false in Hu, Hp.
  destruct (isRegistering st).
  - destruct (bool_decide (password st = confirmPassword st)) eqn:Hc; simpl;
      [| congruence].
    apply bool_decide_eq_true in Hc.
    destruct (Nat.ltb (code_units (password st)) 4) eqn:Hlen; simpl; [congruence |].
    apply Nat.ltb_ge in Hlen.
    rewrite createUser_cases. simpl.
    destruct (open_error eng); simpl; [congruence |].
    destruct (request_error eng 0); simpl; [congruence |].
    destruct (users db !! trim (username st)) eqn:Hfree; simpl; [congruence |].
    destruct (request_error eng 1); simpl; [congruence |].
    intros _. repeat (split; [assumption || reflexivity |]). reflexivity.
  - pose proof (validateUser_reads eng (trim (username st)) (password st) db) as Hr.
    destruct (validateUser eng (trim (username st)) (password st) db)
      as [db' [| [|] |]]; simpl in *; congruence.
Qed.

(** X4. In login mode [handleSubmit] never writes, and it calls
    [onLogin(true)] exactly when both fields are filled and [validateUser]
    resolves with [true] for the trimmed username and the password.  So the
    pair admin/admin logs in on every database, whatever the engine does;
    and when the engine serves the lookup, a refused login shows
    "Usuário ou senha incorretos". *)
Theorem handleSubmit_login eng now st db :
  isRegistering st = false →
  let out := handleSubmit trim code_units message eng now st db in
  fst (fst out) = db
  ∧ (snd out = true ↔
       username st ≠ "" ∧ password st ≠ ""
       ∧ snd (validateUser eng (trim (username st)) (password st) db)
         = Fulfilled true)
  ∧ (username st ≠ "" → trim (username st) = "admin" → password st = "admin" →
     snd out = true)
  ∧ (working eng → username st ≠ "" → password st ≠ "" → snd out = false →
     error (snd (fst out)) = "Usuário ou senha incorretos").
Proof.
  intros Hmode out. subst out. unfold handleSubmit. rewrite Hmode.
  destruct (bool_decide (username st = "")) eqn:Hu; simpl.
  { apply bool_decide_eq_true in Hu.
    split; [reflexivity |]. split; [| split; [congruence | congruence]].
    split; [discriminate | tauto]. }
  apply bool_decide_eq_false in Hu.
  destruct (bool_decide (password st = "")) eqn:Hp; simpl.
  { apply bool_decide_eq_true in Hp.
    split; [reflexivity |]. split; [| split; [| congruence]].
    - split; [discriminate | tauto].
    - intros _ _ Hadmin. rewrite Hp in Hadmin. discriminate. }
  apply bool_decide_eq_false in Hp.
  pose proof (validateUser_reads eng (trim (username st)) (password st) db) as Hr.
  split; [| split; [| split]].
  - destruct (validateUser eng (trim (username st)) (password st) db)
      as [db' [| [|] |]]; exact Hr.
  - destruct (validateUser eng (trim (username st)) (password st) db)
      as [db' [| [|] |]]; simpl; split; try discriminate; try tauto;
      intros (_ & _ & H); discriminate.
  - intros _ Hname Hpass. unfold validateUser. rewrite Hname, Hpass. reflexivity.
  - intros Hw _ _. rewrite validateUser_working by exact Hw.
    destruct (_ || _); simpl; [discriminate | reflexivity].
Qed.

End LoginFacts.

Lemma handleSubmit_writes_only_checked_registration_witness :
  let out := handleSubmit trim_spaces String.length dom_message healthy 42
               register_maria one_user in
  isRegistering register_maria = true
  ∧ username register_maria ≠ "" ∧ password register_maria ≠ ""
  ∧ password register_maria = confirmPassword register_maria
  ∧ (4 ≤ String.length (password register_maria))%nat
  ∧ users one_user !! trim_spaces (username register_maria) = None
  ∧ fst (fst out)
    = mkDatabase (IDB.templates one_user) (reports one_user)
        (<[trim_spaces (username register_maria) :=
             UserRec (User.mk (trim_spaces (username register_maria))
                        (password register_maria) 42)]> (users one_user))
  ∧ snd (fst out)
    = mkLoginScreen false (username register_maria) "" "" ""
        "Conta criada com sucesso! Faça login." false
  ∧ snd out = false.
Proof.
  apply (handleSubmit_writes_only_checked_registration trim_spaces String.length
           dom_message healthy 42 register_maria one_user).
  vm_compute. intros H.
  apply (f_equal (fun d => users d !! "maria")) in H.
  vm_compute in H. discriminate H.
Defined.

Lemma handleSubmit_login_witness :
  let out := handleSubmit trim_spaces String.length dom_message second_write_fails 42
               login_admin one_user in
  fst (fst out) = one_user
  ∧ (snd out = true ↔
       username login_admin ≠ "" ∧ password login_admin ≠ ""
       ∧ snd (validateUser second_write_fails (trim_spaces (username login_admin))
                (password login_admin) one_user)
         = Fulfilled true)
  ∧ (username login_admin ≠ "" → trim_spaces (username login_admin) = "admin" →
     password login_admin = "admin" → snd out = true)
  ∧ (working second_write_fails → username login_admin ≠ "" →
     password login_admin ≠ "" → snd out = false →
     error (snd (fst out)) = "Usuário ou senha incorretos").
Proof.
  apply (handleSubmit_login trim_spaces String.length dom_message second_write_fails 42
           login_admin one_user).
  reflexivity.
Defined.

(** X5. The session flag.  After [handleLogin(true)] the application is
    authenticated and stays so when it is mounted again; a confirmed
    [handleLogout] ends that, and removes nothing but the flag, so the
    photo quality setting is read as before; [handleLogin(false)] and a
    declined logout change nothing. *)
Theorem session_flag localStorage isAuthenticated :
  let logged := handleLogin true localStorage isAuthenticated in
  let out := handleLogout true (fst logged) (snd logged) in
  snd logged = true
  ∧ isAuthenticated_on_mount (fst logged) = true
  ∧ snd out = false
  ∧ isAuthenticated_on_mount (fst out) = false
  ∧ getPhotoQuality (fst logged) = getPhotoQuality localStorage
  ∧ getPhotoQuality (fst out) = getPhotoQuality localStorage
  ∧ (∀ key, key ≠ "serra_sul_auth" → getItem key (fst out) = getItem key localStorage)
  ∧ handleLogin false localStorage isAuthenticated = (localStorage, isAuthenticated)
  ∧ handleLogout false localStorage isAuthenticated = (localStorage, isAuthenticated).
Proof.
  simpl. unfold isAuthenticated_on_mount, getPhotoQuality, removeItem, setItem, getItem.
  rewrite lookup_insert_eq, lookup_delete_eq.
  rewrite lookup_insert_ne by discriminate.
  rewrite lookup_delete_ne by discriminate.
  rewrite lookup_insert_ne by discriminate.
  repeat split.
  intros key Hkey.
  rewrite lookup_delete_ne by congruence.
  rewrite lookup_insert_ne by congruence. reflexivity.
Qed.

End AuthFacts.

(** ** The store: deleting, listing, merging *)

Module StoreFacts.
Import IDB Db App Props Samples DbFacts ImportFacts TemplateFacts.

Lemma deleteReport_working eng id db :
  working eng →
  deleteReport eng id db =
    (set_store REPORT_STORE (delete id (reports db)) db, Fulfilled ()).
Proof.
  intros [Hopen Hreq]. unfold deleteReport, await_openDB, openDB. rewrite Hopen.
  erewrite one_request_working; [ | exact Hreq | reflexivity]; reflexivity.
Qed.

Lemma saveTemplate_working eng t db :
  working eng →
  saveTemplate eng t db =
    (set_store TEMPLATE_STORE (<[ReportTemplate.id t := TemplateRec t]> (IDB.templates db)) db,
     Fulfilled ()).
Proof.
  intros [Hopen Hreq]. unfold saveTemplate, await_openDB, openDB. rewrite Hopen.
  erewrite one_request_working; [ | exact Hreq | reflexivity]; reflexivity.
Qed.

(** A single request the engine does not serve: nothing is written and the
    promise is rejected. *)
Lemma one_request_failing {A} eng scope m r (l : ReqListeners (Promise A)) db
    (k : Result → A) :
  l = {| onsuccess := fun res => resolve (k res); onerror := fun e => reject (DomErr e) |} →
  ¬ working eng →
  fst (await_openDB eng (one_request eng scope m r l) db) = db
  ∧ is_rejected (snd (await_openDB eng (one_request eng scope m r l) db)) = true.
Proof.
  intros -> Hfail. unfold await_openDB, openDB.
  destruct (open_error eng) eqn:Hopen; [split; reflexivity |].
  unfold one_request. destruct (issue scope m r) as [ex | q]; [split; reflexivity |].
  unfold transaction. simpl.
  destruct (request_error eng 0) eqn:Hreq; [split; reflexivity |].
  exfalso. apply Hfail. split; assumption.
Qed.

(** In a consistent store, the ids of the records listed are the keys. *)
Lemma listed_ids (m : gmap string Stored) :
  (∀ k v, m !! k = Some v → prop_id v = Some k) →
  prop_id <$> (map_to_list m).*2 = Some <$> (map_to_list m).*1.
Proof.
  intros Hm. rewrite <- !list_fmap_compose.
  apply Forall_fmap_ext, Forall_forall. intros [k v] Hin. simpl.
  apply elem_of_map_to_list in Hin. auto.
Qed.

Lemma listed_ids_NoDup (m : gmap string Stored) :
  (∀ k v, m !! k = Some v → prop_id v = Some k) →
  NoDup (prop_id <$> (map_to_list m).*2).
Proof.
  intros Hm. rewrite listed_ids by exact Hm.
  apply NoDup_fmap_2; [apply _ | apply NoDup_fst_map_to_list].
Qed.

Lemma elem_of_listed (m : gmap string Stored) v :
  v ∈ (map_to_list m).*2 ↔ ∃ k, m !! k = Some v.
Proof.
  rewrite list_elem_of_fmap. split.
  - intros ([k v'] & -> & Hin). exists k. apply elem_of_map_to_list, Hin.
  - intros (k & Hk). exists (k, v). split; [reflexivity |].
    apply elem_of_map_to_list, Hk.
Qed.

(** The last of the items with a given key decides what an upsert of a list
    leaves under that key. *)
Lemma foldl_insert_lookup {A} (key : A → string) (wrap : A → Stored)
    (l : list A) (m : gmap string Stored) (k : string) :
  foldl (fun m x => <[key x := wrap x]> m) m l !! k
  = match last (filter (fun x => key x = k) l) with
    | Some x => Some (wrap x)
    | None => m !! k
    end.
Proof.
  revert m. induction l as [|x l IH]; intros m; [reflexivity |].
  simpl. rewrite IH. rewrite filter_cons.
  destruct (decide (key x = k)) as [Hk | Hk].
  - destruct (filter (fun x => key x = k) l) as [|y l'] eqn:Hf; simpl.
    + rewrite <- Hk, lookup_insert_eq. reflexivity.
    + rewrite last_cons. simpl.
      destruct (last l') eqn:Hl; simpl; [reflexivity |].
      apply last_None in Hl. subst l'. reflexivity.
  - destruct (last (filter (fun x => key x = k) l)); [reflexivity |].
    apply lookup_insert_ne, Hk.
Qed.

Lemma foldl_insert_twice {A} (key : A → string) (wrap : A → Stored)
    (l : list A) (m : gmap string Stored) :
  foldl (fun m x => <[key x := wrap x]> m)
    (foldl (fun m x => <[key x := wrap x]> m) m l) l
  = foldl (fun m x => <[key x := wrap x]> m) m l.
Proof.
  apply map_eq. intros k. rewrite (foldl_insert_lookup key wrap l (foldl _ m l)).
  destruct (last (filter (fun x => key x = k) l)) eqn:Hl; [| reflexivity].
  rewrite foldl_insert_lookup, Hl. reflexivity.
Qed.

Lemma unserved_write_for_template eng db t :
  ¬ working eng →
  fst (saveTemplate eng t db) = db ∧ is_rejected (snd (saveTemplate eng t db)) = true.
Proof.
  intros Hfail.
  eapply (one_request_failing _ _ _ _ _ _ (fun _ => ())); [reflexivity | exact Hfail].
Qed.

(** X6. [deleteReport] deletes one key of one store.  When the engine
    serves the request it resolves, whether or not the key was there: the
    templates and the users are as before, [getReport] of the id resolves
    with [undefined], [getReport] of every other id resolves as it did
    before, and a database that has no such report is left exactly as it
    was. *)
Theorem deleteReport_removes_one_key eng_d eng_g id db :
  working eng_d → working eng_g →
  let db' := fst (deleteReport eng_d id db) in
  snd (deleteReport eng_d id db) = Fulfilled ()
  ∧ IDB.templates db' = IDB.templates db
  ∧ users db' = users db
  ∧ getReport eng_g id db' = (db', Fulfilled None)
  ∧ (∀ id', id' ≠ id →
       snd (getReport eng_g id' db') = snd (getReport eng_g id' db))
  ∧ (reports db !! id = None → db' = db).
Proof.
  intros Hd Hg db'. subst db'. rewrite deleteReport_working by exact Hd. simpl.
  split; [reflexivity |]. split; [reflexivity |]. split; [reflexivity |].
  split; [| split].
  - rewrite getReport_working by exact Hg. simpl.
    rewrite lookup_delete_eq. reflexivity.
  - intros id' Hne. rewrite !(getReport_working eng_g) by exact Hg. simpl.
    rewrite lookup_delete_ne by congruence. reflexivity.
  - intros Hnone. rewrite delete_id by exact Hnone. destruct db; reflexivity.
Qed.

Lemma deleteReport_removes_one_key_witness :
  let db' := fst (deleteReport healthy "1700000000000" one_draft) in
  snd (deleteReport healthy "1700000000000" one_draft) = Fulfilled ()
  ∧ IDB.templates db' = IDB.templates one_draft
  ∧ users db' = users one_draft
  ∧ getReport healthy "1700000000000" db' = (db', Fulfilled None)
  ∧ (∀ id', id' ≠ "1700000000000" →
       snd (getReport healthy id' db') = snd (getReport healthy id' one_draft))
  ∧ (reports one_draft !! "1700000000000" = None → db' = one_draft).
Proof.
  apply (deleteReport_removes_one_key healthy healthy "1700000000000" one_draft);
    exact healthy_working.
Defined.

(** X7. A write the engine does not serve changes nothing: when opening the
    database fails, or the request does, each of [saveTemplate],
    [saveReport], [deleteTemplate] and [deleteReport] leaves the database
    exactly as it was and its promise is rejected. *)
Theorem unserved_write_changes_nothing eng db t r id :
  ¬ working eng →
  (fst (saveTemplate eng t db) = db ∧ is_rejected (snd (saveTemplate eng t db)) = true)
  ∧ (fst (saveReport eng r db) = db ∧ is_rejected (snd (saveReport eng r db)) = true)
  ∧ (fst (deleteTemplate eng id db) = db
     ∧ is_rejected (snd (deleteTemplate eng id db)) = true)
  ∧ (fst (deleteReport eng id db) = db
     ∧ is_rejected (snd (deleteReport eng id db)) = true).
Proof.
  intros Hfail.
  split; [| split; [| split]];
    eapply (one_request_failing _ _ _ _ _ _ (fun _ => ())); try exact Hfail;
    reflexivity.
Qed.

Lemma unserved_write_changes_nothing_witness :
  (fst (saveTemplate (mkEngine (Some QuotaExceededError) (fun _ => None)) template_1 one_draft)
   = one_draft
   ∧ is_rejected
       (snd (saveTemplate (mkEngine (Some QuotaExceededError) (fun _ => None))
               template_1 one_draft)) = true)
  ∧ (fst (saveReport (mkEngine (Some QuotaExceededError) (fun _ => None)) draft_bomba one_draft)
     = one_draft
     ∧ is_rejected
         (snd (saveReport (mkEngine (Some QuotaExceededError) (fun _ => None))
                 draft_bomba one_draft)) = true)
  ∧ (fst (deleteTemplate (mkEngine (Some QuotaExceededError) (fun _ => None)) "1700000000000" one_draft)
     = one_draft
     ∧ is_rejected
         (snd (deleteTemplate (mkEngine (Some QuotaExceededError) (fun _ => None))
                 "1700000000000" one_draft)) = true)
  ∧ (fst (deleteReport (mkEngine (Some QuotaExceededError) (fun _ => None)) "1700000000000" one_draft)
     = one_draft
     ∧ is_rejected
         (snd (deleteReport (mkEngine (Some QuotaExceededError) (fun _ => None))
                 "1700000000000" one_draft)) = true).
Proof.
  apply (unserved_write_changes_nothing
           (mkEngine (Some QuotaExceededError) (fun _ => None))
           one_draft template_1 draft_bomba "1700000000000").
  intros [H _]. discriminate H.
Defined.

(** What a [put] does to the list [getAll] gives, in a store whose records
    sit under their ids. *)
Lemma upsert_listed (m : gmap string Stored) k v :
  (∀ k v, m !! k = Some v → prop_id v = Some k) →
  prop_id v = Some k →
  let l := (map_to_list m).*2 in
  let l' := (map_to_list (<[k := v]> m)).*2 in
  v ∈ l'
  ∧ NoDup (prop_id <$> l')
  ∧ (∀ w, w ∈ l' ↔ w = v ∨ (w ∈ l ∧ prop_id w ≠ Some k))
  ∧ length l' = match m !! k with Some _ => length l | None => S (length l) end.
Proof.
  intros Hm Hv l l'. subst l l'.
  assert (Hm' : ∀ k' v', <[k := v]> m !! k' = Some v' → prop_id v' = Some k').
  { intros k' v'. destruct (decide (k' = k)) as [-> | Hne].
    - rewrite lookup_insert_eq. congruence.
    - rewrite lookup_insert_ne by congruence. apply Hm. }
  split; [| split; [| split]].
  - apply elem_of_listed. exists k. apply lookup_insert_eq.
  - apply listed_ids_NoDup, Hm'.
  - intros w. rewrite !elem_of_listed. split.
    + intros (k' & Hk'). destruct (decide (k' = k)) as [-> | Hne].
      * rewrite lookup_insert_eq in Hk'. left. congruence.
      * rewrite lookup_insert_ne in Hk' by congruence. right.
        split; [exists k'; exact Hk' |]. rewrite (Hm _ _ Hk'). congruence.
    + intros [-> | [(k' & Hk') Hne]].
      * exists k. apply lookup_insert_eq.
      * exists k'. rewrite lookup_insert_ne; [exact Hk' |].
        intros <-. apply Hne, (Hm _ _ Hk').
  - rewrite !length_fmap, !length_map_to_list, map_size_insert.
    destruct (m !! k); reflexivity.
Qed.

(** X8. Saving and listing.  In a store whose records sit under their ids
    (the engine serving each request), after [saveReport(r)] the list
    [getAllReports] resolves with contains [r], no two of its records have
    the same id, its other records are those listed before whose id is not
    [r]'s, and it is one longer than before when [r]'s id was new and as
    long as before when it replaced a record.  The same holds of
    [saveTemplate] and [getTemplates]. *)
Theorem save_then_list eng_s eng_g db r t :
  consistent db → working eng_s → working eng_g →
  (∃ l l',
     snd (getAllReports eng_g db) = Fulfilled l
     ∧ snd (getAllReports eng_g (fst (saveReport eng_s r db))) = Fulfilled l'
     ∧ ReportRec r ∈ l'
     ∧ NoDup (prop_id <$> l')
     ∧ (∀ w, w ∈ l' ↔ w = ReportRec r ∨ (w ∈ l ∧ prop_id w ≠ Some (ReportData.id r)))
     ∧ length l' = match reports db !! ReportData.id r with
                   | Some _ => length l
                   | None => S (length l)
                   end)
  ∧ (∃ l l',
       snd (getTemplates eng_g db) = Fulfilled l
       ∧ snd (getTemplates eng_g (fst (saveTemplate eng_s t db))) = Fulfilled l'
       ∧ TemplateRec t ∈ l'
       ∧ NoDup (prop_id <$> l')
       ∧ (∀ w, w ∈ l' ↔
               w = TemplateRec t ∨ (w ∈ l ∧ prop_id w ≠ Some (ReportTemplate.id t)))
       ∧ length l' = match IDB.templates db !! ReportTemplate.id t with
                     | Some _ => length l
                     | None => S (length l)
                     end).
Proof.
  intros Hdb Hs Hg. split.
  - rewrite saveReport_working by exact Hs.
    rewrite !(getAllReports_working eng_g) by exact Hg. simpl.
    eexists _, _. split; [reflexivity |]. split; [reflexivity |].
    apply upsert_listed; [| reflexivity].
    intros k v Hk. exact (Hdb REPORT_STORE k v Hk).
  - rewrite saveTemplate_working by exact Hs.
    rewrite !(getTemplates_working eng_g) by exact Hg. simpl.
    eexists _, _. split; [reflexivity |]. split; [reflexivity |].
    apply upsert_listed; [| reflexivity].
    intros k v Hk. exact (Hdb TEMPLATE_STORE k v Hk).
Qed.

Lemma save_then_list_witness :
  (∃ l l',
     snd (getAllReports healthy one_draft) = Fulfilled l
     ∧ snd (getAllReports healthy (fst (saveReport healthy draft_bomba_before one_draft)))
       = Fulfilled l'
     ∧ ReportRec draft_bomba_before ∈ l'
     ∧ NoDup (prop_id <$> l')
     ∧ (∀ w, w ∈ l' ↔
             w = ReportRec draft_bomba_before
             ∨ (w ∈ l ∧ prop_id w ≠ Some (ReportData.id draft_bomba_before)))
     ∧ length l' = match reports one_draft !! ReportData.id draft_bomba_before with
                   | Some _ => length l
                   | None => S (length l)
                   end)
  ∧ (∃ l l',
       snd (getTemplates healthy one_draft) = Fulfilled l
       ∧ snd (getTemplates healthy (fst (saveTemplate healthy template_1 one_draft)))
         = Fulfilled l'
       ∧ TemplateRec template_1 ∈ l'
       ∧ NoDup (prop_id <$> l')
       ∧ (∀ w, w ∈ l' ↔
               w = TemplateRec template_1
               ∨ (w ∈ l ∧ prop_id w ≠ Some (ReportTemplate.id template_1)))
       ∧ length l' = match IDB.templates one_draft !! ReportTemplate.id template_1 with
                     | Some _ => length l
                     | None => S (length l)
                     end).
Proof.
  apply (save_then_list healthy healthy one_draft draft_bomba_before template_1).
  - exact one_draft_consistent.
  - exact healthy_working.
  - exact healthy_working.
Defined.

(** X9. A restore merges.  When [importBackup] is served (the database
    opens and none of its writes fails) it resolves, and under every id the
    reports store then holds the last report of the backup with that id,
    or, when the backup has none, what it held before; likewise the
    templates; the users are as before.  Importing the same backup once
    more resolves and changes nothing. *)
Theorem importBackup_merges eng data_reports data_templates db :
  open_error eng = None →
  (∀ j, (j < length data_templates + length data_reports)%nat →
        request_error eng j = None) →
  let db' := fst (importBackup eng data_reports data_templates db) in
  snd (importBackup eng data_reports data_templates db) = Fulfilled ()
  ∧ (∀ id, reports db' !! id
           = match last (filter (fun r => ReportData.id r = id) data_reports) with
             | Some r => Some (ReportRec r)
             | None => reports db !! id
             end)
  ∧ (∀ id, IDB.templates db' !! id
           = match last (filter (fun t => ReportTemplate.id t = id) data_templates) with
             | Some t => Some (TemplateRec t)
             | None => IDB.templates db !! id
             end)
  ∧ users db' = users db
  ∧ importBackup eng data_reports data_templates db' = (db', Fulfilled ()).
Proof.
  intros Hopen Hok db'. subst db'.
  rewrite !(importBackup_resolves eng) by assumption. simpl.
  split; [reflexivity |].
  split; [intros id; apply foldl_insert_lookup |].
  split; [intros id; apply foldl_insert_lookup |].
  split; [reflexivity |].
  unfold upserted. simpl. rewrite !foldl_insert_twice. reflexivity.
Qed.

Lemma importBackup_merges_witness :
  let db' := fst (importBackup healthy [draft_bomba_before; draft_bomba] [template_1]
                    one_draft) in
  snd (importBackup healthy [draft_bomba_before; draft_bomba] [template_1] one_draft)
  = Fulfilled ()
  ∧ (∀ id, reports db' !! id
           = match last (filter (fun r => ReportData.id r = id)
                           [draft_bomba_before; draft_bomba]) with
             | Some r => Some (ReportRec r)
             | None => reports one_draft !! id
             end)
  ∧ (∀ id, IDB.templates db' !! id
           = match last (filter (fun t => ReportTemplate.id t = id) [template_1]) with
             | Some t => Some (TemplateRec t)
             | None => IDB.templates one_draft !! id
             end)
  ∧ users db' = users one_draft
  ∧ importBackup healthy [draft_bomba_before; draft_bomba] [template_1] db'
    = (db', Fulfilled ()).
Proof.
  apply (importBackup_merges healthy [draft_bomba_before; draft_bomba] [template_1]
           one_draft).
  - reflexivity.
  - intros j _. reflexivity.
Defined.

End StoreFacts.

(** ** Settings: backup, restore, preferences *)

Module SettingsFacts.
Import IDB Db App Props Samples DbFacts ImportFacts TemplateFacts StoreFacts.
Import Settings Props2.

(** Records that are all of one kind are the image of a typed list. *)
Lemma typed_list {A} (wrap : A → Stored) (l : list Stored) :
  (∀ v, v ∈ l → ∃ x, v = wrap x) → ∃ xs, wrap <$> xs = l.
Proof.
  induction l as [|v l IH]; intros Hall; [exists []; reflexivity |].
  destruct (Hall v (list_elem_of_here _ _)) as [x ->].
  destruct IH as [xs <-].
  { intros w Hw. apply Hall, list_elem_of_further, Hw. }
  exists (x :: xs). reflexivity.
Qed.

(** Upserting the records listed from a store whose records sit under their
    ids gives back, under every id, what the store holds. *)
Lemma last_of_listed {A} (key : A → string) (wrap : A → Stored)
    (m : gmap string Stored) (xs : list A) (id : string) :
  (∀ k v, m !! k = Some v → prop_id v = Some k) →
  (∀ x, prop_id (wrap x) = Some (key x)) →
  wrap <$> xs = (map_to_list m).*2 →
  match last (filter (fun x => key x = id) xs) with
  | Some x => Some (wrap x)
  | None => None
  end = m !! id.
Proof.
  intros Hm Hkey Hxs.
  destruct (last (filter (fun x => key x = id) xs)) as [x|] eqn:Hlast.
  - apply last_Some_elem_of, list_elem_of_filter in Hlast as [Hid Hin].
    assert (Hw : wrap x ∈ (map_to_list m).*2).
    { rewrite <- Hxs. apply list_elem_of_fmap. exists x. split; [reflexivity | exact Hin]. }
    apply elem_of_listed in Hw as (k & Hk).
    pose proof (Hm _ _ Hk) as Hk'. rewrite Hkey in Hk'.
    assert (k = id) by congruence. subst k. symmetry. exact Hk.
  - apply last_None in Hlast.
    destruct (m !! id) as [v|] eqn:Hv; [| reflexivity]. exfalso.
    assert (Hin : v ∈ wrap <$> xs).
    { rewrite Hxs. apply elem_of_listed. exists id. exact Hv. }
    apply list_elem_of_fmap in Hin as (x & -> & Hx).
    pose proof (Hm _ _ Hv) as Hid. rewrite Hkey in Hid.
    assert (Hf : x ∈ filter (fun x => key x = id) xs).
    { apply list_elem_of_filter. split; [congruence | exact Hx]. }
    rewrite Hlast in Hf. apply not_elem_of_nil in Hf. exact Hf.
Qed.

Lemma restore_of_listed {A} (key : A → string) (wrap : A → Stored)
    (m base : gmap string Stored) (xs : list A) :
  (∀ k v, m !! k = Some v → prop_id v = Some k) →
  (∀ x, prop_id (wrap x) = Some (key x)) →
  wrap <$> xs = (map_to_list m).*2 →
  base = ∅ ∨ base = m →
  foldl (fun m x => <[key x := wrap x]> m) base xs = m.
Proof.
  intros Hm Hkey Hxs Hbase. apply map_eq. intros id.
  rewrite foldl_insert_lookup.
  pose proof (last_of_listed key wrap m xs id Hm Hkey Hxs) as Hl.
  destruct (last (filter (fun x => key x = id) xs)); [exact Hl |].
  destruct Hbase as [-> | ->]; [rewrite lookup_empty; exact Hl | reflexivity].
Qed.

(** X10. What [handleImportBackup] refuses.  With no file picked, a file
    that cannot be read, or the confirmation declined, nothing happens: no
    write, no alert.  A confirmed file whose text does not parse, or lacks
    [reports] or [templates], writes nothing and shows the error alert.
    Empty arrays are accepted: with a database that opens, the restore of
    an empty backup succeeds and changes nothing. *)
Theorem handleImportBackup_refuses eng db :
  (∀ confirmed, handleImportBackup eng NoFile confirmed db = (db, None))
  ∧ (∀ confirmed, handleImportBackup eng Unreadable confirmed db = (db, None))
  ∧ (∀ file, handleImportBackup eng file false db = (db, None))
  ∧ (∀ json,
       json = None
       ∨ (∃ f, json = Some f ∧ (json_reports f = None ∨ json_templates f = None)) →
       handleImportBackup eng (Text json) true db
       = (db, Some "Erro ao restaurar backup. Verifique se o arquivo é válido."))
  ∧ (open_error eng = None →
     handleImportBackup eng (Text (Some (mkBackupFile (Some []) (Some [])))) true db
     = (db, Some "Backup restaurado com sucesso!")).
Proof.
  split; [reflexivity |]. split; [reflexivity |].
  split; [intros [| |json]; reflexivity |].
  split.
  - intros json [-> | (f & -> & Hmiss)]; [reflexivity |].
    destruct f as [[rs|] [ts|]]; simpl in *; try reflexivity.
    destruct Hmiss; discriminate.
  - intros Hopen. simpl.
    rewrite importBackup_resolves; [| exact Hopen | simpl; intros j Hj; lia].
    destruct db; reflexivity.
Qed.

(** X11. Backup, then restore.  Let the stores hold templates and reports
    under their ids, and let the engine serve the two reads of the export
    and the writes of the restore.  [handleExportBackup] writes nothing and
    produces a backup; restoring the file that holds it into an empty
    database gives the templates and reports of the original, and no users:
    accounts are not part of a backup.  Restoring it into the original
    database changes nothing. *)
Theorem backup_then_restore eng_r eng_t eng_i timestamp db :
  consistent db → well_typed db →
  working eng_r → working eng_t →
  open_error eng_i = None → (∀ j, request_error eng_i j = None) →
  ∃ d alert,
    handleExportBackup eng_r eng_t timestamp db = (db, Some d, Some alert)
    ∧ (∃ f, reads_back d f)
    ∧ (∀ f, reads_back d f →
         handleImportBackup eng_i (Text (Some f)) true fresh
         = (mkDatabase (IDB.templates db) (IDB.reports db) ∅,
            Some "Backup restaurado com sucesso!")
         ∧ handleImportBackup eng_i (Text (Some f)) true db
           = (db, Some "Backup restaurado com sucesso!")).
Proof.
  intros Hdb [Htt Htr] Hr Ht Hopen Hreq.
  unfold handleExportBackup.
  rewrite getAllReports_working by exact Hr.
  rewrite getTemplates_working by exact Ht.
  eexists _, _. split; [reflexivity |]. split.
  - destruct (typed_list ReportRec (map_to_list (IDB.reports db)).*2) as [rs Hrs].
    { intros v Hv. apply elem_of_listed in Hv as (k & Hk). exact (Htr k v Hk). }
    destruct (typed_list TemplateRec (map_to_list (IDB.templates db)).*2) as [ts Hts].
    { intros v Hv. apply elem_of_listed in Hv as (k & Hk). exact (Htt k v Hk). }
    exists (mkBackupFile (Some rs) (Some ts)), rs, ts. simpl. auto.
  - intros [jr jt] (rs & ts & Hjr & Hjt & Hrs & Hts). simpl in *. subst jr jt.
    assert (Hmr : ∀ k v, IDB.reports db !! k = Some v → prop_id v = Some k)
      by (intros k v Hk; exact (Hdb REPORT_STORE k v Hk)).
    assert (Hmt : ∀ k v, IDB.templates db !! k = Some v → prop_id v = Some k)
      by (intros k v Hk; exact (Hdb TEMPLATE_STORE k v Hk)).
    rewrite !(importBackup_resolves eng_i) by auto. unfold upserted. simpl.
    rewrite !(restore_of_listed ReportData.id ReportRec (IDB.reports db)); auto.
    rewrite !(restore_of_listed ReportTemplate.id TemplateRec (IDB.templates db)); auto.
    split; [reflexivity |]. destruct db; reflexivity.
Qed.

Lemma backup_then_restore_witness :
  ∃ d alert,
    handleExportBackup healthy healthy "2023-11-14T12:00:00.000Z" one_draft
    = (one_draft, Some d, Some alert)
    ∧ (∃ f, reads_back d f)
    ∧ (∀ f, reads_back d f →
         handleImportBackup healthy (Text (Some f)) true fresh
         = (mkDatabase (IDB.templates one_draft) (IDB.reports one_draft) ∅,
            Some "Backup restaurado com sucesso!")
         ∧ handleImportBackup healthy (Text (Some f)) true one_draft
           = (one_draft, Some "Backup restaurado com sucesso!")).
Proof.
  apply (backup_then_restore healthy healthy healthy "2023-11-14T12:00:00.000Z" one_draft).
  - exact one_draft_consistent.
  - split; intros k v Hk.
    + simpl in Hk. apply lookup_singleton_Some in Hk as [_ <-]. eexists. reflexivity.
    + simpl in Hk. apply lookup_singleton_Some in Hk as [_ <-]. eexists. reflexivity.
  - exact healthy_working.
  - exact healthy_working.
  - reflexivity.
  - reflexivity.
Defined.

(** X12. Preferences persist and reach their readers.  After
    [toggleHideEmpty] the stored value is the new cell, so a settings
    screen mounted again shows it and [generatePDF] reads it; after
    [toggleTheme] the theme is "light" or "dark", the stored value is the
    cell, and the document has the class [dark] exactly when the theme is
    "dark".  Neither touches the photo quality. *)
Theorem preferences_persist st :
  let h := toggleHideEmpty st in
  let t := toggleTheme st in
  hideEmptyFields h = negb (hideEmptyFields st)
  ∧ hideEmptyFields (mount (localStorage h) (dark h)) = hideEmptyFields h
  ∧ pdf_hideEmptyFields (localStorage h) = hideEmptyFields h
  ∧ (theme t = "light" ∨ theme t = "dark")
  ∧ theme (mount (localStorage t) (dark t)) = theme t
  ∧ (dark t = true ↔ theme t = "dark")
  ∧ getPhotoQuality (localStorage h) = getPhotoQuality (localStorage st)
  ∧ getPhotoQuality (localStorage t) = getPhotoQuality (localStorage st).
Proof.
  simpl. unfold pdf_hideEmptyFields, getPhotoQuality, setItem, getItem.
  rewrite !lookup_insert_eq. rewrite !lookup_insert_ne by discriminate.
  split; [reflexivity |].
  split; [destruct (hideEmptyFields st); reflexivity |].
  split; [destruct (hideEmptyFields st); reflexivity |].
  destruct (bool_decide (theme st = "light")); simpl.
  - split; [right; reflexivity |]. split; [reflexivity |].
    split; [split; reflexivity |]. split; reflexivity.
  - split; [left; reflexivity |]. split; [reflexivity |].
    split; [split; discriminate |]. split; reflexivity.
Qed.

End SettingsFacts.

(** ** The report form: drafts, activity text, staged photos *)

Module FormFacts.
Import IDB Db App Props Samples Samples3 DbFacts.
Import Form Pdf.

Lemma pretty_N_go_nonempty (x : N) (s : string) :
  s ≠ "" → pretty_N_go x s ≠ "".
Proof.
  revert s. induction (N.lt_wf_0 x) as [x _ IH]; intros s Hs.
  destruct (decide (x = 0)%N) as [-> | Hx]; [rewrite pretty_N_go_0; exact Hs |].
  rewrite pretty_N_go_step by lia.
  apply IH; [apply N.div_lt; lia | discriminate].
Qed.

(** The decimal text of a number is never empty. *)
Lemma pretty_Z_nonempty (z : Z) : pretty z ≠ "".
Proof.
  assert (Hpos : ∀ p : positive, pretty p ≠ "").
  { intros p. unfold pretty, pretty_positive, pretty, pretty_N.
    destruct (decide (N.pos p = 0%N)) as [H | _]; [discriminate H |].
    rewrite pretty_N_go_step by lia. apply pretty_N_go_nonempty. discriminate. }
  destruct z as [|p|p]; unfold pretty, pretty_Z; [discriminate | apply Hpos |].
  discriminate.
Qed.

Lemma or_else_nonempty (a : option string) (b : string) :
  b ≠ "" → or_else a b ≠ "".
Proof.
  intros Hb. unfold or_else. destruct a as [s|]; [| exact Hb].
  destruct (bool_decide (s = "")) eqn:Hs; [exact Hb |].
  apply bool_decide_eq_false in Hs. exact Hs.
Qed.

Lemma or_else_Some (s b : string) : s ≠ "" → or_else (Some s) b = s.
Proof. intros Hs. unfold or_else. rewrite bool_decide_eq_false_2 by exact Hs. reflexivity. Qed.

(** X13. Saving a draft twice keeps one record.  The first
    [handleSaveDraft] (the engine serving it) stores the draft under the
    form's id, or under the clock reading when the form has none, and gives
    that id to the form; a later save of the form, however edited in
    between, replaces that record: the reports store is the original one
    with the single record of the second save under the same id, marked as
    a draft of the template and stamped with the time of the second save.
    A form that has no creation time gets a new one at each save.  Without
    a template nothing is saved. *)
Theorem handleSaveDraft_keeps_one_record
    eng1 eng2 tmpl form form' db t1 c1 u1 t2 c2 u2 :
  working eng1 → working eng2 →
  let s1 := handleSaveDraft eng1 t1 c1 u1 (Some tmpl) form db in
  let i := or_else (id form) (pretty t1) in
  id form' = id (snd (fst s1)) →
  createdAt form' = createdAt form →
  let s2 := handleSaveDraft eng2 t2 c2 u2 (Some tmpl) form' (fst (fst s1)) in
  let d2 := draft_of t2 c2 u2 tmpl form' in
  id (snd (fst s1)) = Some i
  ∧ reports (fst (fst s1)) = <[i := ReportRec (draft_of t1 c1 u1 tmpl form)]> (reports db)
  ∧ reports (fst (fst s2)) = <[i := ReportRec d2]> (reports db)
  ∧ ReportData.id d2 = i
  ∧ ReportData.templateId d2 = ReportTemplate.id tmpl
  ∧ ReportData.status d2 = Some draft
  ∧ ReportData.updatedAt d2 = Some u2
  ∧ ReportData.createdAt d2 = number_or_else (createdAt form) c2
  ∧ IDB.templates (fst (fst s2)) = IDB.templates db
  ∧ users (fst (fst s2)) = users db
  ∧ snd s1 = Some "Rascunho salvo com sucesso!"
  ∧ snd s2 = Some "Rascunho salvo com sucesso!"
  ∧ handleSaveDraft eng1 t1 c1 u1 None form db = (db, form, None).
Proof.
  intros H1 H2 s1 i Hid Hcreated s2 d2. subst s1 s2 d2 i.
  revert Hid. unfold handleSaveDraft.
  rewrite (saveReport_working eng1) by exact H1. simpl. intros Hid.
  rewrite (saveReport_working eng2) by exact H2. simpl.
  assert (Hi : or_else (id form') (pretty t2) = or_else (id form) (pretty t1)).
  { rewrite Hid. apply or_else_Some, or_else_nonempty, pretty_Z_nonempty. }
  rewrite Hi, Hcreated, insert_insert_eq.
  repeat (split; [reflexivity |]). reflexivity.
Qed.

Lemma handleSaveDraft_keeps_one_record_witness :
  let s1 := handleSaveDraft healthy 1700000000000 1700000000001 1700000000002
              (Some template_bomba) new_form fresh in
  let i := or_else (id new_form) (pretty 1700000000000) in
  let s2 := handleSaveDraft healthy 1700000005000 1700000005001 1700000005002
              (Some template_bomba) saved_form (fst (fst s1)) in
  let d2 := draft_of 1700000005000 1700000005001 1700000005002 template_bomba
              saved_form in
  id (snd (fst s1)) = Some i
  ∧ reports (fst (fst s1))
    = <[i := ReportRec (draft_of 1700000000000 1700000000001 1700000000002
                          template_bomba new_form)]> (reports fresh)
  ∧ reports (fst (fst s2)) = <[i := ReportRec d2]> (reports fresh)
  ∧ ReportData.id d2 = i
  ∧ ReportData.templateId d2 = ReportTemplate.id template_bomba
  ∧ ReportData.status d2 = Some draft
  ∧ ReportData.updatedAt d2 = Some 1700000005002
  ∧ ReportData.createdAt d2 = number_or_else (createdAt new_form) 1700000005001
  ∧ IDB.templates (fst (fst s2)) = IDB.templates fresh
  ∧ users (fst (fst s2)) = users fresh
  ∧ snd s1 = Some "Rascunho salvo com sucesso!"
  ∧ snd s2 = Some "Rascunho salvo com sucesso!"
  ∧ handleSaveDraft healthy 1700000000000 1700000000001 1700000000002 None new_form fresh
    = (fresh, new_form, None).
Proof.
  exact (handleSaveDraft_keeps_one_record healthy healthy template_bomba
           new_form saved_form fresh
           1700000000000 1700000000001 1700000000002
           1700000005000 1700000005001 1700000005002
           healthy_working healthy_working eq_refl eq_refl).
Defined.

(** Pressing the activity type buttons keeps a text that is the
    template's. *)
Lemma selectActivityType_keeps tmpl types : ∀ f,
  activityExecuted f = Some (ReportTemplate.activityExecuted tmpl) →
  activityExecuted (foldl (fun f type => selectActivityType tmpl type f) f types)
  = Some (ReportTemplate.activityExecuted tmpl).
Proof.
  induction types as [|type types IH]; intros f Hf; [exact Hf |].
  simpl. apply IH. destruct type; [reflexivity | exact Hf].
Qed.

(** X14. The activity text and the type buttons.  Pressing "Preventiva"
    puts the template's text in the form, whatever was typed, and no
    pressing of the two buttons afterwards brings the typed text back; a
    form opened for a new report of a template shows the template's text
    under any sequence of presses; and the PDF of a draft made from such a
    form prints the template's text. *)
Theorem activity_text_follows_template tmpl f today types t_id t_created t_updated :
  let pressed form := foldl (fun f type => selectActivityType tmpl type f) form types in
  activityExecuted (pressed (selectActivityType tmpl Preventiva f))
  = Some (ReportTemplate.activityExecuted tmpl)
  ∧ activityExecuted (pressed (from_template tmpl (initial today)))
    = Some (ReportTemplate.activityExecuted tmpl)
  ∧ activityText
      (draft_of t_id t_created t_updated tmpl (pressed (from_template tmpl (initial today))))
      tmpl
    = ReportTemplate.activityExecuted tmpl.
Proof.
  intros pressed. subst pressed. simpl.
  split; [apply selectActivityType_keeps; reflexivity |].
  split; [apply selectActivityType_keeps; reflexivity |].
  unfold activityText, draft_of. simpl.
  rewrite selectActivityType_keeps by reflexivity.
  unfold or_else.
  destruct (bool_decide (ReportTemplate.activityExecuted tmpl = "")) eqn:He;
    [| reflexivity].
  apply bool_decide_eq_true in He. rewrite He. reflexivity.
Qed.

(** [filter((_, i) => i !== index)] deletes position [index]. *)
Lemma filter_index_delete {A} (l : list A) : ∀ (k index : nat),
  omap (fun '(i, p) => if bool_decide (i ≠ index) then Some p else None)
    (imap (fun i x => ((k + i)%nat, x)) l)
  = if decide (k ≤ index)%nat then delete (index - k)%nat l else l.
Proof.
  induction l as [|x l IH]; intros k index.
  - destruct (decide (k ≤ index)%nat); reflexivity.
  - rewrite imap_cons. simpl.
    rewrite (imap_ext _ (fun i x => ((S k + i)%nat, x))) by (intros; unfold compose; f_equal; lia).
    rewrite IH.
    destruct (decide (k ≤ index)%nat) as [Hle | Hgt].
    + destruct (decide (k + 0 = index)%nat) as [Heq | Hne].
      * rewrite bool_decide_eq_false_2 by tauto.
        destruct (decide (S k ≤ index)%nat); [lia |].
        replace (index - k)%nat with 0%nat by lia. reflexivity.
      * rewrite bool_decide_eq_true_2 by exact Hne.
        destruct (decide (S k ≤ index)%nat); [| lia].
        replace (index - k)%nat with (S (index - S k)) by lia. reflexivity.
    + rewrite bool_decide_eq_true_2 by lia.
      destruct (decide (S k ≤ index)%nat); [lia | reflexivity].
Qed.

Lemma delete_past_end {A} (l : list A) : ∀ i,
  (length l ≤ i)%nat → delete i l = l.
Proof.
  induction l as [|x l IH]; intros i Hi; [reflexivity |].
  destruct i as [|i]; simpl in *; [lia |].
  f_equal. apply IH. lia.
Qed.

(** X15. The staged photos.  [removeStagedPhoto(index)] takes the photo at
    that position out of the staged ones, and nothing else, and does
    nothing when the position is past the end; confirming then appends what
    is left, in order, to the form's photos, empties the staging area and
    closes the preview (with nothing left the form's photos are not
    touched); cancelling empties the staging area, closes the preview and
    leaves the form's photos as they were. *)
Theorem staged_photos_flow index st :
  let removed := removeStagedPhoto index st in
  let left := delete index (stagedPhotos (staging st)) in
  stagedPhotos (staging removed) = left
  ∧ App.photos removed = App.photos st
  ∧ ((length (stagedPhotos (staging st)) ≤ index)%nat →
     stagedPhotos (staging removed) = stagedPhotos (staging st))
  ∧ App.photos (confirmStagedPhotos removed)
    = (if decide (left = []) then App.photos st
       else Some (default [] (App.photos st) ++ left))
  ∧ stagedPhotos (staging (confirmStagedPhotos removed)) = []
  ∧ isPhotoPreviewOpen (staging (confirmStagedPhotos removed)) = false
  ∧ App.photos (cancelStagedPhotos st) = App.photos st
  ∧ stagedPhotos (staging (cancelStagedPhotos st)) = []
  ∧ isPhotoPreviewOpen (staging (cancelStagedPhotos st)) = false.
Proof.
  intros removed left. subst removed left.
  assert (Hrem : stagedPhotos (staging (removeStagedPhoto index st))
                 = delete index (stagedPhotos (staging st))).
  { unfold removeStagedPhoto. simpl.
    rewrite (imap_ext pair (fun i x => ((0 + i)%nat, x))) by reflexivity.
    rewrite filter_index_delete. simpl. rewrite Nat.sub_0_r. reflexivity. }
  split; [exact Hrem |]. split; [reflexivity |].
  split; [intros Hlen; rewrite Hrem; apply delete_past_end, Hlen |].
  assert (Hph : App.photos (removeStagedPhoto index st) = App.photos st) by reflexivity.
  revert Hrem Hph. generalize (removeStagedPhoto index st). intros r Hrem Hph.
  unfold confirmStagedPhotos. rewrite Hrem.
  destruct r as [tm ld lo ph ed cam vid [sp po pp] u]. simpl in *. subst sp ph.
  destruct (delete index (stagedPhotos (staging st))) as [|p ps]; simpl.
  - repeat (split; [reflexivity |]). reflexivity.
  - repeat (split; [reflexivity |]). reflexivity.
Qed.

Section RemoveFacts.
Variable decode : string → option (Z * Z).
Variable context2d : bool.

Lemma editing_staging actions : ∀ st,
  staging (foldl (editor_step context2d) st actions) = staging st.
Proof.
  induction actions as [|a actions IH]; intros st; [reflexivity |].
  simpl. rewrite IH.
  destruct st as [tm ld lo ph ed cam vid stg u].
  destruct ed as [eo cp ec cv dm dc dr lp].
  destruct a; simpl; repeat case_match; reflexivity.
Qed.

(** X16. Removing the photo that is open in the editor.  After
    [openEditor(photo)] and any drawing and typing, [removePhoto(id)]
    leaves the form's photos that have another id, in their order, and
    none with that id: every photo carrying the id goes, and what was drawn
    or typed is gone with it.  The editor is closed and the staged photos
    are untouched. *)
Theorem removePhoto_drops_the_id photo actions id st l :
  App.photos st = Some l →
  let st' := removePhoto id
               (foldl (editor_step context2d)
                  (openEditor context2d decode photo st) actions) in
  ∃ l',
    App.photos st' = Some l'
    ∧ l' `sublist_of` l
    ∧ (∀ p, p ∈ l' ↔ p ∈ l ∧ ReportPhoto.id p ≠ id)
    ∧ editorOpen (editor st') = false
    ∧ canvas (editor st') = None
    ∧ staging st' = staging st.
Proof.
  intros Hl st'. subst st'.
  destruct (EditorFacts.editing_keeps context2d actions
              (openEditor context2d decode photo st))
    as (Hp & _).
  exists (filter (fun p => ReportPhoto.id p ≠ id) l).
  split; [| split; [apply sublist_filter | split; [| split; [| split]]]].
  - unfold removePhoto. simpl. rewrite Hp. simpl. rewrite Hl. reflexivity.
  - intros p. rewrite list_elem_of_filter. tauto.
  - reflexivity.
  - reflexivity.
  - transitivity
      (staging (foldl (editor_step context2d)
                  (openEditor context2d decode photo st) actions));
      [reflexivity | rewrite editing_staging; reflexivity].
Qed.
End RemoveFacts.

Lemma removePhoto_drops_the_id_witness :
  let st' := removePhoto (ReportPhoto.id photo_b)
               (foldl (editor_step true)
                  (openEditor true (fun _ => Some (640, 480)) photo_b two_photo_screen)
                  [TypeCaption "valvula"]) in
  ∃ l',
    App.photos st' = Some l'
    ∧ l' `sublist_of` [photo_a; photo_b]
    ∧ (∀ p, p ∈ l' ↔ p ∈ [photo_a; photo_b] ∧ ReportPhoto.id p ≠ ReportPhoto.id photo_b)
    ∧ editorOpen (editor st') = false
    ∧ canvas (editor st') = None
    ∧ staging st' = staging two_photo_screen.
Proof.
  apply (removePhoto_drops_the_id (fun _ => Some (640, 480)) true photo_b
           [TypeCaption "valvula"] (ReportPhoto.id photo_b) two_photo_screen
           [photo_a; photo_b]).
  reflexivity.
Defined.

End FormFacts.

(** ** Home screen and template form *)

Module HomeFacts.
Import IDB Db App Props Samples Samples3 DbFacts TemplateFacts StoreFacts.
Import Home Props2.

Lemma Home_loadData_working eng_t eng_r db :
  working eng_t → working eng_r →
  Home_loadData eng_t eng_r db
  = let tmpls := sort (fun a b => prop_createdAt b - prop_createdAt a)
                   (map_to_list (IDB.templates db)).*2 in
    Fulfilled
      (mkHomeScreen tmpls
         (sort (fun a b => last_change (report b) - last_change (report a))
            (map (join_title tmpls)
               (filter (fun r => prop_status r = Some draft)
                  (map_to_list (reports db)).*2)))).
Proof.
  intros Ht Hr. unfold Home_loadData.
  rewrite (getTemplates_working eng_t), (getAllReports_working eng_r) by assumption.
  reflexivity.
Qed.

(** The records listed once a key is deleted, in a store whose records sit
    under their ids. *)
Lemma listed_delete (m : gmap string Stored) id v :
  (∀ k v, m !! k = Some v → prop_id v = Some k) →
  v ∈ (map_to_list (delete id m)).*2
  ↔ v ∈ (map_to_list m).*2 ∧ prop_id v ≠ Some id.
Proof.
  intros Hm. rewrite !elem_of_listed. split.
  - intros (k & Hk). destruct (decide (k = id)) as [-> | Hne].
    + rewrite lookup_delete_eq in Hk. discriminate.
    + rewrite lookup_delete_ne in Hk by congruence.
      split; [exists k; exact Hk |]. rewrite (Hm _ _ Hk). congruence.
  - intros [(k & Hk) Hne]. exists k. rewrite lookup_delete_ne; [exact Hk |].
    intros <-. apply Hne, (Hm _ _ Hk).
Qed.

(** The drafts of the home screen are the stored drafts, each joined with
    a title. *)
Lemma elem_of_drafts compare tmpls (l : list Stored) d :
  d ∈ sort compare (map (join_title tmpls)
                      (filter (fun r => prop_status r = Some draft) l))
  ↔ ∃ r, d = join_title tmpls r ∧ prop_status r = Some draft ∧ r ∈ l.
Proof.
  rewrite sort_elem. split.
  - intros Hin. apply list_elem_of_fmap in Hin as (r & -> & Hr).
    apply list_elem_of_filter in Hr as [Hs Hr]. exists r. auto.
  - intros (r & -> & Hs & Hr). apply list_elem_of_fmap. exists r.
    split; [reflexivity |]. apply list_elem_of_filter. auto.
Qed.

(** X17. Deleting a draft from the home screen.  Confirmed, and served by
    the engine, [handleDeleteDraft(id)] deletes the report and reloads: the
    screen lists the templates it listed, and exactly the drafts it listed
    that have another id, each as before.  Declined, it changes nothing. *)
Theorem handleDeleteDraft_unlists eng_d eng_t eng_r id db st :
  consistent db → working eng_d → working eng_t → working eng_r →
  let out := handleDeleteDraft eng_d eng_t eng_r true id db st in
  ∃ home,
    Home_loadData eng_t eng_r db = Fulfilled home
    ∧ reports (fst out) = delete id (reports db)
    ∧ IDB.templates (fst out) = IDB.templates db
    ∧ users (fst out) = users db
    ∧ App.templates (snd out) = App.templates home
    ∧ (∀ d, d ∈ drafts (snd out) ↔ d ∈ drafts home ∧ prop_id (report d) ≠ Some id)
    ∧ handleDeleteDraft eng_d eng_t eng_r false id db st = (db, st).
Proof.
  intros Hdb Hd Ht Hr out. subst out. unfold handleDeleteDraft.
  rewrite deleteReport_working by exact Hd.
  rewrite !Home_loadData_working by assumption. simpl.
  eexists. split; [reflexivity |]. simpl.
  repeat (split; [reflexivity |]). split; [| reflexivity].
  intros d. rewrite !elem_of_drafts. split.
  - intros (r & -> & Hs & Hin).
    apply listed_delete in Hin as [Hin Hne];
      [| intros k v Hk; exact (Hdb REPORT_STORE k v Hk)].
    split; [exists r; auto | exact Hne].
  - intros [(r & -> & Hs & Hin) Hne]. exists r.
    split; [reflexivity |]. split; [exact Hs |].
    apply listed_delete; [intros k v Hk; exact (Hdb REPORT_STORE k v Hk) |].
    split; [exact Hin | exact Hne].
Qed.

Lemma handleDeleteDraft_unlists_witness :
  let out := handleDeleteDraft healthy healthy healthy true "1700000000000" one_draft
               (mkHomeScreen [] []) in
  ∃ home,
    Home_loadData healthy healthy one_draft = Fulfilled home
    ∧ reports (fst out) = delete "1700000000000" (reports one_draft)
    ∧ IDB.templates (fst out) = IDB.templates one_draft
    ∧ users (fst out) = users one_draft
    ∧ App.templates (snd out) = App.templates home
    ∧ (∀ d, d ∈ drafts (snd out) ↔
            d ∈ drafts home ∧ prop_id (report d) ≠ Some "1700000000000")
    ∧ handleDeleteDraft healthy healthy healthy false "1700000000000" one_draft
        (mkHomeScreen [] [])
      = (one_draft, mkHomeScreen [] []).
Proof.
  exact (handleDeleteDraft_unlists healthy healthy healthy "1700000000000" one_draft
           (mkHomeScreen [] []) one_draft_consistent
           healthy_working healthy_working healthy_working).
Defined.

(** X18. Deleting a template from the home screen.  Confirmed and served,
    [handleDeleteTemplate(id)] deletes the template and reloads: the screen
    lists exactly the templates it listed that have another id, and the
    reports of the drafts it lists are those it listed: no draft goes with
    its template.  Declined, it changes nothing. *)
Theorem handleDeleteTemplate_unlists eng_d eng_t eng_r id db st :
  consistent db → working eng_d → working eng_t → working eng_r →
  let out := handleDeleteTemplate eng_d eng_t eng_r true id db st in
  ∃ home,
    Home_loadData eng_t eng_r db = Fulfilled home
    ∧ IDB.templates (fst out) = delete id (IDB.templates db)
    ∧ reports (fst out) = reports db
    ∧ (∀ t, t ∈ App.templates (snd out) ↔
            t ∈ App.templates home ∧ prop_id t ≠ Some id)
    ∧ (∀ r, r ∈ report <$> drafts (snd out) ↔ r ∈ report <$> drafts home)
    ∧ handleDeleteTemplate eng_d eng_t eng_r false id db st = (db, st).
Proof.
  intros Hdb Hd Ht Hr out. subst out. unfold handleDeleteTemplate.
  rewrite deleteTemplate_working by exact Hd.
  rewrite !Home_loadData_working by assumption. simpl.
  eexists. split; [reflexivity |]. simpl.
  repeat (split; [reflexivity |]). split; [| split; [| reflexivity]].
  - intros t. rewrite !sort_elem.
    apply listed_delete. intros k v Hk. exact (Hdb TEMPLATE_STORE k v Hk).
  - intros r. rewrite !list_elem_of_fmap. split.
    + intros (d & -> & Hin). apply elem_of_drafts in Hin as (r & -> & Hs & Hin).
      eexists. split; [| apply elem_of_drafts; exists r; auto]. reflexivity.
    + intros (d & -> & Hin). apply elem_of_drafts in Hin as (r & -> & Hs & Hin).
      eexists. split; [| apply elem_of_drafts; exists r; auto]. reflexivity.
Qed.

Lemma handleDeleteTemplate_unlists_witness :
  let out := handleDeleteTemplate healthy healthy healthy true "1699990000000" one_draft
               (mkHomeScreen [] []) in
  ∃ home,
    Home_loadData healthy healthy one_draft = Fulfilled home
    ∧ IDB.templates (fst out) = delete "1699990000000" (IDB.templates one_draft)
    ∧ reports (fst out) = reports one_draft
    ∧ (∀ t, t ∈ App.templates (snd out) ↔
            t ∈ App.templates home ∧ prop_id t ≠ Some "1699990000000")
    ∧ (∀ r, r ∈ report <$> drafts (snd out) ↔ r ∈ report <$> drafts home)
    ∧ handleDeleteTemplate healthy healthy healthy false "1699990000000" one_draft
        (mkHomeScreen [] [])
      = (one_draft, mkHomeScreen [] []).
Proof.
  exact (handleDeleteTemplate_unlists healthy healthy healthy "1699990000000" one_draft
           (mkHomeScreen [] []) one_draft_consistent
           healthy_working healthy_working healthy_working).
Defined.

Lemma includes_empty s : includes "" s = true.
Proof. destruct s; reflexivity. Qed.

Lemma filter_all {A} (P : A → Prop) `{∀ x, Decision (P x)} (l : list A) :
  (∀ x, x ∈ l → P x) → filter P l = l.
Proof.
  induction l as [|x l IH]; intros Hall; [reflexivity |].
  rewrite filter_cons_True by (apply Hall, list_elem_of_here).
  f_equal. apply IH. intros y Hy. apply Hall, list_elem_of_further, Hy.
Qed.

Lemma join_title_nonempty tmpls r : templateTitle (join_title tmpls r) ≠ "".
Proof.
  unfold join_title. simpl. unfold or_else.
  destruct (find_template (prop_templateId r) tmpls ≫= prop_title) as [s|];
    [| discriminate].
  destruct (bool_decide (s = "")) eqn:Hs; [discriminate |].
  apply bool_decide_eq_false in Hs. exact Hs.
Qed.

Section SearchFacts.
Variable toLowerCase : string → string.

(** X19. With an empty search box the home screen shows everything it
    loaded: every draft passes the filter, whatever its fields hold,
    because the title joined to it is never empty; and, the templates store
    holding templates, every template passes. *)
Theorem empty_search_lists_everything eng_t eng_r db home :
  toLowerCase "" = "" →
  Home_loadData eng_t eng_r db = Fulfilled home →
  filteredDrafts toLowerCase "" (drafts home) = drafts home
  ∧ (well_typed db →
     filteredTemplates toLowerCase "" (App.templates home)
     = Some (App.templates home)).
Proof.
  intros Hlower Hload. unfold Home_loadData in Hload.
  destruct (getTemplates eng_t db) as [db1 [| tmpls |]] eqn:Ht;
    destruct (getAllReports eng_r db) as [db2 [| rs |]] eqn:Hr;
    try discriminate.
  injection Hload as <-. simpl. split.
  - unfold filteredDrafts. rewrite Hlower. apply filter_all.
    intros d Hd. apply sort_elem, list_elem_of_fmap in Hd as (r & -> & _).
    unfold field_matches at 4. simpl. unfold truthy.
    rewrite bool_decide_eq_false_2 by apply (join_title_nonempty _ r).
    simpl. rewrite includes_empty, !orb_true_r. reflexivity.
  - intros [Htyped _].
    assert (Hall : ∀ t, t ∈ sort (fun a b => prop_createdAt b - prop_createdAt a) tmpls
                        → ∃ x, t = TemplateRec x).
    { intros t Hin. apply sort_elem in Hin.
      unfold getTemplates, await_openDB in Ht.
      destruct (openDB eng_t); try discriminate;
        unfold one_request, transaction in Ht; simpl in Ht;
        destruct (request_error eng_t 0); try discriminate;
        simpl in Ht; injection Ht as _ <-;
        apply elem_of_listed in Hin as (k & Hk); exact (Htyped k t Hk). }
    revert Hall.
    generalize (sort (fun a b => prop_createdAt b - prop_createdAt a) tmpls).
    intros l. induction l as [|t l IH]; intros Hall; [reflexivity |].
    simpl. destruct (Hall t (list_elem_of_here _ _)) as [x ->].
    unfold template_matches. simpl. rewrite Hlower, includes_empty.
    rewrite IH; [reflexivity |].
    intros t' Ht'. apply Hall, list_elem_of_further, Ht'.
Qed.
End SearchFacts.

Lemma empty_search_lists_everything_witness :
  filteredDrafts toLowerCase_ascii "" [mkDraft (ReportRec draft_bomba) "Bomba"]
  = [mkDraft (ReportRec draft_bomba) "Bomba"]
  ∧ (well_typed one_draft →
     filteredTemplates toLowerCase_ascii "" [TemplateRec template_bomba]
     = Some [TemplateRec template_bomba]).
Proof.
  exact (empty_search_lists_everything toLowerCase_ascii healthy healthy one_draft
           (mkHomeScreen [TemplateRec template_bomba]
              [mkDraft (ReportRec draft_bomba) "Bomba"])
           eq_refl eq_refl).
Defined.

(** The first record with a given id, in a list that has one and where it
    is the only one. *)
Lemma find_template_unique id t tmpls :
  t ∈ tmpls → prop_id t = Some id →
  (∀ t', t' ∈ tmpls → prop_id t' = Some id → t' = t) →
  find_template (Some id) tmpls = Some t.
Proof.
  unfold find_template. induction tmpls as [|x tmpls IH]; intros Hin Hid Huniq.
  - apply elem_of_nil in Hin. destruct Hin.
  - simpl. destruct (bool_decide (prop_id x = Some id)) eqn:Hx.
    + apply bool_decide_eq_true in Hx. f_equal.
      apply Huniq; [apply list_elem_of_here | exact Hx].
    + apply bool_decide_eq_false in Hx.
      apply elem_of_cons in Hin as [-> | Hin]; [congruence |].
      apply IH; [exact Hin | exact Hid |].
      intros t' Ht'. apply Huniq, list_elem_of_further, Ht'.
Qed.

(** X20. Creating a template.  With the three fields filled and the engine
    serving, [handleSave] stores the template under the text of the clock
    reading, touches nothing else and navigates home; the home screen then
    lists it, and the report screen opened for its id finds it, without any
    alert. *)
Theorem handleSave_creates_template eng eng_t eng_r t_id t_created scr db st :
  consistent db → working eng → working eng_t → working eng_r →
  title scr ≠ "" → omDesc scr ≠ "" → activity scr ≠ "" →
  let new :=
    ReportTemplate.mk (pretty t_id) (title scr) (omDesc scr) (activity scr) t_created in
  let out := handleSave eng t_id t_created scr db in
  let db' := fst (fst out) in
  IDB.templates db' = <[pretty t_id := TemplateRec new]> (IDB.templates db)
  ∧ reports db' = reports db
  ∧ users db' = users db
  ∧ snd (fst out) = None
  ∧ snd out = Some "/"
  ∧ (∃ home, Home_loadData eng_t eng_r db' = Fulfilled home
             ∧ TemplateRec new ∈ App.templates home)
  ∧ (let st' := Report_loadData eng_r eng_t None (Some (pretty t_id)) db' st in
     template st' = Some (TemplateRec new)
     ∧ loading st' = false
     ∧ ui st' = ui st).
Proof.
  intros Hdb He Ht Hr Htitle Hdesc Hact new out db'. subst db' out.
  unfold handleSave.
  rewrite !bool_decide_eq_false_2 by assumption. simpl.
  rewrite saveTemplate_working by exact He. simpl. fold new.
  repeat (split; [reflexivity |]).
  assert (Hin : TemplateRec new
                ∈ (map_to_list (<[pretty t_id := TemplateRec new]> (IDB.templates db))).*2).
  { apply elem_of_listed. exists (pretty t_id). apply lookup_insert_eq. }
  split.
  - rewrite Home_loadData_working by assumption. simpl.
    eexists. split; [reflexivity |]. simpl. apply sort_elem, Hin.
  - unfold Report_loadData. simpl. unfold truthy.
    rewrite bool_decide_eq_false_2 by apply FormFacts.pretty_Z_nonempty.
    rewrite (getTemplates_working eng_t) by exact Ht. simpl.
    rewrite (find_template_unique (pretty t_id) (TemplateRec new));
      [repeat split | exact Hin | reflexivity |].
    intros t' Ht' Hid. apply elem_of_listed in Ht' as (k & Hk).
    destruct (decide (k = pretty t_id)) as [-> | Hne].
    + rewrite lookup_insert_eq in Hk. congruence.
    + rewrite lookup_insert_ne in Hk by congruence.
      apply (Hdb TEMPLATE_STORE) in Hk. simpl in Hk. congruence.
Qed.

Lemma handleSave_creates_template_witness :
  let new :=
    ReportTemplate.mk (pretty 1699990000000) (title template_form) (omDesc template_form)
      (activity template_form) 1699990000001 in
  let out := handleSave healthy 1699990000000 1699990000001 template_form fresh in
  let db' := fst (fst out) in
  IDB.templates db' = <[pretty 1699990000000 := TemplateRec new]> (IDB.templates fresh)
  ∧ reports db' = reports fresh
  ∧ users db' = users fresh
  ∧ snd (fst out) = None
  ∧ snd out = Some "/"
  ∧ (∃ home, Home_loadData healthy healthy db' = Fulfilled home
             ∧ TemplateRec new ∈ App.templates home)
  ∧ (let st' := Report_loadData healthy healthy None (Some (pretty 1699990000000)) db'
                  initial_screen in
     template st' = Some (TemplateRec new)
     ∧ loading st' = false
     ∧ ui st' = ui initial_screen).
Proof.
  apply (handleSave_creates_template healthy healthy healthy 1699990000000 1699990000001
           template_form fresh initial_screen).
  - exact fresh_consistent.
  - exact healthy_working.
  - exact healthy_working.
  - exact healthy_working.
  - discriminate.
  - discriminate.
  - discriminate.
Defined.

(** X21. [handleSave] navigates home only after it has saved: if it
    navigates, the three fields were filled; and if any field is empty, or
    the engine does not serve the write, the database is left as it was
    and the screen stays, with the alert "Preencha todos os campos" in the
    first case and none in the second. *)
Theorem handleSave_stays_unless_saved eng t_id t_created scr db :
  let out := handleSave eng t_id t_created scr db in
  (snd out = Some "/" → title scr ≠ "" ∧ omDesc scr ≠ "" ∧ activity scr ≠ "")
  ∧ (title scr = "" ∨ omDesc scr = "" ∨ activity scr = "" →
     out = (db, Some "Preencha todos os campos", None))
  ∧ (¬ working eng → fst (fst out) = db ∧ snd out = None).
Proof.
  intros out. subst out. unfold handleSave.
  destruct (bool_decide (title scr = "")) eqn:H1;
    destruct (bool_decide (omDesc scr = "")) eqn:H2;
    destruct (bool_decide (activity scr = "")) eqn:H3; simpl;
    try apply bool_decide_eq_true in H1; try apply bool_decide_eq_true in H2;
    try apply bool_decide_eq_true in H3;
    try apply bool_decide_eq_false in H1; try apply bool_decide_eq_false in H2;
    try apply bool_decide_eq_false in H3;
    try (split; [discriminate | split; [reflexivity | intros _; split; reflexivity]]).
  split; [intros _; auto |]. split; [tauto |].
  intros Hfail.
  destruct (unserved_write_for_template eng db
              (ReportTemplate.mk (pretty t_id) (title scr) (omDesc scr) (activity scr)
                 t_created) Hfail) as [Hdb Hrej].
  destruct (saveTemplate eng _ db) as [db' [| u |]]; simpl in *;
    try discriminate; split; auto.
Qed.

End HomeFacts.

(** ** The PDF: the photo grid *)

Module PdfFacts.
Import IDB Db App Props Samples.
Import Pdf.

Section GridFacts.
Variable code_units : string → nat.
Variable addImage_ok : string → bool.
Variable splitTextToSize : string → Z → TextLines.
Variable bottom : Q.
Variable low : Q.

Lemma at_or_after_mono pg y0 pg' y0' a :
  (pg < pg')%nat ∨ (pg' = pg ∧ y0 ≤ y0') →
  at_or_after pg' y0' a → at_or_after pg y0 a.
Proof. destruct a as [[pa xa] ya]. unfold at_or_after. lia. Qed.

(** One photo, one picture: where it is drawn and where the cursor goes. *)
Lemma place_photo_picture index photo c :
  let c1 := broken bottom index photo c in
  pictures (snd (place_photo code_units addImage_ok splitTextToSize bottom index photo c))
  = [(page c1, xPos c1, y c1)]
  ∧ fst (place_photo code_units addImage_ok splitTextToSize bottom index photo c)
    = (if Nat.even index
       then mkCursor (page c1) (y c1) (xPos c1 + (imgWidth + 10))
       else mkCursor (page c1) (y c1 + (imgHeight + 20)) margin).
Proof.
  unfold place_photo, broken.
  destruct (Nat.even index && _); simpl;
    (split; [| reflexivity]);
    destruct (negb (bool_decide (ReportPhoto.base64 photo = ""))
              && Nat.ltb 100 (code_units (ReportPhoto.base64 photo)));
    try reflexivity;
    destruct (addImage_ok _); try reflexivity;
    destruct (ReportPhoto.caption photo ≫= truthy); reflexivity.
Qed.

Lemma exceeds_false a b : exceeds a b = false → (inject_Z a <= b)%Q.
Proof.
  unfold exceeds. intros H. apply negb_false_iff in H.
  apply Qle_bool_iff, H.
Qed.

(** After the check, on an even index, the image fits above the bottom
    margin. *)
Lemma broken_fits index photo c :
  (inject_Z 80 <= bottom)%Q →
  Nat.even index = true →
  (inject_Z (y (broken bottom index photo c) + 65) <= bottom)%Q.
Proof.
  intros Hbottom Heven. unfold broken. rewrite Heven. simpl.
  destruct (exceeds _ bottom) eqn:He; simpl; [exact Hbottom |].
  apply exceeds_false in He.
  eapply Qle_trans; [| exact He].
  rewrite <- Zle_Qle. unfold imgHeight.
  destruct (ReportPhoto.caption photo ≫= truthy); lia.
Qed.

Lemma broken_after index photo c :
  (page c < page (broken bottom index photo c))%nat
  ∨ (page (broken bottom index photo c) = page c ∧ y c ≤ y (broken bottom index photo c)).
Proof.
  unfold broken. destruct (Nat.even index && _); simpl; lia.
Qed.

Lemma broken_odd index photo c :
  Nat.even index = false → broken bottom index photo c = c.
Proof. intros H. unfold broken. rewrite H. reflexivity. Qed.

Lemma broken_xPos index photo c :
  xPos c = margin → xPos (broken bottom index photo c) = margin.
Proof. intros H. unfold broken. destruct (Nat.even index && _); [reflexivity | exact H]. Qed.

Lemma pairwise_lookup {A} (R : A → A → Prop) (l : list A) :
  pairwise R l →
  ∀ j k a b, (j < k)%nat → l !! j = Some a → l !! k = Some b → R a b.
Proof.
  induction l as [|x l IH]; intros Hl j k a b Hjk Hj Hk; [discriminate Hj |].
  destruct Hl as [Hx Hl]. destruct k as [|k]; [lia |]. simpl in Hk.
  destruct j as [|j]; simpl in Hj.
  - injection Hj as <-. rewrite Forall_lookup in Hx. exact (Hx k b Hk).
  - apply (IH Hl j k a b); [lia | exact Hj | exact Hk].
Qed.

Lemma apart_rows pg x x' y0 (b : nat * Z * Z) :
  at_or_after pg (y0 + (imgHeight + 20)) b →
  ¬ overlap (pg, x, y0) b ∧ ¬ overlap b (pg, x', y0).
Proof.
  destruct b as [[pb xb] yb]. unfold at_or_after, overlap, imgHeight, imgWidth.
  intros H. split; intros (? & ? & ? & ? & ?); lia.
Qed.

Lemma apart_columns pg y0 y1 :
  ¬ overlap (pg, margin, y0) (pg, margin + (imgWidth + 10), y1)
  ∧ ¬ overlap (pg, margin + (imgWidth + 10), y1) (pg, margin, y0).
Proof.
  unfold overlap, margin, imgWidth. split; intros (? & ? & ? & ? & ?); lia.
Qed.

Lemma photo_grid_cons index photo photos c :
  photo_grid code_units addImage_ok splitTextToSize bottom index (photo :: photos) c
  = (fst (photo_grid code_units addImage_ok splitTextToSize bottom (S index) photos
            (fst (place_photo code_units addImage_ok splitTextToSize bottom index photo c))),
     snd (place_photo code_units addImage_ok splitTextToSize bottom index photo c)
     ++ snd (photo_grid code_units addImage_ok splitTextToSize bottom (S index) photos
               (fst (place_photo code_units addImage_ok splitTextToSize bottom index photo c)))).
Proof.
  cbn [photo_grid].
  destruct (place_photo code_units addImage_ok splitTextToSize bottom index photo c) as [c1 d1].
  cbn [fst snd].
  destruct (photo_grid code_units addImage_ok splitTextToSize bottom (S index) photos c1) as [c2 d2].
  reflexivity.
Qed.

Lemma pictures_app d1 d2 : pictures (d1 ++ d2) = pictures d1 ++ pictures d2.
Proof. apply omap_app. Qed.

Lemma photo_grid_laid_out photos : ∀ index c,
  xPos c = (if Nat.even index then margin else margin + (imgWidth + 10)) →
  length (pictures (snd (photo_grid code_units addImage_ok splitTextToSize bottom index photos c)))
  = length photos
  ∧ laid_out index c
      (pictures (snd (photo_grid code_units addImage_ok splitTextToSize bottom index photos c))).
Proof.
  induction photos as [|photo photos IH]; intros index c Hx.
  { split; [reflexivity |]. split; [exact I |].
    split; [intros k pg x y0 Hk; discriminate Hk |].
    destruct (Nat.even index); [constructor | exact I]. }
  rewrite photo_grid_cons. cbn [fst snd].
  destruct (place_photo_picture index photo c) as [Hpic Hcur].
  rewrite pictures_app, Hpic, Hcur. clear Hpic Hcur.
  set (c0 := broken bottom index photo c).
  pose proof (broken_after index photo c) as Hafter. fold c0 in Hafter.
  destruct (Nat.even index) eqn:Heven.
  - (* left column *)
    pose proof (broken_xPos index photo c Hx) as Hbx. fold c0 in Hbx.
    destruct (IH (S index) (mkCursor (page c0) (y c0) (xPos c0 + (imgWidth + 10))))
      as [Hlen (Hsorted & Hcol & Hrest)].
    { rewrite Nat.even_succ, <- Nat.negb_even, Heven. simpl. rewrite Hbx. reflexivity. }
    rewrite Nat.even_succ, <- Nat.negb_even, Heven in Hrest. cbn [negb page y xPos] in Hrest.
    revert Hlen Hsorted Hcol Hrest.
    generalize (pictures (snd (photo_grid code_units addImage_ok splitTextToSize bottom (S index) photos
                                 (mkCursor (page c0) (y c0) (xPos c0 + (imgWidth + 10)))))).
    intros pics Hlen Hsorted Hcol Hrest.
    split; [simpl; rewrite Hlen; reflexivity |].
    split; [| split].
    + split; [| exact Hsorted].
      destruct pics as [|a rest]; [constructor |].
      destruct Hrest as [-> Hrest]. rewrite Hbx. constructor.
      * apply apart_columns.
      * eapply Forall_impl; [exact Hrest |]. intros b Hb.
        apply (apart_rows _ _ _ _ _ Hb).
    + intros [|k] pg x y0 Hk; simpl in Hk.
      * injection Hk as <- <- <-. rewrite Nat.add_0_r, Heven. exact Hbx.
      * rewrite (Hcol k pg x y0 Hk).
        replace (index + S k)%nat with (S index + k)%nat by lia. reflexivity.
    + rewrite Heven. constructor.
      * simpl. lia.
      * destruct pics as [|a rest]; [constructor |].
        destruct Hrest as [-> Hrest]. constructor.
        -- simpl. lia.
        -- eapply Forall_impl; [exact Hrest |]. intros b Hb.
           eapply at_or_after_mono; [| exact Hb].
           unfold imgHeight. lia.
  - (* right column *)
    assert (Hc0 : c0 = c) by (apply broken_odd; exact Heven).
    clearbody c0. subst c0.
    destruct (IH (S index) (mkCursor (page c) (y c + (imgHeight + 20)) margin))
      as [Hlen (Hsorted & Hcol & Hrest)].
    { rewrite Nat.even_succ, <- Nat.negb_even, Heven. reflexivity. }
    rewrite Nat.even_succ, <- Nat.negb_even, Heven in Hrest. cbn [negb page y xPos] in Hrest.
    revert Hlen Hsorted Hcol Hrest.
    generalize (pictures (snd (photo_grid code_units addImage_ok splitTextToSize bottom (S index) photos
                                 (mkCursor (page c) (y c + (imgHeight + 20)) margin)))).
    intros pics Hlen Hsorted Hcol Hrest.
    split; [simpl; rewrite Hlen; reflexivity |].
    split; [| split].
    + split; [| exact Hsorted].
      eapply Forall_impl; [exact Hrest |]. intros b Hb.
      apply (apart_rows _ _ _ _ _ Hb).
    + intros [|k] pg x y0 Hk; simpl in Hk.
      * injection Hk as <- <- <-. rewrite Nat.add_0_r, Heven. exact Hx.
      * rewrite (Hcol k pg x y0 Hk).
        replace (index + S k)%nat with (S index + k)%nat by lia. reflexivity.
    + rewrite Heven. split; [reflexivity | exact Hrest].
Qed.

(** Every picture leaves room for its image above the bottom margin. *)
Lemma photo_grid_fits photos : ∀ index c,
  (inject_Z 80 <= bottom)%Q →
  (Nat.even index = false → (inject_Z (y c + 65) <= bottom)%Q) →
  Forall (fun a => (inject_Z (snd a + 65) <= bottom)%Q)
    (pictures (snd (photo_grid code_units addImage_ok splitTextToSize bottom index photos c))).
Proof.
  induction photos as [|photo photos IH]; intros index c Hbottom Hodd;
    [constructor |].
  rewrite photo_grid_cons. cbn [fst snd].
  destruct (place_photo_picture index photo c) as [Hpic Hcur].
  rewrite pictures_app, Hpic, Hcur. clear Hpic Hcur.
  assert (Hfit : (inject_Z (y (broken bottom index photo c) + 65) <= bottom)%Q).
  { destruct (Nat.even index) eqn:Heven.
    - apply broken_fits; assumption.
    - rewrite broken_odd by exact Heven. apply Hodd. reflexivity. }
  constructor; [exact Hfit |].
  apply IH; [exact Hbottom |]. rewrite Nat.even_succ, <- Nat.negb_even.
  destruct (Nat.even index) eqn:Heven; [| discriminate].
  intros _. exact Hfit.
Qed.

(** The picture of a photo is among what is drawn for it. *)
Lemma place_photo_shows index photo c :
  let c0 := broken bottom index photo c in
  picture_for code_units addImage_ok photo (page c0) (xPos c0) (y c0)
  ∈ snd (place_photo code_units addImage_ok splitTextToSize bottom index photo c).
Proof.
  unfold place_photo, broken, picture_for. cbn [snd].
  set (c0 := if Nat.even index && _ then _ else c). clearbody c0. cbv zeta.
  destruct (negb (bool_decide (ReportPhoto.base64 photo = ""))
            && Nat.ltb 100 (code_units (ReportPhoto.base64 photo))); simpl;
    [| apply list_elem_of_here].
  destruct (addImage_ok _); apply list_elem_of_here.
Qed.

(** The [k]-th picture is the picture of the [k]-th photo. *)
Lemma photo_grid_shows photos : ∀ index c k photo,
  photos !! k = Some photo →
  ∃ pg x y1,
    pictures (snd (photo_grid code_units addImage_ok splitTextToSize bottom index photos c))
    !! k = Some (pg, x, y1)
    ∧ picture_for code_units addImage_ok photo pg x y1
      ∈ snd (photo_grid code_units addImage_ok splitTextToSize bottom index photos c).
Proof.
  induction photos as [|photo0 photos IH]; intros index c k photo Hk;
    [discriminate Hk |].
  rewrite photo_grid_cons. cbn [fst snd].
  destruct (place_photo_picture index photo0 c) as [Hpic _].
  rewrite pictures_app, Hpic.
  destruct k as [|k]; simpl in Hk.
  - injection Hk as ->. eexists _, _, _. split; [reflexivity |].
    apply elem_of_app. left. apply place_photo_shows.
  - destruct (IH (S index)
                (fst (place_photo code_units addImage_ok splitTextToSize bottom
                        index photo0 c)) k photo Hk)
      as (pg & x & y1 & Hlook & Hin).
    exists pg, x, y1. split; [exact Hlook |].
    apply elem_of_app. right. exact Hin.
Qed.

(** X22. The photo grid.  Whatever the page height and wherever the
    section starts: every photo of the report gets one picture, the
    [k]-th picture being that of the [k]-th photo (the image of its data,
    or the placeholder); the pictures are in the left column (x = 15) when
    their index is even and in the right one (x = 105) when it is odd; and
    no two pictures overlap, on any page.  When the page leaves 80 units
    above the bottom margin (15 + 60 + 5 at the top of a page), the 60
    units of every image, and 5 more, lie above the bottom margin. *)
Theorem photo_grid_layout photos page0 y0 :
  let ds :=
    snd (photo_section code_units addImage_ok splitTextToSize bottom low photos
           page0 y0) in
  let pics := pictures ds in
  length pics = length photos
  ∧ (∀ k photo, photos !! k = Some photo →
       ∃ pg x y1, pics !! k = Some (pg, x, y1)
                  ∧ picture_for code_units addImage_ok photo pg x y1 ∈ ds)
  ∧ (∀ k pg x y1, pics !! k = Some (pg, x, y1) →
       x = (if Nat.even k then 15 else 105))
  ∧ (∀ j k a b, j ≠ k → pics !! j = Some a → pics !! k = Some b → ¬ overlap a b)
  ∧ ((inject_Z 80 <= bottom)%Q →
     ∀ k pg x y1, pics !! k = Some (pg, x, y1) →
       (inject_Z (y1 + 60 + 5) <= bottom)%Q).
Proof.
  intros ds pics. subst pics ds. unfold photo_section.
  destruct photos as [|photo photos].
  { simpl. split; [reflexivity |].
    split; [intros; discriminate |]. split; [intros; discriminate |].
    split; intros; discriminate. }
  set (c := mkCursor _ _ margin).
  destruct (photo_grid_laid_out (photo :: photos) 0 c eq_refl)
    as [Hlen (Hsorted & Hcol & _)].
  split; [exact Hlen |].
  split; [intros k p Hk; exact (photo_grid_shows (photo :: photos) 0 c k p Hk) |].
  split; [intros k pg x y1 Hk; exact (Hcol k pg x y1 Hk) |].
  split.
  - intros j k a b Hjk Hj Hk.
    destruct (decide (j < k)%nat) as [Hlt | Hge].
    + exact (proj1 (pairwise_lookup _ _ Hsorted j k a b Hlt Hj Hk)).
    + assert (Hlt : (k < j)%nat) by lia.
      exact (proj2 (pairwise_lookup _ _ Hsorted k j b a Hlt Hk Hj)).
  - intros Hbottom k pg x y1 Hk.
    pose proof (photo_grid_fits (photo :: photos) 0 c Hbottom
                  ltac:(discriminate)) as Hfits.
    rewrite Forall_lookup in Hfits. specialize (Hfits k _ Hk). simpl in Hfits.
    replace (y1 + 60 + 5) with (y1 + 65) by lia. exact Hfits.
Qed.

Lemma after_comma_until_comma s : after_comma (until_comma s) = None.
Proof.
  induction s as [|a s IH]; [reflexivity |]. simpl.
  destruct (Ascii.eqb a comma) eqn:Ha; [reflexivity |].
  simpl. rewrite Ha. exact IH.
Qed.

(** What is handed to [addImage] has no comma. *)
Lemma data_no_comma b : after_comma (default b (split_comma_1 b)) = None.
Proof.
  unfold split_comma_1. destruct (after_comma b) as [rest|] eqn:Hb; simpl;
    [apply after_comma_until_comma | exact Hb].
Qed.

Lemma drawn_well_mono photos photos' ds ds' d :
  (∀ p, p ∈ photos → p ∈ photos') → (∀ d, d ∈ ds → d ∈ ds') →
  drawn_well code_units addImage_ok splitTextToSize photos ds d →
  drawn_well code_units addImage_ok splitTextToSize photos' ds' d.
Proof.
  intros Hp Hd. destruct d as [pg data x y1 | pg x y1 | pg text x y1]; simpl.
  - intros (Hok & Hcomma & p & Hin & Hlen & Hdata). eauto 10.
  - auto.
  - intros (p & caption & Hin & Hcap & Hne & Htext & Himg).
    exists p, caption. auto 10.
Qed.

Lemma truthy_nonempty s t : truthy s = Some t → t ≠ "".
Proof.
  unfold truthy. destruct (bool_decide (s = "")) eqn:Hs; [discriminate |].
  intros [= <-]. apply bool_decide_eq_false in Hs. exact Hs.
Qed.

Lemma place_photo_drawn_well index photo c d :
  d ∈ snd (place_photo code_units addImage_ok splitTextToSize bottom index photo c) →
  drawn_well code_units addImage_ok splitTextToSize [photo]
    (snd (place_photo code_units addImage_ok splitTextToSize bottom index photo c)) d.
Proof.
  unfold place_photo. cbn [snd].
  set (c0 := if Nat.even index && _ then _ else c). clearbody c0.
  destruct (negb (bool_decide (ReportPhoto.base64 photo = ""))
            && Nat.ltb 100 (code_units (ReportPhoto.base64 photo))) eqn:Hvalid.
  - apply andb_true_iff in Hvalid as [_ Hlen]. apply Nat.ltb_lt in Hlen.
    destruct (addImage_ok _) eqn:Hok.
    + destruct (ReportPhoto.caption photo ≫= truthy) as [text|] eqn:Hcap.
      * intros Hd. apply elem_of_cons in Hd as [-> | Hd].
        -- simpl. split; [exact Hok |]. split; [apply data_no_comma |].
           exists photo. split; [apply list_elem_of_here | auto].
        -- apply list_elem_of_singleton in Hd as ->. simpl.
           destruct (ReportPhoto.caption photo) as [s|] eqn:Hs; [| discriminate].
           simpl in Hcap. pose proof (truthy_nonempty _ _ Hcap) as Hne.
           unfold truthy in Hcap.
           destruct (bool_decide (s = "")); [discriminate |].
           injection Hcap as <-.
           exists photo, s. split; [apply list_elem_of_here |].
           split; [exact Hs |]. split; [exact Hne |]. split; [reflexivity |].
           replace (y c0 + imgHeight + 5 - 65) with (y c0)
             by (unfold imgHeight; lia).
           apply list_elem_of_here.
      * intros Hd. apply list_elem_of_singleton in Hd as ->.
        simpl. split; [exact Hok |]. split; [apply data_no_comma |].
        exists photo. split; [apply list_elem_of_here | auto].
    + intros Hd. apply list_elem_of_singleton in Hd as ->. exact I.
  - intros Hd. apply list_elem_of_singleton in Hd as ->. exact I.
Qed.

Lemma photo_grid_drawn_well photos : ∀ index c d,
  d ∈ snd (photo_grid code_units addImage_ok splitTextToSize bottom index photos c) →
  drawn_well code_units addImage_ok splitTextToSize photos
    (snd (photo_grid code_units addImage_ok splitTextToSize bottom index photos c)) d.
Proof.
  induction photos as [|photo photos IH]; intros index c d Hd.
  { apply elem_of_nil in Hd. destruct Hd. }
  revert Hd. rewrite photo_grid_cons. cbn [snd]. intros Hd.
  apply elem_of_app in Hd as [Hd | Hd].
  - eapply drawn_well_mono; [| | exact (place_photo_drawn_well index photo c d Hd)].
    + intros p Hp. apply list_elem_of_singleton in Hp as ->. apply list_elem_of_here.
    + intros d' Hd'. apply elem_of_app. left. exact Hd'.
  - eapply drawn_well_mono; [| | exact (IH _ _ d Hd)].
    + intros p Hp. apply list_elem_of_further, Hp.
    + intros d' Hd'. apply elem_of_app. right. exact Hd'.
Qed.

(** X23. What the photo loop draws.  An image is drawn only for a photo
    whose data has more than 100 code units, and only when [addImage]
    takes it; the data handed to [addImage] is the photo's data, or what
    stands between its first comma and the next, and so never contains a
    comma.  A caption is only drawn for a photo that has one, not empty,
    and whose image was drawn: the placeholder never has a caption.  What
    is written is the caption as [splitTextToSize] wraps it to the width
    of the image, the lines joined by line feeds, 65 units below the top
    edge of that photo's image and in its column. *)
Theorem photo_grid_content photos page0 y0 :
  let ds :=
    snd (photo_section code_units addImage_ok splitTextToSize bottom low photos
           page0 y0) in
  (∀ pg data x y1, Image pg data x y1 ∈ ds →
     addImage_ok data = true
     ∧ after_comma data = None
     ∧ ∃ p, p ∈ photos
            ∧ (100 < code_units (ReportPhoto.base64 p))%nat
            ∧ data = default (ReportPhoto.base64 p)
                       (split_comma_1 (ReportPhoto.base64 p)))
  ∧ (∀ pg text x y1, Caption pg text x y1 ∈ ds →
       ∃ p caption,
         p ∈ photos
         ∧ ReportPhoto.caption p = Some caption
         ∧ caption ≠ ""
         ∧ text = finalCaption (splitTextToSize caption 80)
         ∧ Image pg (default (ReportPhoto.base64 p)
                       (split_comma_1 (ReportPhoto.base64 p))) x (y1 - 65) ∈ ds).
Proof.
  intros ds. subst ds. unfold photo_section.
  destruct photos as [|photo photos].
  { simpl. split; intros; exfalso; eapply not_elem_of_nil; eassumption. }
  split.
  - intros pg data x y1 Hd. exact (photo_grid_drawn_well _ _ _ _ Hd).
  - intros pg text x y1 Hd. exact (photo_grid_drawn_well _ _ _ _ Hd).
Qed.
End GridFacts.

(** On an A4 page: two photos side by side, above the bottom margin. *)
Lemma photo_grid_layout_witness :
  let ds :=
    snd (photo_section String.length (fun _ => true) (fun text _ => Lines [text])
           282 237 [photo_a; photo_b] 0 200) in
  let pics := pictures ds in
  pics = [(0%nat, 15, 210); (0%nat, 105, 210)]
  ∧ length pics = length [photo_a; photo_b]
  ∧ (∀ k photo, [photo_a; photo_b] !! k = Some photo →
       ∃ pg x y1, pics !! k = Some (pg, x, y1)
                  ∧ picture_for String.length (fun _ => true) photo pg x y1 ∈ ds)
  ∧ (∀ k pg x y1, pics !! k = Some (pg, x, y1) →
       x = (if Nat.even k then 15 else 105))
  ∧ (∀ j k a b, j ≠ k → pics !! j = Some a → pics !! k = Some b → ¬ overlap a b)
  ∧ (∀ k pg x y1, pics !! k = Some (pg, x, y1) →
       (inject_Z (y1 + 60 + 5) <= 282)%Q).
Proof.
  split; [vm_compute; reflexivity |].
  destruct (photo_grid_layout String.length (fun _ => true) (fun text _ => Lines [text])
              282 237 [photo_a; photo_b] 0 200)
    as (Hlen & Hshows & Hcol & Hapart & Hfits).
  split; [exact Hlen |]. split; [exact Hshows |]. split; [exact Hcol |].
  split; [exact Hapart |].
  apply Hfits. unfold Qle. simpl. lia.
Defined.

End PdfFacts.

(** ** The service worker *)

Module SwFacts.
Import Home ServiceWorker.

Lemma activate_fold {Cache} (names : list string) : ∀ (caches : gmap string Cache) name,
  foldl (fun caches cacheName =>
           if bool_decide (cacheName ≠ CACHE_NAME) then delete cacheName caches
           else caches) caches names !! name
  = if decide (name ∈ names ∧ name ≠ CACHE_NAME) then None else caches !! name.
Proof.
  induction names as [|n names IH]; intros caches name; cbn [foldl].
  - case_decide as H; [| reflexivity].
    destruct H as [H _]. apply elem_of_nil in H. destruct H.
  - rewrite IH.
    destruct (bool_decide (n ≠ CACHE_NAME)) eqn:Hn;
      [apply bool_decide_eq_true in Hn | apply bool_decide_eq_false in Hn];
      repeat case_decide;
      repeat match goal with
             | H : context [_ ∈ _ :: _] |- _ => rewrite elem_of_cons in H
             end;
      try reflexivity; try tauto;
      destruct (decide (name = n)) as [-> | Hne];
      try tauto;
      try (exfalso; tauto);
      try (rewrite lookup_delete_eq; reflexivity);
      try (rewrite lookup_delete_ne by congruence; reflexivity).
Qed.

(** X24. Activation cleans up.  After the [activate] listener, the one
    cache the origin may hold is the one named [CACHE_NAME], and it is the
    one that was there before: every cache of another name is deleted. *)
Theorem activate_keeps_current_cache {Cache} (caches : CacheStorage Cache) name :
  activate Cache caches !! name
  = if decide (name = CACHE_NAME) then caches !! name else None.
Proof.
  unfold activate, CacheStorage in *. rewrite activate_fold.
  repeat case_decide; try reflexivity; try tauto.
  destruct (caches !! name) as [c|] eqn:Hc; [| reflexivity].
  exfalso. match goal with H : ¬ (_ ∧ _) |- _ => apply H end.
  split; [| assumption].
  apply list_elem_of_fmap. exists (name, c). split; [reflexivity |].
  apply elem_of_map_to_list, Hc.
Qed.

Lemma prefix_app (a b : string) : String.prefix a (a +:+ b) = true.
Proof.
  induction a as [|c a IH]; simpl; [destruct b; reflexivity |].
  destruct (Ascii.ascii_dec c c) as [_ | Hne]; [exact IH | congruence].
Qed.

(** X25. Every asset the worker caches when it is installed is a request
    its [fetch] listener answers: for each entry of [ASSETS_TO_CACHE], the
    guard lets the URL through, whatever the origin and the directory the
    worker is served from. *)
Theorem precached_assets_are_intercepted origin dir :
  Forall (fun asset => intercepts origin (resolve origin dir asset) = true)
    ASSETS_TO_CACHE.
Proof.
  unfold ASSETS_TO_CACHE, intercepts.
  repeat (apply Forall_cons; split);
    try apply Forall_nil; try exact I;
    try (simpl resolve; rewrite prefix_app; reflexivity);
    try (destruct (String.prefix origin _); vm_compute; reflexivity).
Qed.

End SwFacts.

(** ** From the form to the store and back *)

Module JourneyFacts.
Import IDB Db App Props Samples Samples3 DbFacts TemplateFacts StoreFacts.
Import Form.

(** X26. A draft that was saved can be reopened.  Let the template of the
    screen be stored, in stores whose records sit under their ids, and let
    the engine serve each request.  After [handleSaveDraft], [getReport] of
    the draft's id resolves with the draft; the report screen opened for
    that id loads it with the photos of the form, finds its template and
    shows no alert; the home screen lists the draft under the template's
    title; and a save of the form as reopened keeps the draft's id, its
    photos and (when it is not zero) its creation time. *)
Theorem saved_draft_reopens eng_s eng_g eng_t eng_r tmpl form db t_id t_created t_updated st :
  consistent db →
  working eng_s → working eng_g → working eng_t → working eng_r →
  IDB.templates db !! ReportTemplate.id tmpl = Some (TemplateRec tmpl) →
  let d := draft_of t_id t_created t_updated tmpl form in
  let db' := fst (fst (handleSaveDraft eng_s t_id t_created t_updated (Some tmpl) form db)) in
  getReport eng_g (ReportData.id d) db' = (db', Fulfilled (Some (ReportRec d)))
  ∧ (let st' := Report_loadData eng_g eng_t (Some (ReportData.id d)) None db' st in
     loaded st' = Some (ReportRec d)
     ∧ App.photos st' = Some (Form.photos form)
     ∧ template st' = Some (TemplateRec tmpl)
     ∧ loading st' = false
     ∧ ui st' = ui st)
  ∧ (∃ home,
       Home_loadData eng_t eng_r db' = Fulfilled home
       ∧ mkDraft (ReportRec d)
           (or_else (Some (ReportTemplate.title tmpl)) "Modelo Excluído")
         ∈ drafts home)
  ∧ (∀ t_id2 t_created2 t_updated2,
       let d2 := draft_of t_id2 t_created2 t_updated2 tmpl (of_report d) in
       ReportData.id d2 = ReportData.id d
       ∧ ReportData.photos d2 = Form.photos form
       ∧ (ReportData.createdAt d ≠ 0 → ReportData.createdAt d2 = ReportData.createdAt d)).
Proof.
  intros Hdb Hs Hg Ht Hr Htmpl d db'. subst db'.
  unfold handleSaveDraft. rewrite saveReport_working by exact Hs. simpl.
  fold d.
  set (db' := mkDatabase (IDB.templates db)
                (<[ReportData.id d := ReportRec d]> (reports db)) (users db)).
  assert (Hfind : ∀ compare,
            find_template (Some (ReportTemplate.id tmpl))
              (sort compare (map_to_list (IDB.templates db)).*2)
            = Some (TemplateRec tmpl)).
  { intros compare. apply HomeFacts.find_template_unique.
    - apply sort_elem, elem_of_listed. exists (ReportTemplate.id tmpl). exact Htmpl.
    - reflexivity.
    - intros t' Ht' Hid. apply sort_elem, elem_of_listed in Ht' as (k & Hk).
      pose proof (Hdb TEMPLATE_STORE k t' Hk) as Hkey. simpl in Hkey.
      assert (k = ReportTemplate.id tmpl) by congruence. subst k.
      simpl in Hk. congruence. }
  assert (Hfind' : find_template (Some (ReportTemplate.id tmpl))
                     (map_to_list (IDB.templates db)).*2
                   = Some (TemplateRec tmpl)).
  { apply HomeFacts.find_template_unique.
    - apply elem_of_listed. exists (ReportTemplate.id tmpl). exact Htmpl.
    - reflexivity.
    - intros t' Ht' Hid. apply elem_of_listed in Ht' as (k & Hk).
      pose proof (Hdb TEMPLATE_STORE k t' Hk) as Hkey. simpl in Hkey.
      assert (k = ReportTemplate.id tmpl) by congruence. subst k.
      simpl in Hk. congruence. }
  assert (Hid : ReportData.id d ≠ "").
  { apply FormFacts.or_else_nonempty, FormFacts.pretty_Z_nonempty. }
  split; [| split; [| split]].
  - rewrite getReport_working by exact Hg. simpl. rewrite lookup_insert_eq. reflexivity.
  - unfold Report_loadData. simpl. unfold truthy.
    rewrite bool_decide_eq_false_2 by exact Hid.
    rewrite (getReport_working eng_g) by exact Hg. simpl.
    rewrite lookup_insert_eq.
    rewrite (getTemplates_working eng_t) by exact Ht. simpl.
    rewrite Hfind'. simpl. repeat split; reflexivity.
  - rewrite HomeFacts.Home_loadData_working by assumption. simpl.
    eexists. split; [reflexivity |]. simpl.
    apply HomeFacts.elem_of_drafts. exists (ReportRec d). split; [| split].
    + unfold join_title. simpl. rewrite Hfind. reflexivity.
    + reflexivity.
    + apply elem_of_listed. exists (ReportData.id d). apply lookup_insert_eq.
  - intros t_id2 t_created2 t_updated2.
    split; [rewrite bool_decide_eq_false_2 by exact Hid; reflexivity |].
    split; [reflexivity |].
    intros Hc.
    destruct (Z.eqb_spec (number_or_else (createdAt form) t_created) 0) as [H0 | _];
      [destruct (Hc H0) | reflexivity].
Qed.

Lemma saved_draft_reopens_witness :
  let d := draft_of 1700000000000 1700000000001 1700000000002 template_bomba new_form in
  let db' := fst (fst (handleSaveDraft healthy 1700000000000 1700000000001 1700000000002
                         (Some template_bomba) new_form one_draft)) in
  getReport healthy (ReportData.id d) db' = (db', Fulfilled (Some (ReportRec d)))
  ∧ (let st' := Report_loadData healthy healthy (Some (ReportData.id d)) None db'
                  initial_screen in
     loaded st' = Some (ReportRec d)
     ∧ App.photos st' = Some (Form.photos new_form)
     ∧ template st' = Some (TemplateRec template_bomba)
     ∧ loading st' = false
     ∧ ui st' = ui initial_screen)
  ∧ (∃ home,
       Home_loadData healthy healthy db' = Fulfilled home
       ∧ mkDraft (ReportRec d)
           (or_else (Some (ReportTemplate.title template_bomba)) "Modelo Excluído")
         ∈ drafts home)
  ∧ (∀ t_id2 t_created2 t_updated2,
       let d2 := draft_of t_id2 t_created2 t_updated2 template_bomba (of_report d) in
       ReportData.id d2 = ReportData.id d
       ∧ ReportData.photos d2 = Form.photos new_form
       ∧ (ReportData.createdAt d ≠ 0 → ReportData.createdAt d2 = ReportData.createdAt d)).
Proof.
  exact (saved_draft_reopens healthy healthy healthy healthy template_bomba new_form
           one_draft 1700000000000 1700000000001 1700000000002 initial_screen
           one_draft_consistent healthy_working healthy_working healthy_working
           healthy_working eq_refl).
Defined.

Section CameraFacts.
Variable ar : Arith.
Variable toDataURL : Canvas → string → Q → string.
Variable context2d : bool.

(** X27. A frame without a picture adds no photo.  When the camera view is
    not mounted, when the video has no width or no height yet, or when the
    canvas gives no 2d context (the quality setting being one of the
    tiers), [capturePhoto] returns normally and changes nothing: no photo
    is added and the camera stays as it was. *)
Theorem capturePhoto_without_frame localStorage now st :
  video st = None
  ∨ (∃ v, video st = Some v ∧ (source_width v = 0 ∨ source_height v = 0))
  ∨ (context2d = false ∧ recognised (getPhotoQuality localStorage)) →
  capturePhoto ar toDataURL context2d localStorage now st = Normal st.
Proof.
  unfold capturePhoto, processImage.
  intros [Hnone | [(v & Hv & Hdim) | [Hctx Hrec]]].
  - rewrite Hnone. reflexivity.
  - rewrite Hv.
    assert (Hz : (source_width v =? 0) || (source_height v =? 0) = true).
    { destruct Hdim as [-> | ->]; [reflexivity | apply orb_true_r]. }
    destruct v as [w h s | w h s]; simpl in Hz |- *; rewrite Hz; reflexivity.
  - destruct (video st) as [v|]; [| reflexivity].
    assert (Hset : ∃ s, PHOTO_SETTINGS (getPhotoQuality localStorage) = Some s).
    { destruct Hrec as [-> | [-> | ->]]; eexists; reflexivity. }
    destruct Hset as [s ->]. subst context2d.
    destruct v as [w h src | w h src]; simpl;
      destruct ((w =? 0) || (h =? 0)); try reflexivity;
      destruct (resized ar (maxWidth s) w h); reflexivity.
Qed.
End CameraFacts.

Lemma capturePhoto_without_frame_witness :
  capturePhoto exact (fun _ _ _ => "data:image/jpeg;base64,AAAA") true ∅ 1700000000000
    (openCamera (HTMLVideoElement 0 0 "camera") initial_screen)
  = Normal (openCamera (HTMLVideoElement 0 0 "camera") initial_screen).
Proof.
  apply (capturePhoto_without_frame exact (fun _ _ _ => "data:image/jpeg;base64,AAAA")
           true ∅ 1700000000000
           (openCamera (HTMLVideoElement 0 0 "camera") initial_screen)).
  right. left. exists (HTMLVideoElement 0 0 "camera").
  split; [reflexivity | left; reflexivity].
Defined.

End JourneyFacts.
